(** * gherkin-mocha-parser: the feature parser and the Mocha generator

  A shallow embedding of [parseFeature], [extractVariablesFromStep] and
  [generateMochaTests] (parser module) together with the document models
  they build and read, followed by the properties of the specification.

  Conventions of the embedding.
  - A JavaScript string is a [string]; a character is one code unit in the
    8-bit range.
  - A JavaScript array that is only ever read or replaced as a whole is a
    [list].  The [steps] arrays are shared by reference between the parse
    context and the models, so they live in a store and are named by
    address.
  - A plain JavaScript object used as a record of properties is the list of
    its own enumerable properties, in the order [Object.keys] lists them.
  - A regular expression is a term of [regex], run by a backtracking
    matcher.
  - An operation that raises [TypeError] in JavaScript returns [Err]. *)

From Stdlib Require Import ZArith QArith Ascii String DecimalNat DecimalString.
From stdpp Require Import base list strings.

Local Open Scope stdpp_scope.
Local Open Scope list_scope.

(** ** Strings *)

Module JsString.

(** The double quote, code unit 34. *)
Definition dquote : ascii := ascii_of_nat 34.

(** [WhiteSpace] and [LineTerminator] code units below 256: what [trim]
    strips and what the class [\s] matches. *)
Definition is_space (c : ascii) : bool :=
  let n := nat_of_ascii c in
  (Nat.eqb n 9 || Nat.eqb n 10 || Nat.eqb n 11 || Nat.eqb n 12
   || Nat.eqb n 13 || Nat.eqb n 32 || Nat.eqb n 160)%bool.

Definition is_digit (c : ascii) : bool :=
  let n := nat_of_ascii c in (Nat.leb 48 n && Nat.leb n 57)%bool.

(** The class [\w]: letters, digits and the underscore. *)
Definition is_word (c : ascii) : bool :=
  let n := nat_of_ascii c in
  ((Nat.leb 48 n && Nat.leb n 57) || (Nat.leb 65 n && Nat.leb n 90)
   || (Nat.leb 97 n && Nat.leb n 122) || Nat.eqb n 95)%bool.

Fixpoint trimStart (s : string) : string :=
  match s with
  | EmptyString => EmptyString
  | String c s' => if is_space c then trimStart s' else s
  end.

Fixpoint trimEnd (s : string) : string :=
  match s with
  | EmptyString => EmptyString
  | String c s' =>
      match trimEnd s' with
      | EmptyString => if is_space c then EmptyString else String c EmptyString
      | t => String c t
      end
  end.

(** [s.trim()] *)
Definition trim (s : string) : string := trimEnd (trimStart s).

(** [s.startsWith(p)] *)
Definition startsWith (s p : string) : bool := String.prefix p s.

(** [s.slice(n)] for [0 <= n] *)
Fixpoint slice (n : nat) (s : string) : string :=
  match n, s with
  | O, _ => s
  | S n', String _ s' => slice n' s'
  | S _, EmptyString => EmptyString
  end.

(** [s.split(sep)] for a one-character separator: the first field and the
    fields after it. *)
Fixpoint split_fields (sep : ascii) (s : string) : string * list string :=
  match s with
  | EmptyString => (EmptyString, [])
  | String c s' =>
      let (x, xs) := split_fields sep s' in
      if Ascii.eqb c sep then (EmptyString, x :: xs) else (String c x, xs)
  end.

Definition split (sep : ascii) (s : string) : list string :=
  let (x, xs) := split_fields sep s in x :: xs.

Definition starts_with_space (s : string) : bool :=
  match s with
  | String c _ => is_space c
  | EmptyString => false
  end.

(** [s.split(/\s+/)]: a maximal run of white space is one separator; a run
    at either end of the string leaves an empty field there. *)
Fixpoint split_ws_fields (s : string) : string * list string :=
  match s with
  | EmptyString => (EmptyString, [])
  | String c s' =>
      let (x, xs) := split_ws_fields s' in
      if is_space c then
        if starts_with_space s' then (x, xs) else (EmptyString, x :: xs)
      else (String c x, xs)
  end.

Definition split_ws (s : string) : list string :=
  let (x, xs) := split_ws_fields s in x :: xs.

(** [arr.join(sep)] *)
Fixpoint join (sep : string) (l : list string) : string :=
  match l with
  | [] => EmptyString
  | [x] => x
  | x :: rest => x +:+ sep +:+ join sep rest
  end.

(** [String(n)] for a natural number: its decimal numeral. *)
Definition of_nat (n : nat) : string := NilEmpty.string_of_uint (Nat.to_uint n).

End JsString.

Import JsString.

(** [arr.slice(1, -1)]: the array without its first and its last element. *)
Definition slice_1_m1 {A} (l : list A) : list A := removelast (tl l).

(** ** Plain objects

  [{}] and the assignments [o[k] = v] made on it.  The list holds the own
  properties in the order of [OrdinaryOwnPropertyKeys]: array indices in
  ascending numeric order first, then the other keys in the order they were
  created. *)

Module JsObject.

Definition obj (V : Type) : Type := list (string * V).

Definition keys {V} (o : obj V) : list string := o.*1.

Fixpoint get {V} (k : string) (o : obj V) : option V :=
  match o with
  | [] => None
  | (k', v) :: o' => if String.eqb k k' then Some v else get k o'
  end.

Definition has {V} (k : string) (o : obj V) : bool :=
  match get k o with Some _ => true | None => false end.

Fixpoint all_digits (s : string) : bool :=
  match s with
  | EmptyString => true
  | String c s' => (is_digit c && all_digits s')%bool
  end.

Fixpoint digits_value (acc : N) (s : string) : N :=
  match s with
  | EmptyString => acc
  | String c s' => digits_value (acc * 10 + (N_of_ascii c - 48))%N s'
  end.

(** An array index is the canonical numeral of an integer in
    [0, 2^32 - 2]: no sign, no leading zero. *)
Definition array_index (k : string) : option N :=
  match k with
  | EmptyString => None
  | String c rest =>
      if (all_digits k && (negb (Ascii.eqb c "0") || String.eqb rest ""))%bool
      then
        if Nat.leb (String.length k) 10 then
          let n := digits_value 0 k in
          if (n <? 4294967295)%N then Some n else None
        else None
      else None
  end.

Fixpoint replace {V} (k : string) (v : V) (o : obj V) : obj V :=
  match o with
  | [] => []
  | (k', v') :: o' =>
      if String.eqb k k' then (k', v) :: o' else (k', v') :: replace k v o'
  end.

(** A new array-index property goes before the first property that is not
    an array index or is a larger one. *)
Fixpoint insert_index {V} (n : N) (k : string) (v : V) (o : obj V) : obj V :=
  match o with
  | [] => [(k, v)]
  | (k', v') :: o' =>
      match array_index k' with
      | Some n' =>
          if (n' <? n)%N then (k', v') :: insert_index n k v o'
          else (k, v) :: o
      | None => (k, v) :: o
      end
  end.

(** [o[k] = v] on an object whose prototype is [Object.prototype].  The
    key [__proto__] reaches the accessor of the prototype, whose setter
    ignores a value that is neither an object nor [null]: no own property
    is created. *)
Definition set {V} (k : string) (v : V) (o : obj V) : obj V :=
  if String.eqb k "__proto__" then o
  else if has k o then replace k v o
  else match array_index k with
       | Some n => insert_index n k v o
       | None => o ++ [(k, v)]
       end.

(** [Object.assign(target, ...sources)]: every own property of every
    source, in order, is assigned on the target. *)
Definition assign_one {V} (target source : obj V) : obj V :=
  fold_left (fun t kv => set kv.1 kv.2 t) source target.

Definition assign {V} (target : obj V) (sources : list (obj V)) : obj V :=
  fold_left assign_one sources target.

End JsObject.

Import JsObject.

(** ** Document models

  The classes of [models/].  The parameter [S] is the representation of a
  [steps] array: its address while the parser shares it with its context,
  its contents once the parse is over. *)

Module Model.

(** Modelled from the spec: [BackgroundModel], whose declaration is not
    among the sources; it holds [steps], an ordered sequence of strings. *)
Record BackgroundModel (S : Type) : Type := mkBackground {
  bg_steps : S
}.

(** Modelled from the spec: [ScenarioModel], whose declaration is not among
    the sources; it holds [name], [steps] and [tags]. *)
Record ScenarioModel (S : Type) : Type := mkScenario {
  sc_name : string;
  sc_steps : S;
  sc_tags : list string
}.

Record ScenarioOutlineModel (S : Type) : Type := mkOutline {
  so_name : string;
  so_steps : S;
  so_examples : list (obj string);
  so_tags : list string
}.

(** An element of [FeatureModel.scenarios]; the constructor is what
    [instanceof] inspects. *)
Inductive Entity (S : Type) : Type :=
| Scenario (s : ScenarioModel S)
| Outline (o : ScenarioOutlineModel S).

Record FeatureModel (S : Type) : Type := mkFeature {
  name : string;
  description : list string;
  background : option (BackgroundModel S);
  scenarios : list (Entity S)
}.

Arguments mkBackground {S}.
Arguments bg_steps {S}.
Arguments mkScenario {S}.
Arguments sc_name {S}.
Arguments sc_steps {S}.
Arguments sc_tags {S}.
Arguments mkOutline {S}.
Arguments so_name {S}.
Arguments so_steps {S}.
Arguments so_examples {S}.
Arguments so_tags {S}.
Arguments Scenario {S}.
Arguments Outline {S}.
Arguments mkFeature {S}.
Arguments name {S}.
Arguments description {S}.
Arguments background {S}.
Arguments scenarios {S}.

Definition entity_name {S} (e : Entity S) : string :=
  match e with Scenario s => sc_name s | Outline o => so_name o end.

Definition entity_steps {S} (e : Entity S) : S :=
  match e with Scenario s => sc_steps s | Outline o => so_steps o end.

Definition entity_tags {S} (e : Entity S) : list string :=
  match e with Scenario s => sc_tags s | Outline o => so_tags o end.

Definition entity_examples {S} (e : Entity S) : list (obj string) :=
  match e with Scenario _ => [] | Outline o => so_examples o end.

Definition is_outline {S} (e : Entity S) : bool :=
  match e with Scenario _ => false | Outline _ => true end.

(** [new FeatureModel()] *)
Definition new_feature {S} : FeatureModel S :=
  {| name := ""; description := []; background := None; scenarios := [] |}.

End Model.

Import Model.

(** ** Exceptions *)

Inductive result (A : Type) : Type :=
| Ok (a : A)
| Err.

Arguments Ok {A}.
Arguments Err {A}.

Definition bind {A B} (r : result A) (k : A -> result B) : result B :=
match r with Ok a => k a | Err => Err end.

Notation "x <- r ;; k" := (bind r (fun x => k))
(at level 100, r at next level, right associativity).

Fixpoint mapM {A B} (f : A -> result B) (l : list A) : result (list B) :=
match l with
| [] => Ok []
| a :: l' => b <- f a ;; bs <- mapM f l' ;; Ok (b :: bs)
end.

(** ** The parser *)

Module Parser.

Definition STEP_KEYWORDS : list string := ["Given"; "When"; "Then"; "And"; "But"].

Inductive ParseMode : Type :=
| mode_none | mode_background | mode_scenario | mode_outline | mode_rule.

Definition isStepLine (line : string) : bool :=
  existsb (fun keyword => startsWith line keyword) STEP_KEYWORDS.

Definition parseTableRow (line : string) : list string :=
  map trim (slice_1_m1 (split "|" line)).

(** An address of the store of [steps] arrays. *)
Abbreviation addr := nat (only parsing).

(** The parse context.  [store] holds every [steps] array allocated so far;
    [currentStepCollector] and the [steps] fields of the models are
    addresses in it.  [currentScenario] is a reference to an element of
    [feature.scenarios], by position: that array only grows. *)
Record Context : Type := mkContext {
  store : list (list string);
  feature : FeatureModel addr;
  currentScenario : option nat;
  currentStepCollector : addr;
  mode : ParseMode;
  headers : list string;
  pendingTags : list string;
  inDocString : bool
}.

Definition set_store v (c : Context) : Context :=
  mkContext v (feature c) (currentScenario c) (currentStepCollector c)
            (mode c) (headers c) (pendingTags c) (inDocString c).
Definition set_feature v (c : Context) : Context :=
  mkContext (store c) v (currentScenario c) (currentStepCollector c)
            (mode c) (headers c) (pendingTags c) (inDocString c).
Definition set_currentScenario v (c : Context) : Context :=
  mkContext (store c) (feature c) v (currentStepCollector c)
            (mode c) (headers c) (pendingTags c) (inDocString c).
Definition set_currentStepCollector v (c : Context) : Context :=
  mkContext (store c) (feature c) (currentScenario c) v
            (mode c) (headers c) (pendingTags c) (inDocString c).
Definition set_mode v (c : Context) : Context :=
  mkContext (store c) (feature c) (currentScenario c) (currentStepCollector c)
            v (headers c) (pendingTags c) (inDocString c).
Definition set_headers v (c : Context) : Context :=
  mkContext (store c) (feature c) (currentScenario c) (currentStepCollector c)
            (mode c) v (pendingTags c) (inDocString c).
Definition set_pendingTags v (c : Context) : Context :=
  mkContext (store c) (feature c) (currentScenario c) (currentStepCollector c)
            (mode c) (headers c) v (inDocString c).
Definition set_inDocString v (c : Context) : Context :=
  mkContext (store c) (feature c) (currentScenario c) (currentStepCollector c)
            (mode c) (headers c) (pendingTags c) v.

Definition set_name v (f : FeatureModel addr) : FeatureModel addr :=
  mkFeature v (description f) (background f) (scenarios f).
Definition set_description v (f : FeatureModel addr) : FeatureModel addr :=
  mkFeature (name f) v (background f) (scenarios f).
Definition set_background v (f : FeatureModel addr) : FeatureModel addr :=
  mkFeature (name f) (description f) v (scenarios f).
Definition set_scenarios v (f : FeatureModel addr) : FeatureModel addr :=
  mkFeature (name f) (description f) (background f) v.

(** The context before the first line.  Address 0 is the array literal
    that [currentStepCollector] starts with; no model owns it. *)
Definition initial : Context :=
  {| store := [[]];
     feature := new_feature;
     currentScenario := None;
     currentStepCollector := 0;
     mode := mode_none;
     headers := [];
     pendingTags := [];
     inDocString := false |}.

(** The fresh, empty [steps] array of a model under construction. *)
Definition alloc (c : Context) : addr * Context :=
  (length (store c), set_store (store c ++ [[]]) c).

Definition on_Feature (line : string) (ctx : Context) : Context :=
  set_feature (set_name (trim (slice 8 line)) (feature ctx)) ctx.

Definition on_Background (_ : string) (ctx : Context) : Context :=
  let (steps, ctx) := alloc ctx in
  let bg := mkBackground steps in
  let ctx := set_feature (set_background (Some bg) (feature ctx)) ctx in
  let ctx := set_currentStepCollector (bg_steps bg) ctx in
  set_mode mode_background ctx.

Definition on_ScenarioOutline (line : string) (ctx : Context) : Context :=
  let (steps, ctx) := alloc ctx in
  let outline :=
    {| so_name := trim (slice 17 line); so_steps := steps;
       so_examples := []; so_tags := pendingTags ctx |} in
  let ctx := set_pendingTags [] ctx in
  let here := length (scenarios (feature ctx)) in
  let ctx :=
    set_feature
      (set_scenarios (scenarios (feature ctx) ++ [Outline outline]) (feature ctx))
      ctx in
  let ctx := set_currentScenario (Some here) ctx in
  let ctx := set_currentStepCollector (so_steps outline) ctx in
  set_mode mode_outline ctx.

Definition on_Scenario (line : string) (ctx : Context) : Context :=
  let (steps, ctx) := alloc ctx in
  let scenario :=
    {| sc_name := trim (slice 9 line); sc_steps := steps;
       sc_tags := pendingTags ctx |} in
  let ctx := set_pendingTags [] ctx in
  let here := length (scenarios (feature ctx)) in
  let ctx :=
    set_feature
      (set_scenarios (scenarios (feature ctx) ++ [Scenario scenario]) (feature ctx))
      ctx in
  let ctx := set_currentScenario (Some here) ctx in
  let ctx := set_currentStepCollector (sc_steps scenario) ctx in
  set_mode mode_scenario ctx.

Definition on_Examples (_ : string) (ctx : Context) : Context :=
  set_headers [] ctx.

Definition on_Rule (line : string) (ctx : Context) : Context :=
  let ctx :=
    set_feature
      (set_description
         (description (feature ctx) ++ ["Rule: " +:+ trim (slice 5 line)])
         (feature ctx))
      ctx in
  set_mode mode_rule ctx.

(** The handler table, in the order of its keys. *)
Definition handlers : list (string * (string -> Context -> Context)) :=
  [ ("Feature:", on_Feature);
    ("Background:", on_Background);
    ("Scenario Outline:", on_ScenarioOutline);
    ("Scenario:", on_Scenario);
    ("Examples:", on_Examples);
    ("Rule:", on_Rule) ].

(** [handlers[key]] *)
Fixpoint handler_of (key : string)
    (table : list (string * (string -> Context -> Context)))
    : option (string -> Context -> Context) :=
  match table with
  | [] => None
  | (k, h) :: table' => if String.eqb key k then Some h else handler_of key table'
  end.

(** A string in a condition: the empty string is false. *)
Definition truthy (s : string) : bool :=
  match s with EmptyString => false | String _ _ => true end.

(** [if (found)] on the result of [find]: [undefined] and the empty string
    are false. *)
Definition if_truthy (found : option string) : option string :=
  match found with
  | Some key => if truthy key then Some key else None
  | None => None
  end.

(** [cells[i] || ''] *)
Definition cell_or_empty (cells : list string) (i : nat) : string :=
  match cells !! i with
  | Some cell => if truthy cell then cell else ""
  | None => ""
  end.

(** The [forEach] over the headers, from index [i] on. *)
Fixpoint zip_headers (i : nat) (hs cells : list string) (row : obj string)
    : obj string :=
  match hs with
  | [] => row
  | header :: hs' =>
      zip_headers (S i) hs' cells (set header (cell_or_empty cells i) row)
  end.

Definition make_row (hs cells : list string) : obj string :=
  zip_headers 0 hs cells [].

(** [ctx.currentStepCollector.push(line)] *)
Definition push_collector (line : string) (ctx : Context) : result Context :=
  let a := currentStepCollector ctx in
  match store ctx !! a with
  | Some steps => Ok (set_store (<[a := steps ++ [line]]> (store ctx)) ctx)
  | None => Err
  end.

Definition push_example (i : nat) (o : ScenarioOutlineModel addr)
    (row : obj string) (ctx : Context) : Context :=
  let o' :=
    {| so_name := so_name o; so_steps := so_steps o;
       so_examples := so_examples o ++ [row]; so_tags := so_tags o |} in
  set_feature
    (set_scenarios (<[i := Outline o']> (scenarios (feature ctx))) (feature ctx))
    ctx.

Definition on_table_row (line : string) (ctx : Context) : result Context :=
  let cells := parseTableRow line in
  if Nat.eqb (length (headers ctx)) 0 then Ok (set_headers cells ctx)
  else
    match currentScenario ctx with
    | None => Ok ctx
    | Some i =>
        match scenarios (feature ctx) !! i with
        | Some (Outline o) =>
            Ok (push_example i o (make_row (headers ctx) cells) ctx)
        | Some (Scenario _) => Ok ctx
        | None => Err
        end
    end.

Definition fence : string :=
  String dquote (String dquote (String dquote EmptyString)).

Definition mode_is_none (m : ParseMode) : bool :=
  match m with mode_none => true | _ => false end.

(** One iteration of the loop over the lines. *)
Definition process_line (ctx : Context) (line : string) : result Context :=
  if startsWith line fence then
    push_collector line (set_inDocString (negb (inDocString ctx)) ctx)
  else if inDocString ctx then push_collector line ctx
  else if startsWith line "@" then
    Ok (set_pendingTags (map trim (split_ws line)) ctx)
  else
    let matchedHandler :=
      List.find (fun prefix => startsWith line prefix) (map fst handlers) in
    match if_truthy matchedHandler with
    | Some key =>
        match handler_of key handlers with
        | Some h => Ok (h line ctx)
        | None => Err
        end
    | None =>
        if startsWith line "|" then on_table_row line ctx
        else if isStepLine line then push_collector line ctx
        else if (truthy line && mode_is_none (mode ctx))%bool then
          Ok (set_feature
                (set_description (description (feature ctx) ++ [line])
                                 (feature ctx))
                ctx)
        else Ok ctx
    end.

(** The loop. *)
Fixpoint run (ctx : Context) (lines : list string) : result Context :=
  match lines with
  | [] => Ok ctx
  | line :: rest => ctx' <- process_line ctx line ;; run ctx' rest
  end.

(** The value of a model graph: every [steps] address replaced by the
    contents of the array. *)
Definition read_steps (st : list (list string)) (a : addr) : result (list string) :=
  match st !! a with Some steps => Ok steps | None => Err end.

Definition read_entity (st : list (list string)) (e : Entity addr)
    : result (Entity (list string)) :=
  match e with
  | Scenario s =>
      steps <- read_steps st (sc_steps s) ;;
      Ok (Scenario {| sc_name := sc_name s; sc_steps := steps;
                      sc_tags := sc_tags s |})
  | Outline o =>
      steps <- read_steps st (so_steps o) ;;
      Ok (Outline {| so_name := so_name o; so_steps := steps;
                     so_examples := so_examples o; so_tags := so_tags o |})
  end.

Definition read_background (st : list (list string))
    (b : option (BackgroundModel addr))
    : result (option (BackgroundModel (list string))) :=
  match b with
  | None => Ok None
  | Some bg => steps <- read_steps st (bg_steps bg) ;; Ok (Some (mkBackground steps))
  end.

Definition read_feature (ctx : Context) : result (FeatureModel (list string)) :=
  let f := feature ctx in
  bg <- read_background (store ctx) (background f) ;;
  scs <- mapM (read_entity (store ctx)) (scenarios f) ;;
  Ok {| name := name f; description := description f;
        background := bg; scenarios := scs |}.

(** The parse of the lines of a file, as [split] leaves them. *)
Definition parseLines (raw : list string) : result (FeatureModel (list string)) :=
  ctx <- run initial (map trim raw) ;;
  read_feature ctx.

(** [parseFeature], on the contents of the file at [filePath]. *)
Definition parseFeature (contents : string) : result (FeatureModel (list string)) :=
  parseLines (split (ascii_of_nat 10) contents).

End Parser.

(** ** Variable extraction *)

Module Extract.

(** A JavaScript number that [Number] can return on a decimal numeral: a
    finite binary64 value, held as the reduced fraction it equals, or
    [Infinity]; [NaN] is the result on a string that is no numeral. *)
Inductive number : Type :=
| Finite (q : Q)
| Infinity
| NaN.

Inductive value : Type :=
| VString (s : string)
| VNumber (n : number).

(** The quotient [n / d] rounded to an integer, ties to even. *)
Definition round_half_even (n d : Z) : Z :=
  let q := (n / d)%Z in
  match (2 * (n mod d) ?= d)%Z with
  | Lt => q
  | Gt => (q + 1)%Z
  | Eq => if Z.even q then q else (q + 1)%Z
  end.

(** The binary64 value nearest to [n / d], for [0 <= n] and [0 < d]:
    a significand below [2^53] at the exponent that leaves it 53 bits, or
    at the least exponent [-1074] for a subnormal. *)
Definition binary64 (n d : Z) : number :=
  if (n =? 0)%Z then Finite 0
  else
    let l := (Z.log2 n - Z.log2 d)%Z in
    let above :=
      if (0 <=? l)%Z then (d * 2 ^ l <=? n)%Z else (d <=? n * 2 ^ (- l))%Z in
    let e := Z.max ((if above then l else l - 1) - 52) (-1074) in
    let m :=
      if (0 <=? e)%Z then round_half_even n (d * 2 ^ e)
      else round_half_even (n * 2 ^ (- e)) d in
    let (m, e) := if (m =? 2 ^ 53)%Z then ((2 ^ 52)%Z, (e + 1)%Z) else (m, e) in
    if (971 <? e)%Z then Infinity
    else if (0 <=? e)%Z then Finite (inject_Z (m * 2 ^ e))
    else Finite (Qred (Qmake m (Z.to_pos (2 ^ (- e))))).

Fixpoint span (p : ascii -> bool) (s : string) : string * string :=
  match s with
  | EmptyString => (EmptyString, EmptyString)
  | String c s' =>
      if p c then let (a, b) := span p s' in (String c a, b)
      else (EmptyString, s)
  end.

(** [Number(s)] on a numeral made of digits, or of digits, a point and
    digits.  Every string that [extractVariablesFromStep] converts has
    this shape. *)
Definition Number (s : string) : number :=
  let (int, rest) := span is_digit s in
  match int, rest with
  | String _ _, EmptyString => binary64 (Z.of_N (digits_value 0 int)) 1
  | String _ _, String "." frac =>
      match frac with
      | String _ _ =>
          if all_digits frac then
            binary64 (Z.of_N (digits_value 0 (int +:+ frac)))
                     (10 ^ Z.of_nat (String.length frac))
          else NaN
      | EmptyString => NaN
      end
  | _, _ => NaN
  end.

Definition not_dquote (c : ascii) : bool := negb (Ascii.eqb c dquote).

Definition word_at (c : option ascii) : bool :=
  match c with Some c => is_word c | None => false end.

(** The assertion [\b] between two positions. *)
Definition boundary (before after : option ascii) : bool :=
  xorb (word_at before) (word_at after).

Definition first_char (s : string) : option ascii :=
  match s with String c _ => Some c | EmptyString => None end.

(** A pattern, for the constructs the two patterns of the source use. *)
Inductive regex : Type :=
| Chr (c : ascii)
| Class (p : ascii -> bool)
| Seq (r1 r2 : regex)
| Plus (r : regex)
| Opt (r : regex)
| Boundary.

(** The backtracking matcher.  [run_re r before s k] matches [r] at the
    start of [s], the character before it being [before], and hands the
    rest of the string to the continuation [k]; when [k] fails, the next
    alternative of [r] is tried: a greedy [Plus] gives back one iteration
    at a time, a greedy [Opt] gives up its group.  The result is what
    remains of the string after the whole match.  An iteration of [Plus]
    consumes a character in the patterns below, so the length of the string
    bounds the number of iterations. *)
Fixpoint run_re (r : regex) (before : option ascii) (s : string)
    (k : option ascii -> string -> option string) {struct r} : option string :=
  match r with
  | Chr c =>
      match s with
      | String a s' => if Ascii.eqb a c then k (Some a) s' else None
      | EmptyString => None
      end
  | Class p =>
      match s with
      | String a s' => if p a then k (Some a) s' else None
      | EmptyString => None
      end
  | Seq r1 r2 => run_re r1 before s (fun b s' => run_re r2 b s' k)
  | Plus r1 =>
      (fix iterate (fuel : nat) (before : option ascii) (s : string)
         : option string :=
         run_re r1 before s
           (fun b s' =>
              match fuel with
              | S fuel' =>
                  match iterate fuel' b s' with
                  | Some rest => Some rest
                  | None => k b s'
                  end
              | O => k b s'
              end))
        (String.length s) before s
  | Opt r1 =>
      match run_re r1 before s k with
      | Some rest => Some rest
      | None => k before s
      end
  | Boundary => if boundary before (first_char s) then k before s else None
  end.

(** The first [n] characters of a string. *)
Fixpoint take_chars (n : nat) (s : string) : string :=
  match n, s with
  | S n', String c s' => String c (take_chars n' s')
  | _, _ => EmptyString
  end.

(** The text that [r] matches at the start of [s], if it matches. *)
Definition match_at (r : regex) (before : option ascii) (s : string)
    : option string :=
  match run_re r before s (fun _ rest => Some rest) with
  | Some rest => Some (take_chars (String.length s - String.length rest) s)
  | None => None
  end.

(** The matches of a global pattern, leftmost first, none overlapping
    another: [skip] counts the characters of the last match that are still
    to be passed over.  Neither pattern below matches the empty string. *)
Fixpoint scan (r : regex) (skip : nat) (before : option ascii) (s : string)
    : list string :=
  match s with
  | EmptyString => []
  | String c s' =>
      match skip with
      | S k => scan r k (Some c) s'
      | O =>
          match match_at r before s with
          | Some m => m :: scan r (String.length m - 1) (Some c) s'
          | None => scan r 0 (Some c) s'
          end
      end
  end.

(** The pattern of the quoted matches: a double quote, one or more
    characters other than a double quote, a double quote. *)
Definition quoted_pattern : regex :=
  Seq (Chr dquote) (Seq (Plus (Class not_dquote)) (Chr dquote)).

(** The pattern of the number matches, [/\b\d+(\.\d+)?\b/]. *)
Definition number_pattern : regex :=
  Seq Boundary
      (Seq (Plus (Class is_digit))
           (Seq (Opt (Seq (Chr ".") (Plus (Class is_digit)))) Boundary)).

(** [s.match(re)] for a global pattern: [null] when nothing matches. *)
Definition match_all (found : list string) : option (list string) :=
  match found with
  | [] => None
  | _ :: _ => Some found
  end.

(** [m.replace(re, '')] where the global pattern [re] is one double
    quote: every double quote is removed. *)
Fixpoint remove_dquotes (s : string) : string :=
  match s with
  | EmptyString => EmptyString
  | String c s' =>
      if Ascii.eqb c dquote then remove_dquotes s' else String c (remove_dquotes s')
  end.

(** [arr.forEach((x, index) => { variables[key(index)] = val(x) })], from
    [index] on. *)
Fixpoint store_each (prefix : string) (val : string -> value) (index : nat)
    (l : list string) (variables : obj value) : obj value :=
  match l with
  | [] => variables
  | x :: l' =>
      store_each prefix val (S index) l'
                 (set (prefix +:+ of_nat (index + 1)) (val x) variables)
  end.

Definition extractVariablesFromStep (step : string) : obj value :=
  let variables : obj value := [] in
  let quotedMatches := match_all (scan quoted_pattern 0 None step) in
  let numberMatches := match_all (scan number_pattern 0 None step) in
  let variables :=
    match quotedMatches with
    | Some ms =>
        store_each "key" (fun m => VString (remove_dquotes m)) 0 ms variables
    | None => variables
    end in
  let variables :=
    match numberMatches with
    | Some ms => store_each "num" (fun num => VNumber (Number num)) 0 ms variables
    | None => variables
    end in
  variables.

End Extract.

Import Extract.

(** ** The generator *)

Section Generator.

(** [Number::toString] on a finite number: the shortest decimal numeral
    that reads back as the same binary64 value.  The generator only
    splices its result into the output. *)
Variable NumberToString : Q -> string.

Definition hex_digit (n : nat) : ascii :=
  if Nat.ltb n 10 then ascii_of_nat (48 + n) else ascii_of_nat (87 + n).

(** One code unit inside [QuoteJSONString]. *)
Definition json_escape (c : ascii) : string :=
  let n := nat_of_ascii c in
  if Nat.eqb n 8 then "\b"
  else if Nat.eqb n 9 then "\t"
  else if Nat.eqb n 10 then "\n"
  else if Nat.eqb n 12 then "\f"
  else if Nat.eqb n 13 then "\r"
  else if Nat.eqb n 34 then String "\" (String dquote EmptyString)
  else if Nat.eqb n 92 then "\\"
  else if Nat.ltb n 32 then
    "\u00" +:+ String (hex_digit (n / 16)) (String (hex_digit (n mod 16)) EmptyString)
  else String c EmptyString.

Fixpoint json_escape_all (s : string) : string :=
  match s with
  | EmptyString => EmptyString
  | String c s' => json_escape c +:+ json_escape_all s'
  end.

Definition json_quote (s : string) : string :=
  String dquote (json_escape_all s +:+ String dquote EmptyString).

Definition json_value (v : value) : string :=
  match v with
  | VString s => json_quote s
  | VNumber (Finite q) => NumberToString q
  | VNumber _ => "null"
  end.

(** [JSON.stringify(o, null, 6)] on an object whose properties all hold
    strings, or strings and numbers ([show] renders one property value):
    one property per line behind six spaces. *)
Definition JSON_stringify {V} (show : V -> string) (o : obj V) : string :=
  match o with
  | [] => "{}"
  | _ :: _ =>
      let indent := "      " in
      let partial := map (fun kv => json_quote kv.1 +:+ ": " +:+ show kv.2) o in
      let newline := String (ascii_of_nat 10) EmptyString in
      "{" +:+ newline +:+ indent +:+ join ("," +:+ newline +:+ indent) partial
          +:+ newline +:+ "}"
  end.

Definition comment (step : string) : string := "    // " +:+ step.

(** [steps[0]] inside a template literal. *)
Definition first_step (steps : list string) : string :=
  match steps !! 0 with Some s => s | None => "undefined" end.

(** The shallow merge of the variables of every step. *)
Definition merged_variables (steps : list string) : obj value :=
  assign [] (map extractVariablesFromStep steps).

Definition emit_background (f : FeatureModel (list string))
    (lines : list string) : list string :=
  match background f with
  | Some bg =>
      if Nat.ltb 0 (length (bg_steps bg)) then
        let lines :=
          lines ++ ["  it('Background: " +:+ first_step (bg_steps bg)
                    +:+ "', async () => {"] in
        let lines := lines ++ map comment (bg_steps bg) in
        let data := merged_variables (bg_steps bg) in
        let lines := lines ++ [""] in
        let lines :=
          lines ++ ["    const data = " +:+ JSON_stringify json_value data +:+ ";"] in
        let lines := lines ++ ["  });"] in
        lines ++ [""]
      else lines
  | None => lines
  end.

Definition emit_scenario (lines : list string) (scenario : Entity (list string))
    : list string :=
  let isOutline := is_outline scenario in
  let title :=
    if isOutline then "Scenario Outline: " +:+ entity_name scenario
    else entity_name scenario in
  let lines := lines ++ ["  it('" +:+ title +:+ "', async () => {"] in
  let lines := lines ++ map comment (entity_steps scenario) in
  let lines := lines ++ [""] in
  let lines :=
    match scenario with
    | Outline outline =>
        let exampleData :=
          map (JSON_stringify json_quote) (so_examples outline) in
        let lines := lines ++ ["    const data = ["] in
        let lines := lines ++ map (fun row => "      " +:+ row +:+ ",") exampleData in
        lines ++ ["    ];"]
    | Scenario s =>
        let stepData := merged_variables (sc_steps s) in
        lines ++ ["    const data = " +:+ JSON_stringify json_value stepData +:+ ";"]
    end in
  let lines := lines ++ ["  });"] in
  lines ++ [""].

(** The array [lines] just before it is joined. *)
Definition generate_lines (f : FeatureModel (list string)) : list string :=
  let lines : list string := [] in
  let lines := lines ++ ["const { mocha } = require('mocha');"] in
  let lines := lines ++ ["const { expect } = require('chai');"] in
  let lines := lines ++ [""] in
  let lines := lines ++ ["describe('Feature: " +:+ name f +:+ "', function () {"] in
  let lines := emit_background f lines in
  let lines := fold_left emit_scenario (scenarios f) lines in
  lines ++ ["});"].

Definition generateMochaTests (f : FeatureModel (list string)) : string :=
  join (String (ascii_of_nat 10) EmptyString) (generate_lines f).

End Generator.

(** * Vocabulary of the properties

    The invariants of the parse, the loop body as a relation, and the
    notions of the specification that the theorems compare the code with. *)

Import Parser.

(** Every reference held by the context or by the feature under
    construction points into the store or into [feature.scenarios], and
    no model owns the array at address 0. *)
Record wf (c : Context) : Prop := mk_wf {
  wf_collector : currentStepCollector c < length (store c);
  wf_current :
    forall i, currentScenario c = Some i -> i < length (scenarios (feature c));
  wf_background :
    forall bg, background (feature c) = Some bg ->
               0 < bg_steps bg /\ bg_steps bg < length (store c);
  wf_scenarios :
    Forall (fun e => 0 < entity_steps e /\ entity_steps e < length (store c))
           (scenarios (feature c))
}.

(** A context that some sequence of lines leads to. *)
Definition reachable (c : Context) : Prop :=
  exists lines, run initial lines = Ok c.

(** The tokens of a line in the words of the specification: its maximal
    runs of characters that are not white space, left to right. *)
Fixpoint ws_tokens (s : string) : list string :=
  match s with
  | EmptyString => []
  | String c s' =>
      if is_space c then ws_tokens s'
      else if starts_with_space s' then String c EmptyString :: ws_tokens s'
      else match ws_tokens s' with
           | t :: ts => String c t :: ts
           | [] => [String c EmptyString]
           end
  end.

Fixpoint ends_with_space (s : string) : bool :=
  match s with
  | EmptyString => false
  | String c EmptyString => is_space c
  | String _ s' => ends_with_space s'
  end.

Fixpoint no_space (s : string) : bool :=
  match s with
  | EmptyString => true
  | String c s' => (negb (is_space c) && no_space s')%bool
  end.

(** What one line can do to the context: one constructor per branch of
    the loop body. *)
Inductive step (c : Context) (line : string) : Context -> Prop :=
| step_collect (steps : list string) (doc : bool) :
    store c !! currentStepCollector c = Some steps ->
    step c line
         (set_store (<[currentStepCollector c := steps ++ [line]]> (store c))
                    (set_inDocString doc c))
| step_tag :
    inDocString c = false -> startsWith line "@" = true ->
    step c line (set_pendingTags (map trim (split_ws line)) c)
| step_Feature :
    startsWith line "Feature:" = true -> step c line (on_Feature line c)
| step_Background :
    startsWith line "Background:" = true -> step c line (on_Background line c)
| step_ScenarioOutline :
    startsWith line "Scenario Outline:" = true ->
    step c line (on_ScenarioOutline line c)
| step_Scenario :
    startsWith line "Scenario:" = true -> step c line (on_Scenario line c)
| step_Examples :
    startsWith line "Examples:" = true -> step c line (on_Examples line c)
| step_Rule :
    startsWith line "Rule:" = true -> step c line (on_Rule line c)
| step_header :
    startsWith line "|" = true -> headers c = [] ->
    step c line (set_headers (parseTableRow line) c)
| step_row (i : nat) (o : ScenarioOutlineModel nat) :
    startsWith line "|" = true -> headers c <> [] ->
    currentScenario c = Some i ->
    scenarios (feature c) !! i = Some (Outline o) ->
    step c line (push_example i o (make_row (headers c) (parseTableRow line)) c)
| step_describe :
    isStepLine line = false ->
    step c line
         (set_feature
            (set_description (description (feature c) ++ [line]) (feature c)) c)
| step_skip : isStepLine line = false -> step c line c.

(** An entity keeps its name, class, tags and [steps] array. *)
Definition same_entity (e e' : Entity nat) : Prop :=
  entity_name e = entity_name e' /\ entity_tags e = entity_tags e' /\
  is_outline e = is_outline e' /\ entity_steps e = entity_steps e'.

Definition scenario_line (line : string) : Prop :=
  startsWith line "Scenario:" = true \/ startsWith line "Scenario Outline:" = true.

(** The claim as the specification words it: the tags of the entity are
    the tokens of all the tag lines before it, concatenated. *)
Definition tag_flush_as_stated : Prop :=
  forall (ctx : Context) (tag_lines : list string) (line : string),
    reachable ctx -> inDocString ctx = false ->
    tag_lines <> [] ->
    Forall (fun t => startsWith t "@" = true /\ trim t = t) tag_lines ->
    scenario_line line ->
    exists ctx' e,
      run ctx (tag_lines ++ [line]) = Ok ctx' /\
      scenarios (feature ctx') = scenarios (feature ctx) ++ [e] /\
      entity_tags e = concat (map ws_tokens tag_lines) /\
      pendingTags ctx' = [].

(** The lines that give the collector a new array. *)
Definition opens_collector (line : string) : bool :=
  (startsWith line "Background:" || startsWith line "Scenario Outline:"
   || startsWith line "Scenario:")%bool.

(** The context [c] with another array at address 0. *)
Definition with_detached (d : list string) (c : Context) : Context :=
  set_store (<[0 := d]> (store c)) c.

(** Before the first line that opens a collector: the collector is still
    the array of address 0, the only one of the store, and the feature has
    neither background nor scenario. *)
Definition detached_state (c : Context) (d : list string) : Prop :=
  store c = [d] /\ currentStepCollector c = 0 /\
  background (feature c) = None /\ scenarios (feature c) = [].

Abbreviation is_step := (fun l : string => isStepLine l = true).
Abbreviation is_no_step := (fun l : string => isStepLine l = false).

(** The value of a key in the last object that has it. *)
Fixpoint last_defined {V} (k : string) (objs : list (obj V)) : option V :=
  match objs with
  | [] => None
  | o :: rest =>
      match last_defined k rest with
      | Some v => Some v
      | None => get k o
      end
  end.

(** No header row is buffered after the lines [seen]: since the start of
    the input, or since an [Examples:] line, no table row with a cell was
    read. *)
Definition no_header_after (seen : list string) : Prop :=
  exists before since,
    seen = before ++ since /\
    (before = [] \/
     exists b ex, before = b ++ [ex] /\ startsWith ex "Examples:" = true) /\
    Forall (fun l => startsWith l "|" = true -> parseTableRow l = []) since.

(** [row] is a row of a table of the lines [seen], zipped with the header
    row of that table: the header row is the first table row with a cell
    since the start of the input or since an [Examples:] line, and the data
    row comes after it, no [Examples:] line lying between the two. *)
Definition row_of_table (seen : list string) (row : obj string) : Prop :=
  exists before header_line between cells_line after,
    seen = before ++ header_line :: between ++ cells_line :: after /\
    no_header_after before /\
    startsWith header_line "|" = true /\ parseTableRow header_line <> [] /\
    Forall (fun l => startsWith l "Examples:" = false) between /\
    startsWith cells_line "|" = true /\
    row = make_row (parseTableRow header_line) (parseTableRow cells_line).

(** The header row [h] is the one in force after the lines [seen]. *)
Definition header_in_force (seen : list string) (h : list string) : Prop :=
  (h = [] /\ no_header_after seen) \/
  exists before header_line between,
    seen = before ++ header_line :: between /\
    no_header_after before /\
    startsWith header_line "|" = true /\ parseTableRow header_line <> [] /\
    Forall (fun l => startsWith l "Examples:" = false) between /\
    h = parseTableRow header_line.

(** After the lines [seen], none of them in a doc string: the buffer holds
    the header row in force, and every example row is a row of a table,
    zipped with the header row of that table. *)
Record table_inv (seen : list string) (c : Context) : Prop := mk_table_inv {
  inv_buffer : header_in_force seen (headers c);
  inv_table_rows :
    forall e row, e ∈ scenarios (feature c) -> row ∈ entity_examples e ->
                  row_of_table seen row
}.

(** The claim as the specification words it: the keys of every example row
    are the header row, in its order. *)
Definition table_zip_as_stated : Prop :=
  forall (raw : list string) (f : FeatureModel (list string))
         (o : ScenarioOutlineModel (list string)) (row : obj string),
    parseLines raw = Ok f -> Outline o ∈ scenarios f -> row ∈ so_examples o ->
    exists header_line,
      header_line ∈ map trim raw /\ startsWith header_line "|" = true /\
      keys row = parseTableRow header_line.

Definition numbered_column : list string :=
  ["Scenario Outline: o"; "Examples:"; "| name | 1 |"; "| bob | x |"].

Definition numbered_column_row : obj string := [("1", "x"); ("name", "bob")].

Definition numbered_column_outline : ScenarioOutlineModel (list string) :=
  {| so_name := "o"; so_steps := [];
     so_examples := [numbered_column_row]; so_tags := [] |}.

(** A text between double quotes. *)
Definition quoted (s : string) : string :=
  String dquote (s +:+ String dquote EmptyString).

(** The double-quoted substrings of a step in the words of the
    specification, where a double quote always delimits: the text from a
    quote to the next quote, then the same again after that closing quote.
    [skip] counts the characters of the last substring and of its closing
    quote that are still to be passed over. *)
Fixpoint quoted_substrings_from (skip : nat) (s : string) : list string :=
  match s with
  | EmptyString => []
  | String c s' =>
      match skip with
      | S k => quoted_substrings_from k s'
      | O =>
          if Ascii.eqb c dquote then
            let (body, after) := span not_dquote s' in
            match after with
            | String _ _ =>
                body :: quoted_substrings_from (S (String.length body)) s'
            | EmptyString => []
            end
          else quoted_substrings_from 0 s'
      end
  end.

Definition spec_quoted_substrings (step : string) : list string :=
  quoted_substrings_from 0 step.

(** The claim as the specification words it: every double-quoted
    substring, an empty one included, is the value of its key. *)
Definition quoted_capture_as_stated : Prop :=
  forall (step : string) (n : nat) (body : string),
    spec_quoted_substrings step !! n = Some body ->
    get ("key" +:+ of_nat (n + 1)) (extractVariablesFromStep step)
    = Some (VString body).

(** The lines every output starts with. *)
Definition preamble (f : FeatureModel (list string)) : list string :=
  [ "const { mocha } = require('mocha');";
    "const { expect } = require('chai');";
    "";
    "describe('Feature: " +:+ name f +:+ "', function () {" ].

(** The test cases of the scenarios, one after the other. *)
Definition scenario_cases (NumberToString : Q -> string)
    (scs : list (Entity (list string))) : list string :=
  concat (map (emit_scenario NumberToString []) scs).

Definition newline : string := String (ascii_of_nat 10) EmptyString.

(** The quoted pattern unfolded.  A match at the start of [s]: a quote,
    the longest run of other characters, which must not be empty, and a
    quote.  A shorter run is followed by a character that is no quote, so
    backtracking finds nothing more. *)
Definition match_quoted_at (s : string) : option string :=
  match s with
  | EmptyString => None
  | String c rest =>
      if Ascii.eqb c dquote then
        let (body, after) := span not_dquote rest in
        match body, after with
        | String _ _, String _ _ =>
            Some (String dquote (body +:+ String dquote EmptyString))
        | _, _ => None
        end
      else None
  end.

(** The matches of the unfolded quoted pattern, leftmost first: [skip]
    counts the characters of the last match still to be passed over. *)
Fixpoint scan_quoted (skip : nat) (s : string) : list string :=
  match s with
  | EmptyString => []
  | String _ s' =>
      match skip with
      | S k => scan_quoted k s'
      | O =>
          match match_quoted_at s with
          | Some m => m :: scan_quoted (String.length m - 1) s'
          | None => scan_quoted 0 s'
          end
      end
  end.

Fixpoint last_char (dflt : option ascii) (s : string) : option ascii :=
  match s with
  | EmptyString => dflt
  | String c s' => last_char (Some c) s'
  end.

(** The number pattern unfolded.  A match at the start of [s], the
    character before it being [before].  Both runs of digits are taken
    whole: after a shorter run comes a digit, where neither [\.] nor [\b]
    holds.  The optional group is tried first and given up when the final
    [\b] fails after it. *)
Definition match_number_at (before : option ascii) (s : string) : option string :=
  if boundary before (first_char s) then
    let (int, rest) := span is_digit s in
    match int with
    | EmptyString => None
    | String _ _ =>
        let with_group :=
          match rest with
          | String a rest' =>
              if Ascii.eqb a "." then
                let (frac, after) := span is_digit rest' in
                match frac with
                | String _ _ =>
                    if boundary (last_char None frac) (first_char after)
                    then Some (int +:+ String "." frac)
                    else None
                | EmptyString => None
                end
              else None
          | EmptyString => None
          end in
        match with_group with
        | Some m => Some m
        | None =>
            if boundary (last_char None int) (first_char rest) then Some int
            else None
        end
    end
  else None.

Fixpoint scan_number (skip : nat) (before : option ascii) (s : string)
    : list string :=
  match s with
  | EmptyString => []
  | String c s' =>
      match skip with
      | S k => scan_number k (Some c) s'
      | O =>
          match match_number_at before s with
          | Some m => m :: scan_number (String.length m - 1) (Some c) s'
          | None => scan_number 0 (Some c) s'
          end
      end
  end.

(** [Plus (Class p)] as a recursion on the string: the longest run first,
    then one character less each time the continuation fails. *)
Fixpoint plus_class (p : ascii -> bool) (s : string)
    (k : option ascii -> string -> option string) : option string :=
  match s with
  | EmptyString => None
  | String c s' =>
      if p c then
        match plus_class p s' k with
        | Some rest => Some rest
        | None => k (Some c) s'
        end
      else None
  end.

(** The feature of the end-to-end scenario of the specification. *)
Definition user_login : list string :=
  [ "Feature: User Login";
    "Background:";
    "  Given the login page is open";
    "@smoke";
    "Scenario: Successful Login";
    "  Given a user with username " +:+ quoted "john_doe" +:+ " and password "
      +:+ quoted "secret123";
    "  When the user submits the login form";
    "  Then the user is redirected to the dashboard" ].

Definition user_login_feature : FeatureModel (list string) :=
  {| name := "User Login";
     description := [];
     background := Some {| bg_steps := ["Given the login page is open"] |};
     scenarios :=
       [Scenario
          {| sc_name := "Successful Login";
             sc_steps :=
               [ "Given a user with username " +:+ quoted "john_doe"
                   +:+ " and password " +:+ quoted "secret123";
                 "When the user submits the login form";
                 "Then the user is redirected to the dashboard" ];
             sc_tags := ["@smoke"] |}] |}.

(** * Vocabulary of the further properties *)

(** Some character of [s] satisfies [p]. *)
Fixpoint has_char (p : ascii -> bool) (s : string) : bool :=
  match s with
  | EmptyString => false
  | String c s' => (p c || has_char p s')%bool
  end.

Definition is_pipe (c : ascii) : bool := Ascii.eqb c "|".

Definition is_newline (c : ascii) : bool := Ascii.eqb c (ascii_of_nat 10).

(** A table row as feature files write it: a pipe, then every cell between
    two spaces and followed by a pipe. *)
Fixpoint render_cells (cells : list string) : string :=
  match cells with
  | [] => EmptyString
  | cell :: rest => " " +:+ cell +:+ " |" +:+ render_cells rest
  end.

Definition render_row (cells : list string) : string :=
  "|" +:+ render_cells cells.

(** No line of the input opens or closes a doc string. *)
Definition fence_free (lines : list string) : Prop :=
  Forall (fun l => startsWith l fence = false) lines.

(** What the loop body takes a line for, outside a doc string and when the
    line is no fence: the tests of the loop body in their order. *)
Inductive line_kind : Type :=
| KTag | KFeature | KBackground | KOutline | KScenario | KExamples | KRule
| KTable | KStep | KText | KBlank.

Definition classify (line : string) : line_kind :=
  if startsWith line "@" then KTag
  else if startsWith line "Feature:" then KFeature
  else if startsWith line "Background:" then KBackground
  else if startsWith line "Scenario Outline:" then KOutline
  else if startsWith line "Scenario:" then KScenario
  else if startsWith line "Examples:" then KExamples
  else if startsWith line "Rule:" then KRule
  else if startsWith line "|" then KTable
  else if isStepLine line then KStep
  else if truthy line then KText
  else KBlank.

(** The name and the class that a line declares, when it declares a
    scenario or an outline. *)
Definition declared_entity (line : string) : option (string * bool) :=
  if startsWith line "Scenario Outline:" then Some (trim (slice 17 line), true)
  else if startsWith line "Scenario:" then Some (trim (slice 9 line), false)
  else None.

Definition entity_head {S} (e : Entity S) : string * bool :=
  (entity_name e, is_outline e).

(** The name that the [Feature:] lines leave: the one of the last. *)
Definition declared_name (lines : list string) : string :=
  fold_left
    (fun acc line => if startsWith line "Feature:" then trim (slice 8 line) else acc)
    lines "".

(** The lines after which the mode is no longer [none]. *)
Definition changes_mode (line : string) : bool :=
  (opens_collector line || startsWith line "Rule:")%bool.

(** The lines that the loop takes for free text. *)
Definition is_text (line : string) : bool :=
  match classify line with KText => true | _ => false end.

(** The entry of the description that a [Rule:] line leaves. *)
Definition rule_entry (line : string) : string :=
  "Rule: " +:+ trim (slice 5 line).

(** Every step of the feature: the steps of the background, then those of
    the scenarios. *)
Definition all_steps (f : FeatureModel (list string)) : list string :=
  match background f with Some bg => bg_steps bg | None => [] end
  ++ concat (map entity_steps (scenarios f)).

(** An entity of a longer parse that continues an entity of a shorter one:
    the same name, class and tags, and the steps and example rows of the
    shorter parse at the head of its own. *)
Definition extends_entity (e e' : Entity (list string)) : Prop :=
  entity_head e' = entity_head e /\ entity_tags e' = entity_tags e /\
  entity_steps e `prefix_of` entity_steps e' /\
  entity_examples e `prefix_of` entity_examples e'.

Definition is_dquote (c : ascii) : bool := Ascii.eqb c dquote.

(** The properties [prefix1], [prefix2], ... that hold the values of a
    list of matches, from [index] on. *)
Fixpoint numbered (prefix : string) (val : string -> value) (index : nat)
    (l : list string) : obj value :=
  match l with
  | [] => []
  | x :: l' => (prefix +:+ of_nat (index + 1), val x) :: numbered prefix val (S index) l'
  end.

(** The first line of a test case. *)
Definition title_line (title : string) : string :=
  "  it('" +:+ title +:+ "', async () => {".

Definition is_title_line (line : string) : bool := startsWith line "  it('".

Definition scenario_title (e : Entity (list string)) : string :=
  if is_outline e then "Scenario Outline: " +:+ entity_name e else entity_name e.

(** The title of the test case of the background, when there is one. *)
Definition background_title (f : FeatureModel (list string)) : list string :=
  match background f with
  | Some bg =>
      if Nat.ltb 0 (length (bg_steps bg))
      then ["Background: " +:+ first_step (bg_steps bg)]
      else []
  | None => []
  end.

(** The title of the test case of a declared scenario or outline. *)
Definition declared_title (h : string * bool) : string :=
  if h.2 then "Scenario Outline: " +:+ h.1 else h.1.

(** The lines outside the doc strings: the input without its fences and
    without what lies between an opening fence and the next fence.
    [inside] tells whether a doc string is open. *)
Fixpoint outside_doc_strings (inside : bool) (raw : list string) : list string :=
  match raw with
  | [] => []
  | r :: rest =>
      if startsWith (trim r) fence then outside_doc_strings (negb inside) rest
      else if inside then outside_doc_strings inside rest
      else r :: outside_doc_strings inside rest
  end.

(** Two features that differ in their steps at most. *)
Definition same_outline (f f' : FeatureModel (list string)) : Prop :=
  name f = name f' /\ description f = description f' /\
  map entity_head (scenarios f) = map entity_head (scenarios f') /\
  map entity_tags (scenarios f) = map entity_tags (scenarios f') /\
  map entity_examples (scenarios f) = map entity_examples (scenarios f').

(** Two contexts that differ in the contents of the [steps] arrays and in
    the doc-string flag at most. *)
Definition same_but_store (c1 c2 : Context) : Prop :=
  feature c1 = feature c2 /\ currentScenario c1 = currentScenario c2 /\
  currentStepCollector c1 = currentStepCollector c2 /\ mode c1 = mode c2 /\
  headers c1 = headers c2 /\ pendingTags c1 = pendingTags c2 /\
  length (store c1) = length (store c2).

(** * Properties *)

(** ** The model on the examples of the specification *)

Example parse_user_login : parseLines user_login = Ok user_login_feature.
Proof. vm_compute. reflexivity. Qed.

Example generate_user_login (NumberToString : Q -> string) :
  generate_lines NumberToString user_login_feature =
    [ "const { mocha } = require('mocha');";
      "const { expect } = require('chai');";
      "";
      "describe('Feature: User Login', function () {";
      "  it('Background: Given the login page is open', async () => {";
      "    // Given the login page is open";
      "";
      "    const data = {};";
      "  });";
      "";
      "  it('Successful Login', async () => {";
      "    // Given a user with username " +:+ quoted "john_doe"
        +:+ " and password " +:+ quoted "secret123";
      "    // When the user submits the login form";
      "    // Then the user is redirected to the dashboard";
      "";
      "    const data = {" +:+ newline
        +:+ "      " +:+ quoted "key1" +:+ ": " +:+ quoted "john_doe" +:+ ","
        +:+ newline
        +:+ "      " +:+ quoted "key2" +:+ ": " +:+ quoted "secret123"
        +:+ newline +:+ "};";
      "  });";
      "";
      "});" ].
Proof. vm_compute. reflexivity. Qed.

Example parse_outline_table :
  parseFeature
    ("Feature: a" +:+ newline +:+ "  Scenario Outline: b  " +:+ newline
     +:+ "Examples:" +:+ newline +:+ " | username | password | " +:+ newline
     +:+ "| john | wrong |" +:+ newline +:+ "| jane |" +:+ newline)
  = Ok {| name := "a"; description := []; background := None;
          scenarios :=
            [Outline
               {| so_name := "b"; so_steps := [];
                  so_examples :=
                    [ [("username", "john"); ("password", "wrong")];
                      [("username", "jane"); ("password", "")] ];
                  so_tags := [] |}] |}.
Proof. vm_compute. reflexivity. Qed.

Example split_on_white_space :
  split_ws " a  b " = [""; "a"; "b"; ""] /\ split_ws "@a" = ["@a"] /\
  ws_tokens " a  b " = ["a"; "b"].
Proof. repeat split. Qed.

Example quoted_matches :
  scan quoted_pattern 0 None
       ("say " +:+ quoted "a" +:+ quoted "" +:+ " b " +:+ quoted "c d" +:+ " "
        +:+ String dquote "open")
  = [quoted "a"; quoted " b "; quoted " "].
Proof. vm_compute. reflexivity. Qed.

Example numerals :
  scan number_pattern 0 None "a 3.5x 12. .5 1.2.3 a1 1_ 7-8 0.10 00"
  = ["3"; "12"; "5"; "1.2"; "3"; "7"; "8"; "0.10"; "00"] /\
  Number "9007199254740993" = Finite (9007199254740992 # 1) /\
  Number "0.1" = Finite (3602879701896397 # 36028797018963968).
Proof. repeat split; vm_compute; reflexivity. Qed.

(** ** Dispatch of one line *)

Section Dispatch.

Lemma startsWith_cons_inv (line : string) (c : ascii) :
  startsWith line (String c EmptyString) = true ->
  exists rest, line = String c rest.
Proof.
  unfold startsWith. destruct line as [|a rest]; simpl; [discriminate|].
  destruct (ascii_dec c a) as [->|]; [eauto | discriminate].
Qed.

(** The loop body as one chain of tests, the handler table unrolled. *)
Lemma process_line_unrolled (ctx : Context) (line : string) :
  process_line ctx line =
    if startsWith line fence then
      push_collector line (set_inDocString (negb (inDocString ctx)) ctx)
    else if inDocString ctx then push_collector line ctx
    else if startsWith line "@" then
      Ok (set_pendingTags (map trim (split_ws line)) ctx)
    else if startsWith line "Feature:" then Ok (on_Feature line ctx)
    else if startsWith line "Background:" then Ok (on_Background line ctx)
    else if startsWith line "Scenario Outline:" then Ok (on_ScenarioOutline line ctx)
    else if startsWith line "Scenario:" then Ok (on_Scenario line ctx)
    else if startsWith line "Examples:" then Ok (on_Examples line ctx)
    else if startsWith line "Rule:" then Ok (on_Rule line ctx)
    else if startsWith line "|" then on_table_row line ctx
    else if isStepLine line then push_collector line ctx
    else if (truthy line && mode_is_none (mode ctx))%bool then
      Ok (set_feature
            (set_description (description (feature ctx) ++ [line]) (feature ctx))
            ctx)
    else Ok ctx.
Proof.
  unfold process_line.
  destruct (startsWith line fence); [reflexivity|].
  destruct (inDocString ctx); [reflexivity|].
  destruct (startsWith line "@"); [reflexivity|].
  cbn [handlers map fst List.find].
  destruct (startsWith line "Feature:"); [reflexivity|].
  destruct (startsWith line "Background:"); [reflexivity|].
  destruct (startsWith line "Scenario Outline:"); [reflexivity|].
  destruct (startsWith line "Scenario:"); [reflexivity|].
  destruct (startsWith line "Examples:"); [reflexivity|].
  destruct (startsWith line "Rule:"); reflexivity.
Qed.

End Dispatch.

(** ** The context stays well formed *)

Section WellFormed.

Lemma wf_initial : wf initial.
Proof.
  split; simpl; try lia; try discriminate. constructor.
Qed.

Lemma push_collector_ok (line : string) (c : Context) :
  currentStepCollector c < length (store c) ->
  exists steps,
    store c !! currentStepCollector c = Some steps /\
    push_collector line c =
      Ok (set_store (<[currentStepCollector c := steps ++ [line]]> (store c)) c).
Proof.
  intros H. unfold push_collector. cbv zeta.
  destruct (lookup_lt_is_Some_2 _ _ H) as [steps Hs].
  exists steps. rewrite Hs. auto.
Qed.

Lemma wf_set_store_insert (c : Context) (a : addr) (steps : list string) :
  wf c -> wf (set_store (<[a := steps]> (store c)) c).
Proof.
  intros [H1 H2 H3 H4]. split; simpl; rewrite ?length_insert; auto.
Qed.

Lemma wf_set_inDocString (c : Context) (b : bool) :
  wf c -> wf (set_inDocString b c).
Proof. intros [H1 H2 H3 H4]. split; simpl; auto. Qed.

Lemma wf_push_collector (line : string) (c c' : Context) :
  wf c -> push_collector line c = Ok c' -> wf c'.
Proof.
  intros Hwf H.
  destruct (push_collector_ok line c (wf_collector c Hwf)) as (steps & _ & E).
  rewrite E in H. injection H as <-. now apply wf_set_store_insert.
Qed.

Lemma Forall_steps_weaken (n m : nat) (l : list (Entity addr)) :
  n <= m ->
  Forall (fun e => 0 < entity_steps e /\ entity_steps e < n) l ->
  Forall (fun e => 0 < entity_steps e /\ entity_steps e < m) l.
Proof.
  intros Hle H. eapply Forall_impl; [exact H|]. intros e [? ?]. split; lia.
Qed.

Lemma store_nonempty (c : Context) : wf c -> 0 < length (store c).
Proof. intros H. pose proof (wf_collector c H). lia. Qed.

Lemma wf_on_Background (line : string) (c : Context) :
  wf c -> wf (on_Background line c).
Proof.
  intros H. pose proof (store_nonempty c H) as Hn. destruct H as [H1 H2 H3 H4].
  split; simpl; rewrite ?length_app; simpl.
  - lia.
  - auto.
  - intros bg [= <-]. simpl. lia.
  - eapply Forall_steps_weaken; [|exact H4]. lia.
Qed.

Lemma wf_on_Scenario (line : string) (c : Context) :
  wf c -> wf (on_Scenario line c).
Proof.
  intros H. pose proof (store_nonempty c H) as Hn. destruct H as [H1 H2 H3 H4].
  split; simpl; rewrite ?length_app; simpl.
  - lia.
  - intros i [= <-]. lia.
  - intros bg Hbg. destruct (H3 bg Hbg). lia.
  - apply Forall_app. split.
    + eapply Forall_steps_weaken; [|exact H4]. lia.
    + constructor; [simpl; lia | constructor].
Qed.

Lemma wf_on_ScenarioOutline (line : string) (c : Context) :
  wf c -> wf (on_ScenarioOutline line c).
Proof.
  intros H. pose proof (store_nonempty c H) as Hn. destruct H as [H1 H2 H3 H4].
  split; simpl; rewrite ?length_app; simpl.
  - lia.
  - intros i [= <-]. lia.
  - intros bg Hbg. destruct (H3 bg Hbg). lia.
  - apply Forall_app. split.
    + eapply Forall_steps_weaken; [|exact H4]. lia.
    + constructor; [simpl; lia | constructor].
Qed.

Lemma wf_push_example (c : Context) (i : nat) (o : ScenarioOutlineModel addr)
    (row : obj string) :
  wf c -> scenarios (feature c) !! i = Some (Outline o) ->
  wf (push_example i o row c).
Proof.
  intros [H1 H2 H3 H4] Hi. split; simpl; rewrite ?length_insert; auto.
  apply Forall_insert; [exact H4|].
  rewrite Forall_lookup in H4. apply (H4 _ _ Hi).
Qed.

Lemma on_table_row_ok (line : string) (c : Context) :
  wf c -> exists c', on_table_row line c = Ok c' /\ wf c'.
Proof.
  intros Hwf. unfold on_table_row.
  destruct (Nat.eqb (length (headers c)) 0).
  - eexists. split; [reflexivity|]. destruct Hwf. split; simpl; auto.
  - destruct (currentScenario c) as [i|] eqn:Hcur; [|eauto].
    pose proof (wf_current c Hwf i Hcur) as Hlt.
    destruct (lookup_lt_is_Some_2 _ _ Hlt) as [e He]. rewrite He.
    destruct e as [s|o]; [eauto|].
    eexists. split; [reflexivity|]. now apply wf_push_example.
Qed.

(** One line never raises, and leaves a well-formed context. *)
Lemma process_line_ok (c : Context) (line : string) :
  wf c -> exists c', process_line c line = Ok c' /\ wf c'.
Proof.
  intros Hwf. rewrite process_line_unrolled.
  destruct (startsWith line fence).
  { destruct (push_collector_ok line (set_inDocString (negb (inDocString c)) c))
      as (steps & _ & E); [apply (wf_collector c Hwf)|].
    rewrite E. eexists. split; [reflexivity|].
    apply wf_set_store_insert, wf_set_inDocString, Hwf. }
  assert (Hpush : exists c', push_collector line c = Ok c' /\ wf c').
  { destruct (push_collector_ok line c (wf_collector c Hwf)) as (steps & _ & E).
    rewrite E. eexists. split; [reflexivity|]. now apply wf_set_store_insert. }
  destruct (inDocString c); [exact Hpush|].
  destruct (startsWith line "@").
  { eexists. split; [reflexivity|]. destruct Hwf. split; simpl; auto. }
  destruct (startsWith line "Feature:").
  { eexists. split; [reflexivity|]. destruct Hwf. split; simpl; auto. }
  destruct (startsWith line "Background:").
  { eexists. split; [reflexivity|]. now apply wf_on_Background. }
  destruct (startsWith line "Scenario Outline:").
  { eexists. split; [reflexivity|]. now apply wf_on_ScenarioOutline. }
  destruct (startsWith line "Scenario:").
  { eexists. split; [reflexivity|]. now apply wf_on_Scenario. }
  destruct (startsWith line "Examples:").
  { eexists. split; [reflexivity|]. destruct Hwf. split; simpl; auto. }
  destruct (startsWith line "Rule:").
  { eexists. split; [reflexivity|]. destruct Hwf. split; simpl; auto. }
  destruct (startsWith line "|"); [now apply on_table_row_ok|].
  destruct (isStepLine line); [exact Hpush|].
  destruct (truthy line && mode_is_none (mode c))%bool.
  - eexists. split; [reflexivity|]. destruct Hwf. split; simpl; auto.
  - eauto.
Qed.

Lemma run_ok (lines : list string) (c : Context) :
  wf c -> exists c', run c lines = Ok c' /\ wf c'.
Proof.
  revert c. induction lines as [|line rest IH]; intros c Hwf; simpl.
  - eauto.
  - destruct (process_line_ok c line Hwf) as (c1 & E & Hwf1).
    rewrite E. simpl. now apply IH.
Qed.

Lemma run_app (l1 l2 : list string) (c : Context) :
  run c (l1 ++ l2) = (c' <- run c l1 ;; run c' l2).
Proof.
  revert c. induction l1 as [|x l1 IH]; intros c; simpl; [reflexivity|].
  destruct (process_line c x); simpl; auto.
Qed.

Lemma reachable_wf (c : Context) : reachable c -> wf c.
Proof.
  intros [lines H]. destruct (run_ok lines initial wf_initial) as (c' & E & Hwf).
  rewrite E in H. now injection H as <-.
Qed.

Lemma mapM_read_entity_ok (st : list (list string)) (l : list (Entity addr)) :
  Forall (fun e => 0 < entity_steps e /\ entity_steps e < length st) l ->
  exists l', mapM (read_entity st) l = Ok l'.
Proof.
  induction 1 as [|e l [_ He] _ [l' IH]]; [simpl; eauto|].
  destruct (lookup_lt_is_Some_2 _ _ He) as [steps Hs].
  cbn [mapM]. rewrite IH.
  unfold read_entity, read_steps.
  destruct e as [s|o]; simpl in Hs; rewrite Hs; simpl; eauto.
Qed.

Lemma read_feature_ok (c : Context) : wf c -> exists f, read_feature c = Ok f.
Proof.
  intros Hwf. unfold read_feature.
  destruct (mapM_read_entity_ok _ _ (wf_scenarios c Hwf)) as [scs Hscs].
  destruct (background (feature c)) as [bg|] eqn:Hbg; simpl.
  - destruct (wf_background c Hwf bg Hbg) as [_ Hlt].
    destruct (lookup_lt_is_Some_2 _ _ Hlt) as [steps Hs].
    unfold read_steps. rewrite Hs. simpl. rewrite Hscs. simpl. eauto.
  - rewrite Hscs. simpl. eauto.
Qed.

End WellFormed.

(** ** What each kind of line does *)

Section LineKinds.

Lemma startsWith_app (line p : string) :
  startsWith line p = true -> exists rest, line = p +:+ rest.
Proof.
  unfold startsWith. revert line.
  induction p as [|a p IH]; intros line H; simpl in *.
  - now exists line.
  - destruct line as [|b line]; [discriminate|].
    cbn [String.prefix] in H.
    destruct (ascii_dec a b) as [->|]; [|discriminate].
    destruct (IH line H) as [rest ->]. now exists rest.
Qed.

(** Decides the tests [startsWith] whose outcome the known first
    characters of the line settle. *)
Ltac eval_starts :=
  repeat match goal with
    | |- context [startsWith ?l ?p] =>
        let b := eval cbv in (startsWith l p) in
        match b with
        | true => change (startsWith l p) with true
        | false => change (startsWith l p) with false
        end
    end;
  cbv iota.

Lemma process_fence (ctx : Context) (line : string) :
  startsWith line fence = true ->
  process_line ctx line =
    push_collector line (set_inDocString (negb (inDocString ctx)) ctx).
Proof. intros H. rewrite process_line_unrolled, H. reflexivity. Qed.

Lemma process_in_doc (ctx : Context) (line : string) :
  startsWith line fence = false -> inDocString ctx = true ->
  process_line ctx line = push_collector line ctx.
Proof. intros H1 H2. rewrite process_line_unrolled, H1, H2. reflexivity. Qed.

Lemma process_tag (ctx : Context) (line : string) :
  inDocString ctx = false -> startsWith line "@" = true ->
  process_line ctx line = Ok (set_pendingTags (map trim (split_ws line)) ctx).
Proof.
  intros Hdoc H. destruct (startsWith_app _ _ H) as [rest ->].
  rewrite process_line_unrolled, Hdoc, H. eval_starts. reflexivity.
Qed.

Lemma process_Scenario (ctx : Context) (line : string) :
  inDocString ctx = false -> startsWith line "Scenario:" = true ->
  process_line ctx line = Ok (on_Scenario line ctx).
Proof.
  intros Hdoc H. destruct (startsWith_app _ _ H) as [rest ->].
  rewrite process_line_unrolled, Hdoc, H. eval_starts. reflexivity.
Qed.

Lemma process_ScenarioOutline (ctx : Context) (line : string) :
  inDocString ctx = false -> startsWith line "Scenario Outline:" = true ->
  process_line ctx line = Ok (on_ScenarioOutline line ctx).
Proof.
  intros Hdoc H. destruct (startsWith_app _ _ H) as [rest ->].
  rewrite process_line_unrolled, Hdoc, H. eval_starts. reflexivity.
Qed.

Lemma process_table_row (ctx : Context) (line : string) :
  inDocString ctx = false -> startsWith line "|" = true ->
  process_line ctx line = on_table_row line ctx.
Proof.
  intros Hdoc H. destruct (startsWith_app _ _ H) as [rest ->].
  rewrite process_line_unrolled, Hdoc, H. eval_starts. reflexivity.
Qed.

Lemma isStepLine_inv (line : string) :
  isStepLine line = true ->
  exists kw rest, In kw STEP_KEYWORDS /\ line = kw +:+ rest.
Proof.
  unfold isStepLine. rewrite existsb_exists. intros (kw & Hin & H).
  destruct (startsWith_app _ _ H) as [rest ->]. eauto.
Qed.

(** A step line is pushed on the collector, inside a doc string or not. *)
Lemma process_step (ctx : Context) (line : string) :
  isStepLine line = true ->
  process_line ctx line = push_collector line ctx.
Proof.
  intros H. rewrite process_line_unrolled, H.
  destruct (isStepLine_inv _ H) as (kw & rest & Hin & ->).
  simpl in Hin.
  destruct Hin as [<-|[<-|[<-|[<-|[<-|[]]]]]];
    eval_starts; destruct (inDocString ctx); reflexivity.
Qed.

Lemma set_inDocString_self (ctx : Context) :
  set_inDocString (inDocString ctx) ctx = ctx.
Proof. destruct ctx; reflexivity. Qed.

End LineKinds.

(** ** C9: the parse never raises *)

Section NeverRaises.

Lemma parseLines_total (raw : list string) : exists f, parseLines raw = Ok f.
Proof.
  unfold parseLines.
  destruct (run_ok (map trim raw) initial wf_initial) as (c & E & Hwf).
  rewrite E. simpl. now apply read_feature_ok.
Qed.

(** Lines inside a doc string that is never closed are all collected. *)
Lemma run_in_doc (lines : list string) (ctx : Context) (steps : list string) :
  inDocString ctx = true ->
  Forall (fun l => startsWith l fence = false) lines ->
  store ctx !! currentStepCollector ctx = Some steps ->
  run ctx lines =
    Ok (set_store (<[currentStepCollector ctx := steps ++ lines]> (store ctx)) ctx).
Proof.
  revert ctx steps.
  induction lines as [|l lines IH]; intros ctx steps Hdoc Hall Hs.
  - simpl. rewrite app_nil_r, list_insert_id by exact Hs.
    destruct ctx; reflexivity.
  - inversion Hall as [|? ? Hl Hrest]; subst. cbn [run].
    rewrite process_in_doc by assumption.
    unfold push_collector. cbv zeta. rewrite Hs. cbn [bind].
    rewrite (IH _ (steps ++ [l])); [| exact Hdoc | exact Hrest |].
    + unfold set_store; simpl.
      rewrite list_insert_insert_eq, <- app_assoc. reflexivity.
    + simpl. apply list_lookup_insert_eq. now apply lookup_lt_Some in Hs.
Qed.

End NeverRaises.

(** ** White-space separated tokens *)

Section Tokens.

Lemma trimEnd_length (s : string) : String.length (trimEnd s) <= String.length s.
Proof.
  induction s as [|c s IH]; simpl; [lia|].
  destruct (trimEnd s); [destruct (is_space c)|]; simpl in *; lia.
Qed.

Lemma trimStart_length (s : string) : String.length (trimStart s) <= String.length s.
Proof.
  induction s as [|c s IH]; simpl; [lia|].
  destruct (is_space c); simpl; lia.
Qed.

Lemma trimEnd_fixed (s : string) : trimEnd s = s -> ends_with_space s = false.
Proof.
  induction s as [|c s IH]; [reflexivity|]. cbn [trimEnd].
  destruct (trimEnd s) as [|d t] eqn:E.
  - destruct (is_space c) eqn:Hc; [discriminate|].
    intros [= <-]. simpl. exact Hc.
  - intros [= <-]. specialize (IH eq_refl). simpl. exact IH.
Qed.

Lemma trim_fixed (s : string) :
  trim s = s -> starts_with_space s = false /\ ends_with_space s = false.
Proof.
  unfold trim. intros H.
  assert (Hstart : starts_with_space s = false).
  { destruct s as [|c s]; [reflexivity|]. simpl.
    destruct (is_space c) eqn:Hc; [|reflexivity]. exfalso.
    pose proof (trimEnd_length (trimStart (String c s))) as H1.
    rewrite H in H1. simpl in H1. rewrite Hc in H1.
    pose proof (trimStart_length s). lia. }
  split; [exact Hstart|]. apply trimEnd_fixed.
  assert (E : trimStart s = s).
  { destruct s as [|c s]; [reflexivity|].
    cbn [starts_with_space] in Hstart. cbn [trimStart]. now rewrite Hstart. }
  now rewrite E in H.
Qed.

Lemma trimEnd_no_space (s : string) : no_space s = true -> trimEnd s = s.
Proof.
  induction s as [|c s IH]; [reflexivity|]. simpl.
  destruct (is_space c); [discriminate|]. simpl. intros H.
  rewrite (IH H). now destruct s.
Qed.

Lemma trim_no_space (s : string) : no_space s = true -> trim s = s.
Proof.
  intros H. unfold trim.
  replace (trimStart s) with s; [now apply trimEnd_no_space|].
  destruct s as [|c s]; [reflexivity|]. simpl in *. now destruct (is_space c).
Qed.

Lemma ws_tokens_no_space (s : string) :
  Forall (fun t => no_space t = true) (ws_tokens s).
Proof.
  induction s as [|c s IH]; simpl; [constructor|].
  destruct (is_space c) eqn:Hc; [exact IH|].
  destruct (starts_with_space s).
  - constructor; [simpl; now rewrite Hc | exact IH].
  - destruct (ws_tokens s) as [|t ts].
    + constructor; [simpl; now rewrite Hc | constructor].
    + inversion IH; subst. constructor; [simpl; rewrite Hc; auto | auto].
Qed.

(** On a string that does not end with white space, the fields of the
    split are the tokens, after one empty field when the string starts
    with white space. *)
Lemma split_ws_fields_tokens (s : string) :
  s <> EmptyString -> ends_with_space s = false ->
  let (x, xs) := split_ws_fields s in
  if starts_with_space s then x = EmptyString /\ xs = ws_tokens s
  else x :: xs = ws_tokens s.
Proof.
  induction s as [|c s IH]; [congruence|]. intros _ Hend.
  destruct s as [|d s'].
  - simpl in *. rewrite Hend. reflexivity.
  - assert (Hne : String d s' <> EmptyString) by discriminate.
    specialize (IH Hne Hend). remember (String d s') as s eqn:Es.
    cbn [split_ws_fields ws_tokens].
    destruct (split_ws_fields s) as [x xs].
    cbn [starts_with_space].
    destruct (is_space c) eqn:Hc.
    + destruct (starts_with_space s); [exact IH | split; [reflexivity | exact IH]].
    + destruct (starts_with_space s).
      * destruct IH as [-> ->]. reflexivity.
      * rewrite <- IH. reflexivity.
Qed.

(** What the tag branch stores, on a line as the parser sees it. *)
Lemma split_ws_trimmed (line : string) :
  line <> EmptyString -> trim line = line ->
  map trim (split_ws line) = ws_tokens line.
Proof.
  intros Hne Htrim. destruct (trim_fixed _ Htrim) as [Hs He].
  pose proof (split_ws_fields_tokens line Hne He) as H.
  unfold split_ws. destruct (split_ws_fields line) as [x xs].
  rewrite Hs in H. rewrite H.
  pose proof (ws_tokens_no_space line) as Hall.
  clear H. induction Hall as [|t ts Ht _ IH]; [reflexivity|].
  cbn [map]. rewrite IH, (trim_no_space t Ht). reflexivity.
Qed.

Lemma trimEnd_idem (s : string) : trimEnd (trimEnd s) = trimEnd s.
Proof.
  induction s as [|c s IH]; [reflexivity|]. cbn [trimEnd].
  destruct (trimEnd s) as [|d t] eqn:E.
  - destruct (is_space c) eqn:Hc; [reflexivity|]. simpl. now rewrite Hc.
  - cbn [trimEnd]. cbn [trimEnd] in IH. rewrite IH. reflexivity.
Qed.

Lemma trimEnd_head (c : ascii) (s : string) :
  is_space c = false -> exists t, trimEnd (String c s) = String c t.
Proof.
  intros Hc. cbn [trimEnd]. destruct (trimEnd s); [rewrite Hc|]; eauto.
Qed.

(** Every line the loop sees is trimmed. *)
Lemma trim_idem (s : string) : trim (trim s) = trim s.
Proof.
  unfold trim.
  assert (H : trimStart (trimEnd (trimStart s)) = trimEnd (trimStart s)).
  { induction s as [|c s IH]; [reflexivity|]. cbn [trimStart].
    destruct (is_space c) eqn:Hc; [exact IH|].
    destruct (trimEnd_head c s Hc) as [t ->]. simpl. now rewrite Hc. }
  rewrite H. apply trimEnd_idem.
Qed.

End Tokens.

Section ParserTheorems.

Lemma reachable_initial : reachable initial.
Proof. now exists []. Qed.

Lemma reachable_collector (ctx : Context) :
  reachable ctx -> exists steps, store ctx !! currentStepCollector ctx = Some steps.
Proof.
  intros H. apply reachable_wf in H.
  apply lookup_lt_is_Some_2, (wf_collector ctx H).
Qed.

Lemma process_tag_trimmed (ctx : Context) (line : string) :
  inDocString ctx = false ->
  startsWith line "@" = true ->
  trim line = line ->
  process_line ctx line = Ok (set_pendingTags (ws_tokens line) ctx).
Proof.
  intros Hdoc Hat Htrim. rewrite process_tag by assumption.
  rewrite split_ws_trimmed; [auto | | exact Htrim].
  destruct (startsWith_cons_inv _ _ Hat) as [rest ->]. discriminate.
Qed.

(** C2.  A line that starts with [@] and is met outside a doc string sets
    the pending tags to the white-space separated tokens of the line,
    whatever was pending before, and changes nothing else: nothing is
    appended to the feature, to its background or to a scenario. *)
Theorem tag_line_replaces_pending (ctx : Context) (line : string) :
  inDocString ctx = false ->
  startsWith line "@" = true ->
  trim line = line ->
  process_line ctx line = Ok (set_pendingTags (ws_tokens line) ctx) /\
  pendingTags (set_pendingTags (ws_tokens line) ctx) = ws_tokens line /\
  feature (set_pendingTags (ws_tokens line) ctx) = feature ctx /\
  store (set_pendingTags (ws_tokens line) ctx) = store ctx.
Proof.
  intros Hdoc Hat Htrim. rewrite process_tag_trimmed by assumption. auto.
Qed.

Lemma tag_line_replaces_pending_witness :
  process_line (set_pendingTags ["@old"] initial) "@smoke   @slow"
  = Ok (set_pendingTags ["@smoke"; "@slow"] initial).
Proof.
  exact (proj1 (tag_line_replaces_pending
                  (set_pendingTags ["@old"] initial) "@smoke   @slow"
                  eq_refl eq_refl eq_refl)).
Defined.

(** C6.  From an opening fence met outside a doc string to the next fence,
    every line, both fences included, is appended as it stands and in
    order to the collector that was current at the opening fence, whatever
    the inner lines start with; nothing else changes. *)
Theorem doc_string_captured (ctx : Context) (opening closing : string)
    (inner : list string) :
  reachable ctx ->
  inDocString ctx = false ->
  startsWith opening fence = true ->
  Forall (fun l => startsWith l fence = false) inner ->
  startsWith closing fence = true ->
  exists steps,
    store ctx !! currentStepCollector ctx = Some steps /\
    run ctx (opening :: inner ++ [closing]) =
      Ok (set_store
            (<[currentStepCollector ctx := steps ++ opening :: inner ++ [closing]]>
               (store ctx))
            ctx).
Proof.
  intros Hreach Hdoc Hopen Hinner Hclose.
  destruct (reachable_collector ctx Hreach) as [steps Hs].
  exists steps. split; [exact Hs|].
  pose proof (lookup_lt_Some _ _ _ Hs) as Hlt.
  cbn [run]. rewrite process_fence by exact Hopen.
  unfold push_collector at 1. cbv zeta.
  cbn [store currentStepCollector set_inDocString]. rewrite Hs. cbn [bind].
  rewrite run_app.
  rewrite (run_in_doc inner _ (steps ++ [opening]));
    [| now rewrite Hdoc | exact Hinner
     | cbn; now apply list_lookup_insert_eq].
  cbn [bind run]. rewrite process_fence by exact Hclose.
  unfold push_collector. cbv zeta. cbn.
  rewrite list_insert_insert_eq.
  rewrite list_lookup_insert_eq by exact Hlt. cbn [bind].
  rewrite list_insert_insert_eq, Hdoc.
  rewrite <- !app_assoc. cbn [app negb].
  destruct ctx; cbn in *; subst; reflexivity.
Qed.

Lemma doc_string_captured_witness :
  run initial ["Given a"; fence; "Scenario: inside"; "@tag"; "| a |"; fence]
  = Ok (set_store
          [["Given a"; fence; "Scenario: inside"; "@tag"; "| a |"; fence]]
          (set_store [["Given a"]] initial)).
Proof.
  assert (R : reachable (set_store [["Given a"]] initial)).
  { exists ["Given a"]. reflexivity. }
  destruct (doc_string_captured (set_store [["Given a"]] initial) fence fence
              ["Scenario: inside"; "@tag"; "| a |"] R eq_refl eq_refl)
    as (steps & Hs & Hrun).
  - repeat constructor.
  - reflexivity.
  - injection Hs as <-. cbn [run]. exact Hrun.
Defined.

(** C9.  Whatever the lines, the parse returns a feature and raises
    nothing.  A table row arriving when no header is buffered only becomes
    the header; a table row whose active entity is no outline changes
    nothing; a step line goes to the current collector, also before any
    scenario; a doc string that is never closed collects the remaining
    lines and the parse still returns. *)
Theorem parse_never_raises :
  (forall raw, exists f, parseLines raw = Ok f) /\
  (forall contents, exists f, parseFeature contents = Ok f) /\
  (forall ctx line,
      inDocString ctx = false -> startsWith line "|" = true ->
      headers ctx = [] ->
      process_line ctx line = Ok (set_headers (parseTableRow line) ctx)) /\
  (forall ctx line,
      inDocString ctx = false -> startsWith line "|" = true ->
      headers ctx <> [] ->
      (currentScenario ctx = None \/
       exists i s, currentScenario ctx = Some i /\
                   scenarios (feature ctx) !! i = Some (Scenario s)) ->
      process_line ctx line = Ok ctx) /\
  (forall ctx line,
      reachable ctx -> isStepLine line = true ->
      exists steps,
        store ctx !! currentStepCollector ctx = Some steps /\
        process_line ctx line =
          Ok (set_store (<[currentStepCollector ctx := steps ++ [line]]> (store ctx))
                        ctx)) /\
  (forall ctx lines,
      reachable ctx -> inDocString ctx = true ->
      Forall (fun l => startsWith l fence = false) lines ->
      exists steps f,
        store ctx !! currentStepCollector ctx = Some steps /\
        run ctx lines =
          Ok (set_store (<[currentStepCollector ctx := steps ++ lines]> (store ctx))
                        ctx) /\
        read_feature
          (set_store (<[currentStepCollector ctx := steps ++ lines]> (store ctx)) ctx)
        = Ok f).
Proof.
  split; [exact parseLines_total|].
  split; [intros contents; apply parseLines_total|].
  split; [|split; [|split]].
  - intros ctx line Hdoc Hbar Hh.
    rewrite process_table_row by assumption.
    unfold on_table_row. now rewrite Hh.
  - intros ctx line Hdoc Hbar Hh Hcur.
    rewrite process_table_row by assumption.
    unfold on_table_row.
    destruct (headers ctx) as [|h hs]; [congruence|]. cbn [length Nat.eqb].
    destruct Hcur as [->|(i & s & -> & ->)]; reflexivity.
  - intros ctx line Hreach Hstep.
    destruct (reachable_collector ctx Hreach) as [steps Hs].
    exists steps. split; [exact Hs|].
    rewrite process_step by exact Hstep.
    unfold push_collector. cbv zeta. now rewrite Hs.
  - intros ctx lines Hreach Hdoc Hall.
    destruct (reachable_collector ctx Hreach) as [steps Hs].
    destruct (read_feature_ok
                (set_store (<[currentStepCollector ctx := steps ++ lines]> (store ctx))
                           ctx)) as [f Hf].
    { apply wf_set_store_insert, reachable_wf, Hreach. }
    exists steps, f. split; [exact Hs|]. split; [|exact Hf].
    now apply run_in_doc.
Qed.

Lemma parse_never_raises_witness :
  process_line initial "| a | b |" = Ok (set_headers ["a"; "b"] initial) /\
  process_line (set_headers ["a"] initial) "| x |"
    = Ok (set_headers ["a"] initial).
Proof.
  destruct parse_never_raises as (_ & _ & Hheader & Hrow & _).
  split.
  - exact (Hheader initial "| a | b |" eq_refl eq_refl eq_refl).
  - apply Hrow; [reflexivity | reflexivity | discriminate | now left].
Defined.

End ParserTheorems.

(** ** The loop body as a step relation *)

Section Steps.

Lemma table_row_not_step (line : string) :
  startsWith line "|" = true -> isStepLine line = false.
Proof. intros H. destruct (startsWith_app _ _ H) as [rest ->]. reflexivity. Qed.

Lemma push_collector_step (c c' : Context) (line : string) (doc : bool) :
  push_collector line (set_inDocString doc c) = Ok c' -> step c line c'.
Proof.
  unfold push_collector. cbv zeta. cbn [store currentStepCollector set_inDocString].
  destruct (store c !! currentStepCollector c) as [steps|] eqn:Hs; [|discriminate].
  intros [= <-]. now apply (step_collect c line steps doc).
Qed.

Lemma process_line_step (c c' : Context) (line : string) :
  process_line c line = Ok c' -> step c line c'.
Proof.
  rewrite process_line_unrolled.
  destruct (startsWith line fence); [apply push_collector_step|].
  destruct (inDocString c) eqn:Hdoc.
  { rewrite <- (set_inDocString_self c) at 1. rewrite Hdoc.
    apply push_collector_step. }
  destruct (startsWith line "@") eqn:Hat.
  { intros [= <-]. now constructor. }
  destruct (startsWith line "Feature:") eqn:H1.
  { intros [= <-]. now constructor. }
  destruct (startsWith line "Background:") eqn:H2.
  { intros [= <-]. now constructor. }
  destruct (startsWith line "Scenario Outline:") eqn:H3.
  { intros [= <-]. now constructor. }
  destruct (startsWith line "Scenario:") eqn:H4.
  { intros [= <-]. now constructor. }
  destruct (startsWith line "Examples:") eqn:H5.
  { intros [= <-]. now constructor. }
  destruct (startsWith line "Rule:") eqn:H6.
  { intros [= <-]. now constructor. }
  destruct (startsWith line "|") eqn:H7.
  { unfold on_table_row.
    destruct (headers c) as [|h hs] eqn:Hh; cbn [length Nat.eqb].
    - intros [= <-]. now constructor.
    - destruct (currentScenario c) as [i|] eqn:Hcur.
      + destruct (scenarios (feature c) !! i) as [[s|o]|] eqn:Hi.
        * intros [= <-]. apply step_skip. now apply table_row_not_step.
        * intros [= <-]. rewrite <- Hh.
          apply step_row; auto. now rewrite Hh.
        * discriminate.
      + intros [= <-]. apply step_skip. now apply table_row_not_step. }
  destruct (isStepLine line) eqn:H8.
  { rewrite <- (set_inDocString_self c) at 1. apply push_collector_step. }
  destruct (truthy line && mode_is_none (mode c))%bool.
  - intros [= <-]. now constructor.
  - intros [= <-]. now apply step_skip.
Qed.

Lemma same_entity_refl (e : Entity nat) : same_entity e e.
Proof. repeat split. Qed.

Lemma same_entity_trans (e1 e2 e3 : Entity nat) :
  same_entity e1 e2 -> same_entity e2 e3 -> same_entity e1 e3.
Proof.
  intros (A1 & A2 & A3 & A4) (B1 & B2 & B3 & B4).
  repeat split; congruence.
Qed.

Lemma step_keeps_entities (c c' : Context) (line : string) (i : nat)
    (e : Entity nat) :
  step c line c' ->
  scenarios (feature c) !! i = Some e ->
  exists e', scenarios (feature c') !! i = Some e' /\ same_entity e e'.
Proof.
  intros Hstep Hi.
  destruct Hstep; cbn; try (exists e; split; [exact Hi | apply same_entity_refl]).
  - exists e. split; [now apply lookup_app_l_Some | apply same_entity_refl].
  - exists e. split; [now apply lookup_app_l_Some | apply same_entity_refl].
  - destruct (decide (i0 = i)) as [->|Hne].
    + rewrite list_lookup_insert_eq by (now apply lookup_lt_Some in Hi).
      eexists. split; [reflexivity|].
      assert (e = Outline o) as -> by congruence. repeat split.
    + rewrite list_lookup_insert_ne by exact Hne.
      exists e. split; [exact Hi | apply same_entity_refl].
Qed.

Lemma run_keeps_entities (lines : list string) (c c' : Context) (i : nat)
    (e : Entity nat) :
  run c lines = Ok c' ->
  scenarios (feature c) !! i = Some e ->
  exists e', scenarios (feature c') !! i = Some e' /\ same_entity e e'.
Proof.
  revert c e. induction lines as [|l lines IH]; intros c e Hrun Hi.
  - injection Hrun as <-. exists e. split; [exact Hi | apply same_entity_refl].
  - cbn [run] in Hrun. destruct (process_line c l) as [c1|] eqn:E; [|discriminate].
    cbn [bind] in Hrun. apply process_line_step in E.
    destruct (step_keeps_entities _ _ _ _ _ E Hi) as (e1 & Hi1 & S1).
    destruct (IH c1 e1 Hrun Hi1) as (e2 & Hi2 & S2).
    exists e2. split; [exact Hi2 | eapply same_entity_trans; eauto].
Qed.

Lemma mapM_lookup {A B} (f : A -> result B) (l : list A) (l' : list B)
    (i : nat) (a : A) :
  mapM f l = Ok l' -> l !! i = Some a ->
  exists b, l' !! i = Some b /\ f a = Ok b.
Proof.
  revert l' i. induction l as [|x l IH]; intros l' i H Hi; [discriminate|].
  cbn [mapM] in H.
  destruct (f x) as [b|] eqn:Efx; [|discriminate]. cbn [bind] in H.
  destruct (mapM f l) as [bs|] eqn:El; [|discriminate]. cbn [bind] in H.
  injection H as <-. destruct i as [|i]; cbn in *.
  - injection Hi as <-. eauto.
  - now apply IH.
Qed.

(** The feature that is returned shows each entity with the name, class,
    tags and examples it has in the context. *)
Lemma read_feature_entity (c : Context) (f : FeatureModel (list string))
    (i : nat) (e : Entity nat) :
  read_feature c = Ok f ->
  scenarios (feature c) !! i = Some e ->
  exists e', scenarios f !! i = Some e' /\
             entity_name e' = entity_name e /\
             entity_tags e' = entity_tags e /\
             is_outline e' = is_outline e /\
             entity_examples e' = entity_examples e /\
             store c !! entity_steps e = Some (entity_steps e').
Proof.
  unfold read_feature. intros H Hi.
  destruct (read_background (store c) (background (feature c))); [|discriminate].
  cbn [bind] in H.
  destruct (mapM (read_entity (store c)) (scenarios (feature c))) as [scs|] eqn:E;
    [|discriminate].
  cbn [bind] in H. injection H as <-. cbn [scenarios].
  destruct (mapM_lookup _ _ _ _ _ E Hi) as (e' & Hi' & He').
  exists e'. split; [exact Hi'|].
  unfold read_entity, read_steps in He'.
  destruct e as [s|o]; cbn in *.
  - destruct (store c !! sc_steps s) eqn:Hs; [|discriminate].
    injection He' as <-. cbn. auto 10.
  - destruct (store c !! so_steps o) eqn:Hs; [|discriminate].
    injection He' as <-. cbn. auto 10.
Qed.

End Steps.

(** ** C1: the pending tags are flushed into the next scenario *)

Section TagFlush.

(** A scenario line, outside a doc string, appends one entity carrying
    the pending tags and empties the buffer. *)
Lemma process_scenario_line (ctx : Context) (line : string) :
  inDocString ctx = false -> scenario_line line ->
  exists ctx' e,
    process_line ctx line = Ok ctx' /\
    scenarios (feature ctx') = scenarios (feature ctx) ++ [e] /\
    is_outline e = startsWith line "Scenario Outline:" /\
    entity_tags e = pendingTags ctx /\
    pendingTags ctx' = [] /\
    inDocString ctx' = false.
Proof.
  intros Hdoc [H|H].
  - rewrite process_Scenario by assumption.
    eexists _, _. split; [reflexivity|]. cbn.
    repeat split; try assumption. symmetry.
    destruct (startsWith_app _ _ H) as [rest ->]. reflexivity.
  - rewrite process_ScenarioOutline by assumption.
    eexists _, _. split; [reflexivity|]. cbn.
    repeat split; try assumption. now rewrite H.
Qed.

(** Tag lines only rewrite the buffer. *)
Lemma run_tag_lines (tags : list string) (ctx : Context) :
  inDocString ctx = false ->
  Forall (fun t => startsWith t "@" = true) tags ->
  exists pending, run ctx tags = Ok (set_pendingTags pending ctx).
Proof.
  revert ctx. induction tags as [|t tags IH]; intros ctx Hdoc Hall.
  - exists (pendingTags ctx). destruct ctx; reflexivity.
  - inversion Hall as [|? ? Ht Hrest]; subst. cbn [run].
    rewrite process_tag by assumption. cbn [bind].
    destruct (IH (set_pendingTags (map trim (split_ws t)) ctx) Hdoc Hrest)
      as [pending ->].
    exists pending. reflexivity.
Qed.

Lemma step_pending (c c' : Context) (line : string) :
  step c line c' -> startsWith line "@" = false ->
  pendingTags c = [] -> pendingTags c' = [].
Proof.
  intros Hstep Hat Hp. destruct Hstep; cbn; auto. congruence.
Qed.

Lemma run_pending (lines : list string) (c c' : Context) :
  run c lines = Ok c' ->
  Forall (fun l => startsWith l "@" = false) lines ->
  pendingTags c = [] -> pendingTags c' = [].
Proof.
  revert c. induction lines as [|l lines IH]; intros c Hrun Hall Hp.
  - now injection Hrun as <-.
  - inversion Hall as [|? ? Hl Hrest]; subst. cbn [run] in Hrun.
    destruct (process_line c l) as [c1|] eqn:E; [|discriminate].
    cbn [bind] in Hrun. apply process_line_step in E.
    eapply IH; eauto using step_pending.
Qed.

(** Two tag lines: only the tokens of the second reach the scenario. *)
Lemma tag_flush_as_stated_fails :
  (exists ctx',
      run initial ["@a"; "@b"; "Scenario: s"] = Ok ctx' /\
      map entity_tags (scenarios (feature ctx')) = [["@b"]]) /\
  concat (map ws_tokens ["@a"; "@b"]) = ["@a"; "@b"] /\
  ~ tag_flush_as_stated.
Proof.
  split; [eexists; split; reflexivity|]. split; [reflexivity|].
  intros H.
  destruct (H initial ["@a"; "@b"] "Scenario: s") as (ctx' & e & Hrun & Hsc & Htags & _).
  - apply reachable_initial.
  - reflexivity.
  - discriminate.
  - repeat constructor.
  - now left.
  - vm_compute in Hrun. injection Hrun as <-.
    cbn in Hsc. injection Hsc as <-.
    vm_compute in Htags. discriminate.
Qed.

(** C1, amended.  After one or more tag lines met outside a doc string, a
    [Scenario:] or [Scenario Outline:] line produces an entity whose tags
    are the tokens of the last of those tag lines; the buffer is empty
    right after it; the entity keeps these tags until the feature is
    returned; and the next scenario line, when no tag line comes before
    it, produces an entity without tags. *)
Theorem tag_flush (ctx : Context) (tag_lines : list string)
    (last_tag line : string) :
  reachable ctx -> inDocString ctx = false ->
  Forall (fun t => startsWith t "@" = true) tag_lines ->
  startsWith last_tag "@" = true -> trim last_tag = last_tag ->
  scenario_line line ->
  exists ctx' e,
    run ctx (tag_lines ++ [last_tag; line]) = Ok ctx' /\
    scenarios (feature ctx') = scenarios (feature ctx) ++ [e] /\
    is_outline e = startsWith line "Scenario Outline:" /\
    entity_tags e = ws_tokens last_tag /\
    pendingTags ctx' = [] /\
    (forall rest ctx'',
        run ctx' rest = Ok ctx'' ->
        exists f e',
          read_feature ctx'' = Ok f /\
          scenarios f !! length (scenarios (feature ctx)) = Some e' /\
          is_outline e' = is_outline e /\
          entity_tags e' = ws_tokens last_tag) /\
    (forall mid ctx2 line2,
        Forall (fun l => startsWith l "@" = false) mid ->
        run ctx' mid = Ok ctx2 -> inDocString ctx2 = false ->
        scenario_line line2 ->
        exists ctx3 e2,
          process_line ctx2 line2 = Ok ctx3 /\
          scenarios (feature ctx3) = scenarios (feature ctx2) ++ [e2] /\
          entity_tags e2 = []).
Proof.
  intros Hreach Hdoc Htags Hlast Htrim Hline.
  destruct (run_tag_lines tag_lines ctx Hdoc Htags) as [pending Hrun1].
  pose proof (process_tag_trimmed (set_pendingTags pending ctx) last_tag
                Hdoc Hlast Htrim) as Hrun2.
  destruct (process_scenario_line
              (set_pendingTags (ws_tokens last_tag) (set_pendingTags pending ctx))
              line Hdoc Hline)
    as (ctx' & e & Hrun3 & Hsc & Hcls & He & Hp & Hdoc').
  assert (Hrun : run ctx (tag_lines ++ [last_tag; line]) = Ok ctx').
  { rewrite run_app, Hrun1. cbn [bind run]. rewrite Hrun2. cbn [bind].
    rewrite Hrun3. reflexivity. }
  exists ctx', e. cbn in Hsc, He.
  split; [exact Hrun|]. split; [exact Hsc|]. split; [exact Hcls|].
  split; [exact He|]. split; [exact Hp|]. split.
  - intros rest ctx'' Hrest.
    assert (Hreach'' : reachable ctx'').
    { destruct Hreach as [l0 Hl0].
      exists (l0 ++ (tag_lines ++ [last_tag; line]) ++ rest).
      rewrite run_app, Hl0. cbn [bind]. rewrite run_app, Hrun. exact Hrest. }
    destruct (read_feature_ok ctx'' (reachable_wf _ Hreach'')) as [f Hf].
    assert (Hi : scenarios (feature ctx') !! length (scenarios (feature ctx)) = Some e).
    { rewrite Hsc. apply list_lookup_middle. reflexivity. }
    destruct (run_keeps_entities _ _ _ _ _ Hrest Hi) as (e1 & Hi1 & S1).
    destruct (read_feature_entity _ _ _ _ Hf Hi1) as (e' & Hi' & _ & T & O & _).
    destruct S1 as (_ & T1 & O1 & _).
    exists f, e'. split; [exact Hf|]. split; [exact Hi'|].
    split; congruence.
  - intros mid ctx2 line2 Hmid Hrun_mid Hdoc2 Hline2.
    pose proof (run_pending _ _ _ Hrun_mid Hmid Hp) as Hp2.
    destruct (process_scenario_line ctx2 line2 Hdoc2 Hline2)
      as (ctx3 & e2 & E3 & Hsc3 & _ & He2 & _).
    exists ctx3, e2. split; [exact E3|]. split; [exact Hsc3|]. congruence.
Qed.

Lemma tag_flush_witness :
  exists ctx' e,
    run initial (["@a"] ++ ["@b  @c"; "Scenario Outline: s"]) = Ok ctx' /\
    scenarios (feature ctx') = [e] /\
    is_outline e = true /\
    entity_tags e = ["@b"; "@c"].
Proof.
  destruct (tag_flush initial ["@a"] "@b  @c" "Scenario Outline: s")
    as (ctx' & e & H1 & H2 & H3 & H4 & _).
  - apply reachable_initial.
  - reflexivity.
  - repeat constructor.
  - reflexivity.
  - reflexivity.
  - now right.
  - exists ctx', e. auto.
Defined.

End TagFlush.

(** ** C10: steps before any background or scenario *)

Section DetachedSteps.

Lemma with_detached_twice (d d' : list string) (c : Context) :
  with_detached d (with_detached d' c) = with_detached d c.
Proof.
  unfold with_detached, set_store; cbn. now rewrite list_insert_insert_eq.
Qed.

Lemma with_detached_self (c : Context) (d : list string) :
  store c !! 0 = Some d -> with_detached d c = c.
Proof.
  intros H. unfold with_detached. rewrite list_insert_id by exact H.
  destruct c; reflexivity.
Qed.

Lemma push_collector_detached (line : string) (c c' : Context) (d : list string) :
  0 < length (store c) ->
  push_collector line c = Ok c' ->
  exists d', push_collector line (with_detached d c) = Ok (with_detached d' c').
Proof.
  intros Hlen. unfold push_collector. cbv zeta.
  destruct (store c !! currentStepCollector c) as [steps|] eqn:Hs; [|discriminate].
  intros [= <-]. cbn [with_detached store currentStepCollector set_store].
  destruct (decide (currentStepCollector c = 0)) as [E|E].
  - rewrite E. rewrite list_lookup_insert_eq by exact Hlen.
    exists (d ++ [line]). unfold with_detached, set_store; cbn.
    now rewrite !list_insert_insert_eq.
  - rewrite list_lookup_insert_ne by auto. rewrite Hs.
    exists d. unfold with_detached, set_store; cbn.
    f_equal. f_equal. apply list_insert_insert_ne. auto.
Qed.

Lemma insert_0_app {A} (d : A) (l l' : list A) :
  0 < length l -> <[0 := d]> (l ++ l') = <[0 := d]> l ++ l'.
Proof. destruct l; simpl; [lia | reflexivity]. Qed.

(** The array at address 0 has no influence on what a line does to the
    rest of the context. *)
Lemma process_line_detached (line : string) (c c' : Context) (d : list string) :
  0 < length (store c) ->
  process_line c line = Ok c' ->
  exists d', process_line (with_detached d c) line = Ok (with_detached d' c').
Proof.
  intros Hlen. rewrite !process_line_unrolled.
  assert (Hset : forall b, set_inDocString b (with_detached d c)
                           = with_detached d (set_inDocString b c)) by reflexivity.
  cbn [with_detached inDocString set_store headers mode feature].
  fold (with_detached d c).
  destruct (startsWith line fence).
  { rewrite Hset. now apply push_collector_detached. }
  destruct (inDocString c); [now apply push_collector_detached|].
  destruct (startsWith line "@"). { intros [= <-]. now exists d. }
  destruct (startsWith line "Feature:"). { intros [= <-]. now exists d. }
  destruct (startsWith line "Background:").
  { intros [= <-]. exists d.
    unfold on_Background, alloc, with_detached, set_store; cbn.
    rewrite !length_insert, insert_0_app by exact Hlen. reflexivity. }
  destruct (startsWith line "Scenario Outline:").
  { intros [= <-]. exists d.
    unfold on_ScenarioOutline, alloc, with_detached, set_store; cbn.
    rewrite !length_insert, insert_0_app by exact Hlen. reflexivity. }
  destruct (startsWith line "Scenario:").
  { intros [= <-]. exists d.
    unfold on_Scenario, alloc, with_detached, set_store; cbn.
    rewrite !length_insert, insert_0_app by exact Hlen. reflexivity. }
  destruct (startsWith line "Examples:"). { intros [= <-]. now exists d. }
  destruct (startsWith line "Rule:"). { intros [= <-]. now exists d. }
  destruct (startsWith line "|").
  { unfold on_table_row.
    cbn [with_detached headers set_store currentScenario feature].
    destruct (Nat.eqb (length (headers c)) 0). { intros [= <-]. now exists d. }
    destruct (currentScenario c) as [i|]; [|intros [= <-]; now exists d].
    destruct (scenarios (feature c) !! i) as [[s|o]|]; [| |discriminate].
    - intros [= <-]. now exists d.
    - intros [= <-]. now exists d. }
  destruct (isStepLine line); [now apply push_collector_detached|].
  destruct (truthy line && mode_is_none (mode c))%bool; intros [= <-]; now exists d.
Qed.

Lemma step_store_length (c c' : Context) (line : string) :
  step c line c' -> length (store c) <= length (store c').
Proof.
  intros H. destruct H; cbn; rewrite ?length_insert, ?length_app; lia.
Qed.

Lemma run_detached (lines : list string) (c c' : Context) (d : list string) :
  0 < length (store c) ->
  run c lines = Ok c' ->
  exists d', run (with_detached d c) lines = Ok (with_detached d' c').
Proof.
  revert c d. induction lines as [|l lines IH]; intros c d Hlen Hrun.
  - injection Hrun as <-. now exists d.
  - cbn [run] in *. destruct (process_line c l) as [c1|] eqn:E; [|discriminate].
    cbn [bind] in Hrun.
    destruct (process_line_detached l c c1 d Hlen E) as [d1 ->]. cbn [bind].
    apply IH; [|exact Hrun].
    apply process_line_step, step_store_length in E. lia.
Qed.

(** A step line met while the collector is the array of address 0 only
    grows that array. *)
Lemma process_step_detached (line : string) (c : Context) (d : list string) :
  store c !! 0 = Some d -> currentStepCollector c = 0 ->
  isStepLine line = true ->
  process_line c line = Ok (with_detached (d ++ [line]) c).
Proof.
  intros Hs Hcol Hstep. rewrite process_step by exact Hstep.
  unfold push_collector. cbv zeta. rewrite Hcol, Hs. reflexivity.
Qed.

Lemma not_step_of_prefix (line p : string) :
  startsWith line p = true ->
  (forall rest, isStepLine (p +:+ rest) = false) ->
  isStepLine line = false.
Proof. intros H Hp. destruct (startsWith_app _ _ H) as [rest ->]. apply Hp. Qed.

(** A line that opens no collector keeps the detached state; the step
    lines of address 0 grow by this line exactly when it is a step line. *)
Lemma step_detached_state (c c' : Context) (line : string) (d : list string) :
  step c line c' -> opens_collector line = false -> detached_state c d ->
  exists d', detached_state c' d' /\
             filter (fun l => isStepLine l = true) d' =
             filter (fun l => isStepLine l = true) (d ++ [line]).
Proof.
  unfold opens_collector, detached_state.
  intros Hstep Hopen (Hst & Hcol & Hbg & Hsc).
  apply orb_false_iff in Hopen as [Hopen H3].
  apply orb_false_iff in Hopen as [H1 H2].
  assert (Hkeep : forall p, startsWith line p = true ->
                    (forall rest, isStepLine (p +:+ rest) = false) ->
                    filter (fun l => isStepLine l = true) d =
                    filter (fun l => isStepLine l = true) (d ++ [line])).
  { intros p Hp Hno. rewrite filter_app. cbn [filter list_filter].
    rewrite decide_False, app_nil_r; [reflexivity|].
    rewrite (not_step_of_prefix line p Hp Hno). discriminate. }
  assert (Hkeep' : isStepLine line = false ->
                   filter (fun l => isStepLine l = true) d =
                   filter (fun l => isStepLine l = true) (d ++ [line])).
  { intros Hno. rewrite filter_app. cbn [filter list_filter].
    rewrite decide_False, app_nil_r; [reflexivity|]. rewrite Hno. discriminate. }
  destruct Hstep; try congruence.
  - exists (d ++ [line]). cbn. rewrite Hst, Hcol in *. cbn in *.
    assert (steps = d) as -> by congruence. auto.
  - exists d. cbn. split; [auto|]. now apply (Hkeep "@").
  - exists d. cbn. split; [auto|]. now apply (Hkeep "Feature:").
  - exists d. cbn. split; [auto|]. now apply (Hkeep "Examples:").
  - exists d. cbn. split; [auto|]. now apply (Hkeep "Rule:").
  - exists d. cbn. split; [auto|]. now apply (Hkeep "|").
  - rewrite Hsc in *. discriminate.
  - exists d. cbn. split; [auto|]. now apply Hkeep'.
  - exists d. split; [auto|]. now apply Hkeep'.
Qed.

End DetachedSteps.

Section DetachedStepsTheorem.

Lemma detached_state_initial : detached_state initial [].
Proof. repeat split. Qed.

Lemma run_detached_state (pre : list string) (c : Context) (d : list string) :
  wf c -> detached_state c d ->
  Forall (fun l => opens_collector l = false) pre ->
  exists c' d',
    run c pre = Ok c' /\ detached_state c' d' /\
    filter is_step d' = filter is_step (d ++ pre).
Proof.
  revert c d. induction pre as [|l pre IH]; intros c d Hwf Hd Hall.
  - exists c, d. rewrite app_nil_r. auto.
  - inversion Hall as [|? ? Hl Hrest]; subst.
    destruct (process_line_ok c l Hwf) as (c1 & E & Hwf1).
    destruct (step_detached_state c c1 l d (process_line_step _ _ _ E) Hl Hd)
      as (d1 & Hd1 & F1).
    destruct (IH c1 d1 Hwf1 Hd1 Hrest) as (c' & d' & Hrun & Hd' & F').
    exists c', d'. cbn [run]. rewrite E. cbn [bind].
    split; [exact Hrun|]. split; [exact Hd'|].
    rewrite F', !filter_app, F1, filter_app, <- app_assoc.
    f_equal. symmetry. apply (filter_app _ [l] pre).
Qed.

Lemma run_without_steps (pre : list string) (c c1 : Context) (d : list string) :
  wf c -> detached_state c d ->
  Forall (fun l => opens_collector l = false) pre ->
  run c pre = Ok c1 ->
  exists d2, run c (filter is_no_step pre) = Ok (with_detached d2 c1).
Proof.
  revert c d. induction pre as [|l pre IH]; intros c d Hwf Hd Hall Hrun.
  - injection Hrun as <-. exists d. cbn [filter list_filter run].
    destruct Hd as (Hst & _). rewrite with_detached_self; [reflexivity|].
    now rewrite Hst.
  - inversion Hall as [|? ? Hl Hrest]; subst. cbn [run] in Hrun.
    destruct (process_line_ok c l Hwf) as (c' & E & Hwf').
    rewrite E in Hrun. cbn [bind] in Hrun.
    destruct (step_detached_state c c' l d (process_line_step _ _ _ E) Hl Hd)
      as (d1 & Hd1 & _).
    destruct (IH c' d1 Hwf' Hd1 Hrest Hrun) as [d2 Hrun'].
    cbn [filter list_filter].
    destruct (isStepLine l) eqn:Hstep.
    + rewrite decide_False by discriminate.
      destruct Hd as (Hst & Hcol & _).
      assert (Hs : store c !! 0 = Some d) by now rewrite Hst.
      rewrite (process_step_detached l c d Hs Hcol Hstep) in E.
      injection E as <-.
      assert (Hlen : 0 < length (store (with_detached (d ++ [l]) c))).
      { now apply store_nonempty. }
      destruct (run_detached _ _ _ d Hlen Hrun') as [d3 Hrun3].
      rewrite with_detached_twice, (with_detached_self c d Hs) in Hrun3.
      rewrite with_detached_twice in Hrun3. now exists d3.
    + rewrite decide_True by reflexivity.
      exists d2. cbn [run]. rewrite E. exact Hrun'.
Qed.

Lemma mapM_ext {A B} (f g : A -> result B) (l : list A) :
  Forall (fun a => f a = g a) l -> mapM f l = mapM g l.
Proof.
  induction 1 as [|a l Ha _ IH]; [reflexivity|].
  cbn [mapM]. now rewrite Ha, IH.
Qed.

(** The feature that is returned does not read the array of address 0. *)
Lemma read_feature_detached (c : Context) (d : list string) :
  wf c -> read_feature (with_detached d c) = read_feature c.
Proof.
  intros Hwf. unfold read_feature.
  cbn [with_detached feature store set_store].
  assert (Hread : forall a, 0 < a ->
                    read_steps (<[0 := d]> (store c)) a = read_steps (store c) a).
  { intros a Ha. unfold read_steps. rewrite list_lookup_insert_ne by lia.
    reflexivity. }
  assert (Hbg : read_background (<[0 := d]> (store c)) (background (feature c))
                = read_background (store c) (background (feature c))).
  { destruct (background (feature c)) as [bg|] eqn:Hbg; [|reflexivity].
    cbn [read_background].
    destruct (wf_background c Hwf bg Hbg) as [Hpos _]. now rewrite Hread. }
  rewrite Hbg.
  rewrite (mapM_ext (read_entity (<[0 := d]> (store c))) (read_entity (store c)));
    [reflexivity|].
  eapply Forall_impl; [exact (wf_scenarios c Hwf)|].
  intros e [Hpos _]. destruct e; cbn in *; now rewrite Hread.
Qed.

Lemma step_description (c c' : Context) (line : string) :
  step c line c' ->
  Forall is_no_step (description (feature c)) ->
  Forall is_no_step (description (feature c')).
Proof.
  intros Hstep H. destruct Hstep; cbn; auto.
  - apply Forall_app. split; [exact H|]. repeat constructor.
  - apply Forall_app. split; [exact H|]. repeat constructor. assumption.
Qed.

Lemma run_description (lines : list string) (c c' : Context) :
  run c lines = Ok c' ->
  Forall is_no_step (description (feature c)) ->
  Forall is_no_step (description (feature c')).
Proof.
  revert c. induction lines as [|l lines IH]; intros c Hrun H.
  - now injection Hrun as <-.
  - cbn [run] in Hrun. destruct (process_line c l) as [c1|] eqn:E; [|discriminate].
    cbn [bind] in Hrun. apply process_line_step in E.
    eapply IH; eauto using step_description.
Qed.

Lemma read_feature_description (c : Context) (f : FeatureModel (list string)) :
  read_feature c = Ok f -> description f = description (feature c).
Proof.
  unfold read_feature.
  destruct (read_background _ _); [|discriminate]. cbn [bind].
  destruct (mapM _ _); [|discriminate]. cbn [bind].
  now intros [= <-].
Qed.

(** C10.  When no line of [pre] starts with [Background:], [Scenario:] or
    [Scenario Outline:], the step lines of [pre] are collected, in order,
    in the array the collector starts with, which no model owns; the
    feature that is returned is the one of the input without these step
    lines, and no line of its description is a step line. *)
Theorem early_steps_are_detached (pre rest : list string) :
  Forall (fun l => opens_collector (trim l) = false) pre ->
  (exists ctx detached,
      run initial (map trim pre) = Ok ctx /\
      detached_state ctx detached /\
      filter is_step detached = filter is_step (map trim pre)) /\
  parseLines (pre ++ rest)
    = parseLines (filter (fun l => isStepLine (trim l) = false) pre ++ rest) /\
  (forall f, parseLines (pre ++ rest) = Ok f ->
             Forall is_no_step (description f)).
Proof.
  intros Hpre.
  assert (Hpre' : Forall (fun l => opens_collector l = false) (map trim pre)).
  { apply Forall_fmap. exact Hpre. }
  destruct (run_detached_state _ _ _ wf_initial detached_state_initial Hpre')
    as (c1 & d1 & Hrun1 & Hd1 & F1).
  split; [exists c1, d1; auto|]. split.
  - unfold parseLines. rewrite !map_app, !run_app, Hrun1. cbn [bind].
    destruct (run_without_steps _ _ _ _ wf_initial detached_state_initial Hpre' Hrun1)
      as [d2 Hrun2].
    assert (Hfilter : map trim (filter (fun l => isStepLine (trim l) = false) pre)
                      = filter is_no_step (map trim pre)).
    { clear. induction pre as [|l pre IH]; [reflexivity|].
      cbn [map]. rewrite !filter_cons.
      destruct (decide (isStepLine (trim l) = false));
        cbn [map]; now rewrite IH. }
    rewrite Hfilter, Hrun2. cbn [bind].
    assert (Hwf1 : wf c1).
    { destruct (run_ok (map trim pre) initial wf_initial) as (c & E & Hc).
      rewrite E in Hrun1. now injection Hrun1 as <-. }
    destruct (run_ok (map trim rest) c1 Hwf1) as (c3 & Hrun3 & Hwf3).
    destruct (run_detached _ _ _ d2 (store_nonempty _ Hwf1) Hrun3) as [d3 Hrun3'].
    rewrite Hrun3, Hrun3'. cbn [bind].
    symmetry. now apply read_feature_detached.
  - intros f. unfold parseLines.
    destruct (run initial (map trim (pre ++ rest))) as [c|] eqn:Hrun; [|discriminate].
    cbn [bind]. intros Hf.
    rewrite (read_feature_description _ _ Hf).
    eapply run_description; [exact Hrun|]. constructor.
Qed.

Lemma early_steps_are_detached_witness :
  parseLines (["Feature: f"; "  Given a stray step"; "And another"]
              ++ ["Scenario: s"; "When x"])
  = parseLines (["Feature: f"] ++ ["Scenario: s"; "When x"]).
Proof.
  refine (proj1 (proj2 (early_steps_are_detached
            ["Feature: f"; "  Given a stray step"; "And another"]
            ["Scenario: s"; "When x"] _))).
  repeat constructor.
Defined.

End DetachedStepsTheorem.

(** ** Laws of plain objects *)

Section ObjectLaws.

Context {V : Type}.
Implicit Types (o : obj V) (k : string) (v : V).

Lemma get_None_keys k o : get k o = None <-> k ∉ keys o.
Proof.
  unfold keys. induction o as [|[k' v'] o IH]; cbn.
  - split; [intros _ H; inversion H | reflexivity].
  - destruct (String.eqb_spec k k') as [->|Hne].
    + split; [discriminate | intros H; exfalso; apply H; left].
    + rewrite IH, not_elem_of_cons. tauto.
Qed.

Lemma has_keys k o : has k o = true <-> k ∈ keys o.
Proof.
  unfold has. destruct (get k o) eqn:E.
  - split; [intros _|reflexivity].
    destruct (decide (k ∈ keys o)) as [|Hn]; [assumption|].
    apply get_None_keys in Hn. congruence.
  - split; [discriminate|]. intros H. apply get_None_keys in E. contradiction.
Qed.

Lemma keys_replace k v o : keys (replace k v o) = keys o.
Proof.
  unfold keys. induction o as [|[k' v'] o IH]; cbn; [reflexivity|].
  destruct (String.eqb k k'); cbn; [reflexivity | now rewrite IH].
Qed.

Lemma get_replace k k' v o :
  k' ∈ keys o ->
  get k (replace k' v o) = if String.eqb k k' then Some v else get k o.
Proof.
  unfold keys. induction o as [|[k0 v0] o IH]; cbn; [intros H; inversion H|].
  intros Hin. destruct (String.eqb_spec k' k0) as [->|Hne]; cbn.
  - destruct (String.eqb k k0); reflexivity.
  - destruct (String.eqb_spec k k0) as [->|Hne'].
    + destruct (String.eqb_spec k0 k'); [congruence | reflexivity].
    + apply IH. apply elem_of_cons in Hin as [|]; [congruence | assumption].
Qed.

Lemma keys_insert_index (n : N) k v o x :
  x ∈ keys (insert_index n k v o) <-> x = k \/ x ∈ keys o.
Proof.
  unfold keys. induction o as [|[k' v'] o IH]; cbn.
  - rewrite list_elem_of_singleton, elem_of_nil. tauto.
  - destruct (array_index k') as [n'|]; [destruct (n' <? n)%N|]; cbn;
      rewrite ?elem_of_cons, ?IH; cbn; tauto.
Qed.

Lemma get_insert_index (n : N) k k' v o :
  k' ∉ keys o ->
  get k (insert_index n k' v o) = if String.eqb k k' then Some v else get k o.
Proof.
  unfold keys. induction o as [|[k0 v0] o IH]; cbn; [reflexivity|].
  intros Hn. apply not_elem_of_cons in Hn as [Hne Hn].
  destruct (array_index k0) as [n'|]; [destruct (n' <? n)%N|]; cbn; try reflexivity.
  destruct (String.eqb_spec k k0) as [->|Hne'].
  - destruct (String.eqb_spec k0 k'); [congruence | reflexivity].
  - now apply IH.
Qed.

Lemma get_app_fresh k k' v o :
  k' ∉ keys o ->
  get k (o ++ [(k', v)]) = if String.eqb k k' then Some v else get k o.
Proof.
  unfold keys. induction o as [|[k0 v0] o IH]; cbn; [reflexivity|].
  intros Hn. apply not_elem_of_cons in Hn as [Hne Hn].
  destruct (String.eqb_spec k k0) as [->|Hne'].
  - destruct (String.eqb_spec k0 k'); [congruence | reflexivity].
  - now apply IH.
Qed.

(** Reading after an assignment. *)
Lemma get_set k k' v o :
  get k (set k' v o) =
    if String.eqb k' "__proto__" then get k o
    else if String.eqb k k' then Some v else get k o.
Proof.
  unfold set. destruct (String.eqb k' "__proto__"); [reflexivity|].
  destruct (has k' o) eqn:Hhas.
  - apply get_replace, has_keys, Hhas.
  - assert (Hn : k' ∉ keys o).
    { intros H. apply has_keys in H. congruence. }
    destruct (array_index k'); [now apply get_insert_index | now apply get_app_fresh].
Qed.

(** The keys after an assignment. *)
Lemma keys_set k v o x :
  x ∈ keys (set k v o) <-> (x = k /\ k <> "__proto__") \/ x ∈ keys o.
Proof.
  unfold set. destruct (String.eqb_spec k "__proto__") as [->|Hne]; [tauto|].
  destruct (has k o) eqn:Hhas.
  - rewrite keys_replace. apply has_keys in Hhas.
    split; [tauto|]. intros [[-> _]|H]; assumption.
  - destruct (array_index k).
    + rewrite keys_insert_index. tauto.
    + unfold keys. rewrite fmap_app, elem_of_app. cbn.
      rewrite list_elem_of_singleton. tauto.
Qed.

Lemma NoDup_insert_index (n : N) k v o :
  k ∉ keys o -> NoDup (keys o) -> NoDup (keys (insert_index n k v o)).
Proof.
  induction o as [|[k' v'] o IH]; cbn; intros Hn Hnd.
  - apply NoDup_singleton.
  - apply not_elem_of_cons in Hn as [Hne Hn].
    apply NoDup_cons in Hnd as [Hk' Hnd].
    assert (Hdone : NoDup (k :: k' :: keys o)).
    { apply NoDup_cons. split; [|now apply NoDup_cons].
      apply not_elem_of_cons. auto. }
    destruct (array_index k') as [n'|]; [destruct (n' <? n)%N|]; cbn; try exact Hdone.
    apply NoDup_cons. split; [|now apply IH].
    intros H. apply (keys_insert_index n k v o k') in H as [->|H];
      [congruence | contradiction].
Qed.

Lemma NoDup_set k v o : NoDup (keys o) -> NoDup (keys (set k v o)).
Proof.
  intros Hnd. unfold set. destruct (String.eqb k "__proto__"); [exact Hnd|].
  destruct (has k o) eqn:Hhas; [now rewrite keys_replace|].
  assert (Hn : k ∉ keys o).
  { intros H. apply has_keys in H. congruence. }
  destruct (array_index k); [now apply NoDup_insert_index|].
  unfold keys. rewrite fmap_app. apply NoDup_app. split; [exact Hnd|].
  split; [|apply NoDup_singleton].
  intros x Hx Hx'. apply list_elem_of_singleton in Hx'. cbn in Hx'. now subst.
Qed.

(** A key that is new, no array index and not [__proto__] goes last. *)
Lemma set_fresh k v o :
  k <> "__proto__" -> array_index k = None -> k ∉ keys o ->
  set k v o = o ++ [(k, v)].
Proof.
  intros Hp Hi Hn. unfold set.
  destruct (String.eqb_spec k "__proto__"); [contradiction|].
  destruct (has k o) eqn:Hhas; [apply has_keys in Hhas; contradiction|].
  now rewrite Hi.
Qed.

Lemma get_assign_one k (target source : obj V) :
  k <> "__proto__" -> NoDup (keys source) ->
  get k (assign_one target source) =
    match get k source with Some v => Some v | None => get k target end.
Proof.
  intros Hp. unfold assign_one. revert target.
  induction source as [|[k' v'] source IH]; intros target Hnd; [reflexivity|].
  cbn [keys fmap list_fmap fst] in Hnd. apply NoDup_cons in Hnd as [Hk' Hnd].
  cbn [fold_left fst snd get]. rewrite (IH _ Hnd), get_set.
  destruct (String.eqb_spec k k') as [->|Hne].
  - apply get_None_keys in Hk'. rewrite Hk'.
    destruct (String.eqb_spec k' "__proto__"); [contradiction | reflexivity].
  - destruct (get k source); [reflexivity|].
    destruct (String.eqb k' "__proto__"); reflexivity.
Qed.

Lemma get_assign k (target : obj V) (sources : list (obj V)) :
  k <> "__proto__" -> Forall (fun s => NoDup (keys s)) sources ->
  get k (assign target sources) =
    match last_defined k sources with Some v => Some v | None => get k target end.
Proof.
  intros Hp. unfold assign. revert target.
  induction sources as [|s sources IH]; intros target Hall; [reflexivity|].
  inversion Hall as [|? ? Hs Hrest]; subst.
  cbn [fold_left last_defined]. rewrite (IH _ Hrest).
  destruct (last_defined k sources); [reflexivity|].
  now apply get_assign_one.
Qed.

Lemma get_proto_set k v o :
  get "__proto__" o = None -> get "__proto__" (set k v o) = None.
Proof.
  intros H. rewrite get_set.
  destruct (String.eqb_spec k "__proto__") as [->|Hne]; [exact H|].
  destruct (String.eqb_spec "__proto__" k); [congruence | exact H].
Qed.

End ObjectLaws.

(** ** C3: example rows and the header row *)

Section TableZip.

Lemma keys_zip_headers (hs cells : list string) (i : nat) (row : obj string)
    (x : string) :
  x ∈ keys (zip_headers i hs cells row) <->
  (x ∈ hs /\ x <> "__proto__") \/ x ∈ keys row.
Proof.
  revert i row. induction hs as [|h hs IH]; intros i row; cbn [zip_headers].
  - rewrite elem_of_nil. tauto.
  - rewrite IH, keys_set, elem_of_cons. split.
    + intros [[H1 H2]|[[-> H]|H]]; auto.
    + intros [[[->|H1] H2]|H]; auto.
Qed.

Lemma zip_headers_in_order (hs cells : list string) (i : nat) (row : obj string) :
  NoDup hs ->
  Forall (fun h => array_index h = None /\ h <> "__proto__") hs ->
  (forall h, h ∈ hs -> h ∉ keys row) ->
  keys (zip_headers i hs cells row) = keys row ++ hs.
Proof.
  revert i row. induction hs as [|h hs IH]; intros i row Hnd Hall Hfresh;
    cbn [zip_headers].
  - now rewrite app_nil_r.
  - apply NoDup_cons in Hnd as [Hh Hnd].
    inversion Hall as [|? ? [Hidx Hp] Hrest]; subst.
    rewrite set_fresh; [| exact Hp | exact Hidx | apply Hfresh; left].
    rewrite IH; [| exact Hnd | exact Hrest |].
    + unfold keys. rewrite fmap_app, <- app_assoc. reflexivity.
    + intros h' Hh'. unfold keys. rewrite fmap_app, elem_of_app. cbn.
      rewrite list_elem_of_singleton. intros [H| ->]; [|contradiction].
      revert H. apply Hfresh. now right.
Qed.

Lemma get_zip_other (hs cells : list string) (i : nat) (row : obj string)
    (k : string) :
  k ∉ hs -> get k (zip_headers i hs cells row) = get k row.
Proof.
  revert i row. induction hs as [|h hs IH]; intros i row Hn; cbn [zip_headers];
    [reflexivity|].
  apply not_elem_of_cons in Hn as [Hne Hn].
  rewrite (IH _ _ Hn), get_set.
  destruct (String.eqb h "__proto__"); [reflexivity|].
  destruct (String.eqb_spec k h); [contradiction | reflexivity].
Qed.

Lemma get_zip_headers (hs cells : list string) (i j : nat) (row : obj string)
    (h : string) :
  hs !! j = Some h -> h <> "__proto__" -> h ∉ drop (S j) hs ->
  get h (zip_headers i hs cells row) = Some (cell_or_empty cells (i + j)).
Proof.
  revert i j row. induction hs as [|h0 hs IH]; intros i j row Hj Hp Hlast;
    [discriminate|].
  cbn [zip_headers]. destruct j as [|j]; cbn in Hj, Hlast.
  - injection Hj as ->. rewrite drop_0 in Hlast.
    rewrite (get_zip_other _ _ _ _ _ Hlast), get_set.
    destruct (String.eqb_spec h "__proto__"); [contradiction|].
    rewrite String.eqb_refl, Nat.add_0_r. reflexivity.
  - rewrite (IH (S i) j _ Hj Hp Hlast). f_equal. f_equal. lia.
Qed.

Lemma elem_of_insert_inv {A} (l : list A) (i : nat) (x y : A) :
  y ∈ <[i := x]> l -> y = x \/ y ∈ l.
Proof.
  revert i. induction l as [|a l IH]; intros i; [intros H; inversion H|].
  destruct i as [|i]; cbn; rewrite !elem_of_cons.
  - tauto.
  - intros [->|H]; [tauto|]. destruct (IH _ H); tauto.
Qed.

Lemma mapM_elem {A B} (f : A -> result B) (l : list A) (l' : list B) (b : B) :
  mapM f l = Ok l' -> b ∈ l' -> exists a, a ∈ l /\ f a = Ok b.
Proof.
  revert l'. induction l as [|x l IH]; intros l' H Hb.
  - injection H as <-. inversion Hb.
  - cbn [mapM] in H.
    destruct (f x) as [y|] eqn:Efx; [|discriminate]. cbn [bind] in H.
    destruct (mapM f l) as [ys|] eqn:El; [|discriminate]. cbn [bind] in H.
    injection H as <-. apply elem_of_cons in Hb as [->|Hb].
    + exists x. split; [left | exact Efx].
    + destruct (IH ys eq_refl Hb) as (a & Ha & Hfa).
      exists a. split; [now right | exact Hfa].
Qed.

(** The outlines of the returned feature carry the rows of the context. *)
Lemma read_feature_outline (c : Context) (f : FeatureModel (list string))
    (o : ScenarioOutlineModel (list string)) :
  read_feature c = Ok f -> Outline o ∈ scenarios f ->
  exists e, e ∈ scenarios (feature c) /\ entity_examples e = so_examples o.
Proof.
  unfold read_feature. intros H Ho.
  destruct (read_background _ _); [|discriminate]. cbn [bind] in H.
  destruct (mapM _ _) as [scs|] eqn:E; [|discriminate]. cbn [bind] in H.
  injection H as <-. cbn [scenarios] in Ho.
  destruct (mapM_elem _ _ _ _ E Ho) as (e & He & Hread).
  exists e. split; [exact He|].
  unfold read_entity in Hread. destruct e as [s|o'].
  - destruct (read_steps _ _); discriminate.
  - destruct (read_steps _ _); [|discriminate]. cbn [bind] in Hread.
    now injection Hread as <-.
Qed.

End TableZip.

Section TableZipTheorem.

Lemma numbered_column_parse :
  parseLines numbered_column =
    Ok {| name := ""; description := []; background := None;
          scenarios := [Outline numbered_column_outline] |}.
Proof. vm_compute. reflexivity. Qed.

(** A column named [1]: the row lists it before the column [name]. *)
Lemma table_zip_as_stated_fails :
  parseLines ["Scenario Outline: o"; "Examples:"; "| name | 1 |"; "| bob | x |"]
  = Ok {| name := ""; description := []; background := None;
          scenarios :=
            [Outline {| so_name := "o"; so_steps := [];
                        so_examples := [[("1", "x"); ("name", "bob")]];
                        so_tags := [] |}] |} /\
  parseTableRow "| name | 1 |" = ["name"; "1"] /\
  keys numbered_column_row = ["1"; "name"] /\
  ~ table_zip_as_stated.
Proof.
  split; [exact numbered_column_parse|]. split; [reflexivity|].
  split; [reflexivity|].
  intros H.
  destruct (H numbered_column _ numbered_column_outline numbered_column_row
              numbered_column_parse) as (hl & Hin & Hbar & Hkeys).
  - cbn. left.
  - cbn. left.
  - cbn in Hin. repeat (apply elem_of_cons in Hin as [->|Hin]);
      try (vm_compute in Hbar; discriminate);
      try (vm_compute in Hkeys; discriminate).
    inversion Hin.
Qed.

End TableZipTheorem.

(** ** Laws of the variable extraction *)

Section ExtractLaws.

Lemma of_nat_inj (n m : nat) : of_nat n = of_nat m -> n = m.
Proof.
  unfold of_nat. intros H.
  assert (E : Nat.to_uint n = Nat.to_uint m).
  { apply (f_equal NilEmpty.uint_of_string) in H.
    rewrite !NilEmpty.usu in H. congruence. }
  apply (f_equal Nat.of_uint) in E. now rewrite !DecimalNat.Unsigned.of_to in E.
Qed.

Lemma append_inj (p a b : string) : p +:+ a = p +:+ b -> a = b.
Proof. induction p as [|c p IH]; cbn; [auto | intros [= H]; auto]. Qed.

Lemma get_set_other {V} (k k' : string) (v : V) (o : obj V) :
  k <> k' -> get k (set k' v o) = get k o.
Proof.
  intros Hne. rewrite get_set. destruct (String.eqb k' "__proto__"); [reflexivity|].
  destruct (String.eqb_spec k k'); [contradiction | reflexivity].
Qed.

(** Storing from [index] on leaves every other key alone. *)
Lemma get_store_each_other (prefix : string) (val : string -> value)
    (l : list string) (index : nat) (variables : obj value) (k : string) :
  (forall j, j < length l -> k <> prefix +:+ of_nat (index + j + 1)) ->
  get k (store_each prefix val index l variables) = get k variables.
Proof.
  revert index variables.
  induction l as [|x l IH]; intros index variables Hk; [reflexivity|].
  cbn [store_each]. rewrite IH.
  - apply get_set_other. specialize (Hk 0 ltac:(cbn; lia)).
    now rewrite Nat.add_0_r in Hk.
  - intros j Hj. specialize (Hk (S j) ltac:(cbn; lia)).
    now replace (S index + j + 1) with (index + S j + 1) by lia.
Qed.

(** The [n]-th element is stored under the key numbered [index + n + 1]. *)
Lemma get_store_each (prefix : string) (val : string -> value)
    (l : list string) (index n : nat) (variables : obj value) :
  (forall s, prefix +:+ s <> "__proto__") ->
  get (prefix +:+ of_nat (index + n + 1)) (store_each prefix val index l variables) =
    match l !! n with
    | Some x => Some (val x)
    | None => get (prefix +:+ of_nat (index + n + 1)) variables
    end.
Proof.
  intros Hp. revert index n variables.
  induction l as [|x l IH]; intros index n variables; [reflexivity|].
  cbn [store_each]. destruct n as [|n].
  - cbn [lookup list_lookup]. rewrite get_store_each_other.
    + rewrite Nat.add_0_r, get_set.
      destruct (String.eqb_spec (prefix +:+ of_nat (index + 1)) "__proto__") as [E|_];
        [now apply Hp in E|].
      now rewrite String.eqb_refl.
    + intros j _ E. apply append_inj, of_nat_inj in E. lia.
  - replace (index + S n + 1) with (S index + n + 1) by lia.
    rewrite IH. cbn [lookup list_lookup].
    destruct (l !! n); [reflexivity|].
    apply get_set_other. intros E. apply append_inj, of_nat_inj in E. lia.
Qed.

Lemma NoDup_store_each (prefix : string) (val : string -> value)
    (l : list string) (index : nat) (variables : obj value) :
  NoDup (keys variables) ->
  NoDup (keys (store_each prefix val index l variables)).
Proof.
  revert index variables. induction l as [|x l IH]; intros index variables H;
    [exact H|].
  cbn [store_each]. apply IH. now apply NoDup_set.
Qed.

Lemma proto_store_each (prefix : string) (val : string -> value)
    (l : list string) (index : nat) (variables : obj value) :
  get "__proto__" variables = None ->
  get "__proto__" (store_each prefix val index l variables) = None.
Proof.
  revert index variables. induction l as [|x l IH]; intros index variables H;
    [exact H|].
  cbn [store_each]. apply IH. now apply get_proto_set.
Qed.

Lemma remove_dquotes_span (s : string) :
  remove_dquotes (fst (span not_dquote s)) = fst (span not_dquote s).
Proof.
  induction s as [|c s IH]; [reflexivity|]. cbn [span].
  destruct (not_dquote c) eqn:E; [|reflexivity].
  unfold not_dquote in E. apply negb_true_iff in E.
  destruct (span not_dquote s) as [a b]. cbn [fst remove_dquotes] in *.
  now rewrite E, IH.
Qed.

Lemma remove_dquotes_app (a b : string) :
  remove_dquotes (a +:+ b) = remove_dquotes a +:+ remove_dquotes b.
Proof.
  induction a as [|c a IH]; [reflexivity|].
  change (String c a +:+ b) with (String c (a +:+ b)).
  cbn [remove_dquotes]. destruct (Ascii.eqb c dquote); [exact IH|].
  change (String c (remove_dquotes a) +:+ remove_dquotes b)
    with (String c (remove_dquotes a +:+ remove_dquotes b)).
  now rewrite IH.
Qed.

Lemma append_empty_r (s : string) : s +:+ "" = s.
Proof.
  induction s as [|c s IH]; [reflexivity|].
  change (String c s +:+ "") with (String c (s +:+ "")). now rewrite IH.
Qed.

Lemma length_append (a b : string) :
  String.length (a +:+ b) = String.length a + String.length b.
Proof.
  induction a as [|c a IH]; [reflexivity|].
  change (String c a +:+ b) with (String c (a +:+ b)).
  cbn [String.length]. now rewrite IH.
Qed.

(** Past the last quote nothing matches. *)
Lemma scan_quoted_no_quote (s : string) (skip : nat) :
  snd (span not_dquote s) = EmptyString -> scan_quoted skip s = [].
Proof.
  revert skip. induction s as [|c s IH]; intros skip H; [reflexivity|].
  cbn [span] in H.
  destruct (not_dquote c) eqn:E; [|discriminate].
  unfold not_dquote in E. apply negb_true_iff in E.
  destruct (span not_dquote s) as [a b] eqn:Es. cbn [snd] in H, IH.
  cbn [scan_quoted]. destruct skip as [|k]; [|now apply IH].
  unfold match_quoted_at. rewrite E. now apply IH.
Qed.

End ExtractLaws.

(** ** Every numeral that is converted has the shape [Number] expects *)

Section NumeralShape.

Lemma span_digits_all (s : string) : all_digits (fst (span is_digit s)) = true.
Proof.
  induction s as [|c s IH]; [reflexivity|]. cbn [span].
  destruct (is_digit c) eqn:E; [|reflexivity].
  destruct (span is_digit s) as [a b]. cbn [fst all_digits] in *.
  now rewrite E, IH.
Qed.

Lemma span_stops (p : ascii -> bool) (s : string) :
  match snd (span p s) with
  | EmptyString => True
  | String c _ => p c = false
  end.
Proof.
  induction s as [|c s IH]; [exact I|]. cbn [span].
  destruct (p c) eqn:E; [|exact E].
  destruct (span p s) as [a b]. exact IH.
Qed.

(** A run of digits up to a character that is no digit is what [span]
    returns. *)
Lemma span_digits_app (a b : string) :
  all_digits a = true ->
  match b with EmptyString => True | String c _ => is_digit c = false end ->
  span is_digit (a +:+ b) = (a, b).
Proof.
  intros Ha Hb. induction a as [|c a IH].
  - destruct b as [|c b]; [reflexivity|]. cbn [String.append span].
    change (EmptyString +:+ String c b) with (String c b). cbn [span].
    now rewrite Hb.
  - change (String c a +:+ b) with (String c (a +:+ b)). cbn [span].
    cbn [all_digits] in Ha. apply andb_true_iff in Ha as [Hc Ha].
    now rewrite Hc, (IH Ha).
Qed.

Lemma binary64_not_NaN (n d : Z) : binary64 n d <> NaN.
Proof.
  unfold binary64. destruct (n =? 0)%Z; [discriminate|].
  cbv zeta.
  match goal with
  | |- context [if ?b then ((2 ^ 52)%Z, ?x) else ?y] => destruct b
  end;
    match goal with
    | |- context [(971 <? ?e)%Z] => destruct (971 <? e)%Z
    end; try discriminate;
    match goal with
    | |- context [(0 <=? ?e)%Z] => destruct (0 <=? e)%Z
    end; discriminate.
Qed.

(** What the number pattern matches is a numeral for [Number]. *)
Lemma match_number_at_Number (before : option ascii) (s m : string) :
  match_number_at before s = Some m -> Number m <> NaN.
Proof.
  unfold match_number_at.
  destruct (boundary before (first_char s)); [|discriminate].
  pose proof (span_digits_all s) as Hint.
  pose proof (span_stops is_digit s) as Hstop.
  destruct (span is_digit s) as [int rest]. cbn [fst snd] in Hint, Hstop.
  destruct int as [|i int]; [discriminate|].
  assert (Hwhole : Number (String i int) <> NaN).
  { unfold Number.
    rewrite <- (append_empty_r (String i int)) at 1.
    rewrite (span_digits_app (String i int) "" Hint I).
    apply binary64_not_NaN. }
  assert (Hshort :
            (if boundary (last_char None (String i int)) (first_char rest)
             then Some (String i int) else None) = Some m ->
            Number m <> NaN).
  { destruct (boundary _ _); [|discriminate]. now intros [= <-]. }
  destruct rest as [|r rest]; [exact Hshort|].
  destruct (Ascii.eqb r ".") eqn:Hr; [|exact Hshort].
  pose proof (span_digits_all rest) as Hfrac.
  destruct (span is_digit rest) as [frac after]. cbn [fst] in Hfrac.
  destruct frac as [|f frac]; [exact Hshort|].
  destruct (boundary (last_char None (String f frac)) (first_char after));
    [|exact Hshort].
  intros [= <-]. unfold Number.
  rewrite (span_digits_app (String i int) (String "." (String f frac)) Hint eq_refl).
  rewrite Hfrac. apply binary64_not_NaN.
Qed.

Lemma scan_number_Number (s : string) (skip : nat) (before : option ascii) :
  Forall (fun m => Number m <> NaN) (scan_number skip before s).
Proof.
  revert skip before. induction s as [|c s IH]; intros skip before; [constructor|].
  cbn [scan_number]. destruct skip as [|k]; [|apply IH].
  destruct (match_number_at before (String c s)) as [m|] eqn:E; [|apply IH].
  constructor; [now apply (match_number_at_Number before (String c s)) | apply IH].
Qed.

End NumeralShape.

(** ** The two patterns, unfolded *)

Section PatternsUnfolded.

Lemma run_re_Seq (r1 r2 : regex) (before : option ascii) (s : string)
    (k : option ascii -> string -> option string) :
  run_re (Seq r1 r2) before s k =
    run_re r1 before s (fun b s' => run_re r2 b s' k).
Proof. reflexivity. Qed.

Lemma run_re_Chr (c : ascii) (before : option ascii) (s : string)
    (k : option ascii -> string -> option string) :
  run_re (Chr c) before s k =
    match s with
    | String a s' => if Ascii.eqb a c then k (Some a) s' else None
    | EmptyString => None
    end.
Proof. reflexivity. Qed.

Lemma run_re_Opt (r : regex) (before : option ascii) (s : string)
    (k : option ascii -> string -> option string) :
  run_re (Opt r) before s k =
    match run_re r before s k with
    | Some rest => Some rest
    | None => k before s
    end.
Proof. reflexivity. Qed.

Lemma run_re_Boundary (before : option ascii) (s : string)
    (k : option ascii -> string -> option string) :
  run_re Boundary before s k =
    if boundary before (first_char s) then k before s else None.
Proof. reflexivity. Qed.

(** A greedy run over a character class: the fuel never runs out. *)
Lemma run_plus_class (p : ascii -> bool) (before : option ascii) (s : string)
    (k : option ascii -> string -> option string) :
  run_re (Plus (Class p)) before s k = plus_class p s k.
Proof.
  cbn [run_re].
  assert (H : forall fuel b,
             String.length s <= fuel ->
             (fix iterate (fuel : nat) (before : option ascii) (s : string)
                : option string :=
                match s with
                | String a s' =>
                    if p a then
                      match fuel with
                      | S fuel' =>
                          match iterate fuel' (Some a) s' with
                          | Some rest => Some rest
                          | None => k (Some a) s'
                          end
                      | O => k (Some a) s'
                      end
                    else None
                | EmptyString => None
                end) fuel b s = plus_class p s k).
  { induction s as [|c s IH]; intros fuel b Hle.
    - destruct fuel; reflexivity.
    - destruct fuel as [|fuel]; [cbn in Hle; lia|].
      cbn [plus_class]. destruct (p c); [|reflexivity].
      rewrite IH by (cbn in Hle; lia). reflexivity. }
  apply H. lia.
Qed.

Lemma take_chars_app (a b : string) :
  take_chars (String.length (a +:+ b) - String.length b) (a +:+ b) = a.
Proof.
  rewrite length_append.
  replace (String.length a + String.length b - String.length b)
    with (String.length a) by lia.
  induction a as [|c a IH]; [now destruct b|].
  change (String c a +:+ b) with (String c (a +:+ b)).
  cbn [String.length take_chars]. now rewrite IH.
Qed.

Lemma span_append (p : ascii -> bool) (s : string) :
  s = fst (span p s) +:+ snd (span p s).
Proof.
  induction s as [|c s IH]; [reflexivity|]. cbn [span].
  destruct (p c); [|reflexivity].
  destruct (span p s) as [a b]. cbn [fst snd] in *.
  change (String c a +:+ b) with (String c (a +:+ b)). now rewrite <- IH.
Qed.

Lemma append_assoc (a b c : string) : (a +:+ b) +:+ c = a +:+ (b +:+ c).
Proof.
  induction a as [|x a IH]; [reflexivity|].
  change (String x a +:+ b) with (String x (a +:+ b)).
  change (String x (a +:+ b) +:+ c) with (String x ((a +:+ b) +:+ c)).
  change (String x a +:+ (b +:+ c)) with (String x (a +:+ (b +:+ c))).
  now rewrite IH.
Qed.

(** After the opening quote: the longest run of other characters, then the
    closing quote; a shorter run is not followed by a quote. *)
Lemma plus_class_quote (s : string) :
  plus_class not_dquote s
    (fun b s1 => run_re (Chr dquote) b s1 (fun _ rest => Some rest))
  = match span not_dquote s with
    | (String _ _, String _ after) => Some after
    | _ => None
    end.
Proof.
  induction s as [|c s IH]; [reflexivity|].
  cbn [plus_class span]. destruct (not_dquote c) eqn:Hc; [|reflexivity].
  rewrite IH. clear IH.
  destruct s as [|x s]; [reflexivity|].
  rewrite run_re_Chr. cbn [span].
  destruct (not_dquote x) eqn:Hx; unfold not_dquote in Hx.
  - apply negb_true_iff in Hx. rewrite Hx.
    destruct (span not_dquote s) as [a b]. now destruct b.
  - apply negb_false_iff in Hx. rewrite Hx. reflexivity.
Qed.

Lemma match_at_quoted (before : option ascii) (s : string) :
  match_at quoted_pattern before s = match_quoted_at s.
Proof.
  unfold match_at, quoted_pattern, match_quoted_at.
  rewrite run_re_Seq, run_re_Chr.
  destruct s as [|c s]; [reflexivity|].
  destruct (Ascii.eqb_spec c dquote) as [->|Hc]; [|reflexivity].
  rewrite run_re_Seq, run_plus_class, plus_class_quote.
  pose proof (span_append not_dquote s) as Happ.
  pose proof (span_stops not_dquote s) as Hstop.
  destruct (span not_dquote s) as [body after]. cbn [fst snd] in Happ, Hstop.
  destruct body as [|b body]; [now destruct after|].
  destruct after as [|a after]; [reflexivity|].
  unfold not_dquote in Hstop. apply negb_false_iff, Ascii.eqb_eq in Hstop.
  subst a. f_equal.
  replace (String dquote s)
    with (String dquote (String b body +:+ String dquote "") +:+ after).
  - apply take_chars_app.
  - rewrite Happ.
    change (String dquote (String b body +:+ String dquote "") +:+ after)
      with (String dquote ((String b body +:+ String dquote "") +:+ after)).
    now rewrite append_assoc.
Qed.

Lemma scan_quoted_pattern (s : string) (skip : nat) (before : option ascii) :
  scan quoted_pattern skip before s = scan_quoted skip s.
Proof.
  revert skip before. induction s as [|c s IH]; intros skip before; [reflexivity|].
  cbn [scan scan_quoted]. destruct skip as [|k]; [|apply IH].
  rewrite match_at_quoted.
  destruct (match_quoted_at (String c s)); now rewrite IH.
Qed.

Lemma digit_word (c : ascii) : is_digit c = true -> is_word c = true.
Proof. unfold is_digit, is_word. intros ->. reflexivity. Qed.

Lemma digit_not_point (c : ascii) : is_digit c = true -> Ascii.eqb c "." = false.
Proof.
  intros H. destruct (Ascii.eqb_spec c ".") as [->|]; [discriminate H | reflexivity].
Qed.

(** A continuation that fails between two digits is reached once only,
    after the longest run of digits. *)
Lemma plus_class_digits (k : option ascii -> string -> option string)
    (s : string) :
  (forall d c s', is_digit d = true -> is_digit c = true ->
                  k (Some d) (String c s') = None) ->
  plus_class is_digit s k =
    match span is_digit s with
    | (String i int, rest) => k (last_char None (String i int)) rest
    | (EmptyString, _) => None
    end.
Proof.
  intros Hk. induction s as [|c s IH]; [reflexivity|].
  cbn [plus_class span]. destruct (is_digit c) eqn:Hc; [|reflexivity].
  rewrite IH. clear IH.
  destruct s as [|x s]; [reflexivity|].
  cbn [span]. destruct (is_digit x) eqn:Hx.
  - rewrite (Hk c x s Hc Hx).
    destruct (span is_digit s) as [a b]. cbn [last_char].
    now destruct (k (last_char (Some x) a) b).
  - reflexivity.
Qed.

Lemma boundary_digits (d c : ascii) :
  is_digit d = true -> is_digit c = true -> boundary (Some d) (Some c) = false.
Proof.
  intros Hd Hc. unfold boundary, word_at.
  now rewrite (digit_word d Hd), (digit_word c Hc).
Qed.

Lemma match_at_number (before : option ascii) (s : string) :
  match_at number_pattern before s = match_number_at before s.
Proof.
  unfold match_at, number_pattern, match_number_at.
  rewrite run_re_Seq, run_re_Boundary.
  destruct (boundary before (first_char s)); [|reflexivity].
  rewrite run_re_Seq, run_plus_class.
  assert (Hend : forall d c s',
             is_digit d = true -> is_digit c = true ->
             run_re Boundary (Some d) (String c s') (fun _ rest => Some rest) = None).
  { intros d c s' Hd Hc. rewrite run_re_Boundary. cbn [first_char].
    now rewrite boundary_digits. }
  rewrite plus_class_digits.
  2:{ intros d c s' Hd Hc. rewrite run_re_Seq, run_re_Opt, run_re_Seq, run_re_Chr.
      rewrite (digit_not_point c Hc). now apply Hend. }
  pose proof (span_append is_digit s) as Happ.
  destruct (span is_digit s) as [int rest]. cbn [fst snd] in Happ.
  destruct int as [|i int]; [reflexivity|].
  rewrite run_re_Seq, run_re_Opt, run_re_Seq, run_re_Chr, run_re_Boundary.
  assert (Hshort :
            match
              (if boundary (last_char None (String i int)) (first_char rest)
               then Some rest else None)
            with
            | Some rest0 =>
                Some (take_chars (String.length s - String.length rest0) s)
            | None => None
            end
            = (if boundary (last_char None (String i int)) (first_char rest)
               then Some (String i int) else None)).
  { destruct (boundary _ _); [|reflexivity]. f_equal. rewrite Happ.
    apply take_chars_app. }
  destruct rest as [|a rest]; [exact Hshort|].
  destruct (Ascii.eqb_spec a ".") as [->|Ha]; [|exact Hshort].
  rewrite run_plus_class, (plus_class_digits _ rest Hend).
  pose proof (span_append is_digit rest) as Happ'.
  destruct (span is_digit rest) as [frac after]. cbn [fst snd] in Happ'.
  destruct frac as [|f frac]; [exact Hshort|].
  rewrite run_re_Boundary.
  destruct (boundary (last_char None (String f frac)) (first_char after));
    [|exact Hshort].
  f_equal. rewrite Happ, Happ'.
  replace (String i int +:+ String "." (String f frac +:+ after))
    with ((String i int +:+ String "." (String f frac)) +:+ after).
  - apply take_chars_app.
  - rewrite append_assoc. reflexivity.
Qed.

Lemma scan_number_pattern (s : string) (skip : nat) (before : option ascii) :
  scan number_pattern skip before s = scan_number skip before s.
Proof.
  revert skip before. induction s as [|c s IH]; intros skip before; [reflexivity|].
  cbn [scan scan_number]. destruct skip as [|k]; [|apply IH].
  rewrite match_at_number.
  destruct (match_number_at before (String c s)); now rewrite IH.
Qed.

End PatternsUnfolded.

(** ** The variables of a step *)

Section ExtractedVariables.

(** The variables of a step, whatever the matches: the two stores, one
    after the other, on the empty object. *)
Lemma extractVariablesFromStep_stores (step : string) :
  extractVariablesFromStep step =
    store_each "num" (fun num => VNumber (Number num)) 0 (scan_number 0 None step)
      (store_each "key" (fun m => VString (remove_dquotes m)) 0
                  (scan_quoted 0 step) []).
Proof.
  unfold extractVariablesFromStep, match_all.
  rewrite scan_quoted_pattern, scan_number_pattern.
  destruct (scan_quoted 0 step); destruct (scan_number 0 None step); reflexivity.
Qed.

Lemma extracted_NoDup (step : string) :
  NoDup (keys (extractVariablesFromStep step)).
Proof.
  rewrite extractVariablesFromStep_stores.
  apply NoDup_store_each, NoDup_store_each. constructor.
Qed.

Lemma extracted_no_proto (step : string) :
  get "__proto__" (extractVariablesFromStep step) = None.
Proof.
  rewrite extractVariablesFromStep_stores.
  apply proto_store_each, proto_store_each. reflexivity.
Qed.

(** The [n]-th quoted match, quotes removed, is the value of the key
    numbered [n + 1]. *)
Lemma get_key (step : string) (n : nat) :
  get ("key" +:+ of_nat (n + 1)) (extractVariablesFromStep step) =
    (fun m => VString (remove_dquotes m)) <$> (scan_quoted 0 step !! n).
Proof.
  rewrite extractVariablesFromStep_stores.
  rewrite get_store_each_other by (intros j _; discriminate).
  rewrite (get_store_each "key" _ _ 0 n) by (intros s; discriminate).
  destruct (scan_quoted 0 step !! n); reflexivity.
Qed.

End ExtractedVariables.

(** ** C4 and C5: what the extraction captures *)

Section QuotedCapture.

(** When no quoted substring is empty, the pattern finds them all. *)
Lemma scan_quoted_spec (s : string) (skip : nat) :
  Forall (fun body => body <> EmptyString) (quoted_substrings_from skip s) ->
  map remove_dquotes (scan_quoted skip s) = quoted_substrings_from skip s.
Proof.
  revert skip. induction s as [|c s IH]; intros skip Hall; [reflexivity|].
  cbn [scan_quoted quoted_substrings_from] in *.
  destruct skip as [|k]; [|now apply IH].
  unfold match_quoted_at.
  destruct (Ascii.eqb c dquote) eqn:E; [|now apply IH].
  pose proof (remove_dquotes_span s) as Hbody.
  pose proof (scan_quoted_no_quote s 0) as Hnone.
  destruct (span not_dquote s) as [body after]. cbn [fst snd] in Hbody, Hnone.
  destruct after as [|a after].
  - rewrite (Hnone eq_refl). now destruct body.
  - destruct body as [|b body].
    + inversion Hall as [|? ? Hne _]. congruence.
    + inversion Hall as [|? ? _ Hrest]; subst.
      cbn [map]. f_equal.
      * cbn [remove_dquotes]. rewrite Ascii.eqb_refl.
        rewrite remove_dquotes_app, Hbody. cbn [remove_dquotes].
        rewrite Ascii.eqb_refl. apply append_empty_r.
      * replace (String.length
                   (String dquote (String b body +:+ String dquote "")) - 1)
          with (S (String.length (String b body))).
        { now apply IH. }
        cbn [String.length]. rewrite length_append. cbn [String.length]. lia.
Qed.

(** C4.  On the step that gives a user name and a password between double
    quotes, the extraction returns exactly the mapping of [key1] to
    [john_doe] and of [key2] to [secret123], without any [num] key; on the
    step with the count 42 and the ratio 3.5 it returns exactly the mapping
    of [num1] to the number 42 and of [num2] to the number 3.5. *)
Theorem extraction_examples :
  extractVariablesFromStep
    ("Given a user with username " +:+ quoted "john_doe" +:+ " and password "
     +:+ quoted "secret123")
  = [("key1", VString "john_doe"); ("key2", VString "secret123")] /\
  extractVariablesFromStep "Then the count is 42 and the ratio is 3.5"
  = [("num1", VNumber (Finite (42 # 1))); ("num2", VNumber (Finite (7 # 2)))] /\
  (7 # 2 == 35 # 10)%Q.
Proof. split; [|split]; vm_compute; reflexivity. Qed.

(** An empty pair of quotes: a quoted substring, and no variable. *)
Lemma quoted_capture_as_stated_fails :
  spec_quoted_substrings ("Given " +:+ quoted "") = [""] /\
  extractVariablesFromStep ("Given " +:+ quoted "") = [] /\
  ~ quoted_capture_as_stated.
Proof.
  split; [reflexivity|]. split; [reflexivity|].
  intros H.
  specialize (H ("Given " +:+ quoted "") 0 "" eq_refl).
  vm_compute in H. discriminate.
Qed.

(** C5, amended.  In a step none of whose double-quoted substrings is
    empty, every double-quoted substring is captured, left to right: the
    [n]-th one (counting from 1), without its quotes, is the value of the
    key [key] followed by [n], and there is no such key past the last
    one. *)
Theorem quoted_substrings_captured (step : string) (n : nat) :
  Forall (fun body => body <> EmptyString) (spec_quoted_substrings step) ->
  get ("key" +:+ of_nat (n + 1)) (extractVariablesFromStep step)
  = VString <$> (spec_quoted_substrings step !! n).
Proof.
  intros Hall. rewrite get_key.
  unfold spec_quoted_substrings in *.
  rewrite <- (scan_quoted_spec step 0 Hall).
  rewrite list_lookup_fmap. now destruct (scan_quoted 0 step !! n).
Qed.

Lemma quoted_substrings_captured_witness :
  get "key2" (extractVariablesFromStep
                ("When " +:+ quoted "a" +:+ " meets " +:+ quoted "b c"))
  = Some (VString "b c").
Proof.
  refine (quoted_substrings_captured
            ("When " +:+ quoted "a" +:+ " meets " +:+ quoted "b c") 1 _).
  repeat constructor; discriminate.
Defined.

End QuotedCapture.

(** ** C7 and C8: the generated lines *)

Section GeneratorTheorems.

Variable NumberToString : Q -> string.

Lemma emit_scenario_app (lines : list string) (e : Entity (list string)) :
  emit_scenario NumberToString lines e =
    lines ++ emit_scenario NumberToString [] e.
Proof.
  unfold emit_scenario. destruct e as [s|o]; cbn [app];
    rewrite <- ?app_assoc; reflexivity.
Qed.

Lemma fold_emit_scenario (scs : list (Entity (list string))) (lines : list string) :
  fold_left (emit_scenario NumberToString) scs lines =
    lines ++ scenario_cases NumberToString scs.
Proof.
  unfold scenario_cases. revert lines.
  induction scs as [|e scs IH]; intros lines; cbn [fold_left map concat].
  - now rewrite app_nil_r.
  - rewrite IH, emit_scenario_app, <- app_assoc. reflexivity.
Qed.

Lemma proto_assign (sources : list (obj value)) (target : obj value) :
  get "__proto__" target = None ->
  get "__proto__" (assign target sources) = None.
Proof.
  unfold assign. revert target.
  induction sources as [|source sources IH]; intros target Ht; [exact Ht|].
  cbn [fold_left]. apply IH. unfold assign_one. revert target Ht.
  induction source as [|[k v] source IHs]; intros target Ht; [exact Ht|].
  cbn [fold_left]. apply IHs. now apply get_proto_set.
Qed.

Lemma merged_variables_get (steps : list string) (k : string) :
  get k (merged_variables steps) =
    last_defined k (map extractVariablesFromStep steps).
Proof.
  unfold merged_variables.
  assert (Hnd : Forall (fun s : obj value => NoDup (keys s))
                       (map extractVariablesFromStep steps)).
  { apply Forall_fmap, Forall_forall. intros step _. apply extracted_NoDup. }
  destruct (String.eqb_spec k "__proto__") as [->|Hne].
  - clear Hnd. transitivity (@None value).
    + now apply proto_assign.
    + symmetry. induction steps as [|step steps IH]; [reflexivity|].
      cbn [map last_defined]. rewrite IH. apply extracted_no_proto.
  - rewrite (get_assign k [] _ Hne Hnd).
    now destruct (last_defined k (map extractVariablesFromStep steps)).
Qed.

End GeneratorTheorems.

Section GeneratorClaims.

Variable NumberToString : Q -> string.

Lemma emit_background_app (f : FeatureModel (list string)) (lines : list string) :
  emit_background NumberToString f lines =
    lines ++ emit_background NumberToString f [].
Proof.
  unfold emit_background. destruct (background f) as [bg|]; [|now rewrite app_nil_r].
  destruct (Nat.ltb 0 (length (bg_steps bg))); [|now rewrite app_nil_r].
  cbn [app]. rewrite <- ?app_assoc. reflexivity.
Qed.

Lemma generate_lines_shape (f : FeatureModel (list string)) :
  generate_lines NumberToString f =
    preamble f ++ emit_background NumberToString f []
      ++ scenario_cases NumberToString (scenarios f) ++ ["});"].
Proof.
  unfold generate_lines. rewrite fold_emit_scenario, emit_background_app.
  cbn [app]. unfold preamble. cbn [app]. rewrite <- ?app_assoc. reflexivity.
Qed.

(** C7.  A background with at least one step gives one test case, right
    after the preamble: its title is [Background: ] followed by the first
    step, its body has every step as a comment line, in order, then the data
    line, whose value merges the variables of the steps, a later step
    winning on a key both have.  Without background, or with a background
    without steps, the scenario cases follow the preamble immediately. *)
Theorem background_test_case (f : FeatureModel (list string)) :
  (forall bg first more,
      background f = Some bg -> bg_steps bg = first :: more ->
      generate_lines NumberToString f =
        preamble f
        ++ ["  it('Background: " +:+ first +:+ "', async () => {"]
        ++ map (fun step => "    // " +:+ step) (first :: more)
        ++ [ "";
             "    const data = "
               +:+ JSON_stringify (json_value NumberToString)
                                  (merged_variables (first :: more))
               +:+ ";";
             "  });";
             "" ]
        ++ scenario_cases NumberToString (scenarios f) ++ ["});"]) /\
  ((background f = None \/
    exists bg, background f = Some bg /\ bg_steps bg = []) ->
   generate_lines NumberToString f =
     preamble f ++ scenario_cases NumberToString (scenarios f) ++ ["});"]) /\
  (forall steps k,
      get k (merged_variables steps) =
        last_defined k (map extractVariablesFromStep steps)).
Proof.
  split; [|split].
  - intros bg first more Hbg Hsteps. rewrite generate_lines_shape.
    unfold emit_background. rewrite Hbg, Hsteps.
    cbn [length Nat.ltb Nat.leb app first_step lookup list_lookup].
    rewrite <- ?app_assoc. reflexivity.
  - intros H. rewrite generate_lines_shape. unfold emit_background.
    destruct H as [->|(bg & -> & ->)]; reflexivity.
  - apply merged_variables_get.
Qed.

(** C8.  The generator returns for every feature: the preamble, a body and
    the closing of the group.  For the empty feature the body is empty. *)
Theorem generator_total :
  (forall f, exists body,
      generate_lines NumberToString f = preamble f ++ body ++ ["});"] /\
      generateMochaTests NumberToString f =
        join newline (preamble f ++ body ++ ["});"])) /\
  generate_lines NumberToString new_feature =
    [ "const { mocha } = require('mocha');";
      "const { expect } = require('chai');";
      "";
      "describe('Feature: ', function () {";
      "});" ] /\
  generateMochaTests NumberToString new_feature =
    "const { mocha } = require('mocha');" +:+ newline
    +:+ "const { expect } = require('chai');" +:+ newline
    +:+ newline
    +:+ "describe('Feature: ', function () {" +:+ newline
    +:+ "});".
Proof.
  split; [|split].
  - intros f.
    exists (emit_background NumberToString f []
            ++ scenario_cases NumberToString (scenarios f)).
    unfold generateMochaTests. rewrite generate_lines_shape, <- !app_assoc.
    split; reflexivity.
  - reflexivity.
  - reflexivity.
Qed.

End GeneratorClaims.

Lemma background_test_case_witness :
  generate_lines (fun _ : Q => "2")
    {| name := "f"; description := [];
       background := Some (mkBackground ["Given 1 thing"; "And 2 things"]);
       scenarios := [] |}
  = [ "const { mocha } = require('mocha');";
      "const { expect } = require('chai');";
      "";
      "describe('Feature: f', function () {";
      "  it('Background: Given 1 thing', async () => {";
      "    // Given 1 thing";
      "    // And 2 things";
      "";
      "    const data = "
        +:+ JSON_stringify (json_value (fun _ : Q => "2"))
              [("num1", VNumber (Finite (2 # 1)))]
        +:+ ";";
      "  });";
      "";
      "});" ].
Proof.
  exact (proj1 (background_test_case (fun _ : Q => "2")
                  {| name := "f"; description := [];
                     background := Some (mkBackground ["Given 1 thing"; "And 2 things"]);
                     scenarios := [] |})
               (mkBackground ["Given 1 thing"; "And 2 things"])
               "Given 1 thing" ["And 2 things"] eq_refl eq_refl).
Defined.

(** * Further properties of the code *)

(** ** Splitting and table rows *)

Section TableRows.

Lemma append_cons (c : ascii) (a b : string) :
  String c a +:+ b = String c (a +:+ b).
Proof. reflexivity. Qed.

Lemma split_fields_no_sep (sep : ascii) (s : string) :
  has_char (fun c => Ascii.eqb c sep) s = false ->
  split_fields sep s = (s, []).
Proof.
  induction s as [|c s IH]; [reflexivity|]. cbn [has_char split_fields].
  intros H. apply orb_false_iff in H as [Hc Hs].
  now rewrite (IH Hs), Hc.
Qed.

(** Splitting at a separator splits both sides. *)
Lemma split_app (sep : ascii) (a b : string) :
  split sep (a +:+ String sep b) = split sep a ++ split sep b.
Proof.
  unfold split. induction a as [|c a IH].
  - cbn [String.append split_fields]. change ("" +:+ String sep b) with (String sep b).
    cbn [split_fields]. rewrite Ascii.eqb_refl.
    now destruct (split_fields sep b).
  - rewrite append_cons. cbn [split_fields].
    destruct (split_fields sep (a +:+ String sep b)) as [x xs].
    destruct (split_fields sep a) as [y ys].
    destruct (split_fields sep b) as [z zs].
    cbn [app] in IH. injection IH as -> ->.
    now destruct (Ascii.eqb c sep).
Qed.

Lemma split_no_sep (sep : ascii) (s : string) :
  has_char (fun c => Ascii.eqb c sep) s = false -> split sep s = [s].
Proof. intros H. unfold split. now rewrite split_fields_no_sep. Qed.

Lemma split_nonempty (sep : ascii) (s : string) : split sep s <> [].
Proof. unfold split. now destruct (split_fields sep s). Qed.

Lemma slice_1_m1_snoc {A} (l : list A) (x y : A) :
  l <> [] -> slice_1_m1 (l ++ [x]) = slice_1_m1 (l ++ [y]).
Proof.
  intros Hl. unfold slice_1_m1. destruct l as [|a l]; [contradiction|].
  cbn [app tl]. now rewrite !removelast_last.
Qed.

Lemma has_char_app (p : ascii -> bool) (a b : string) :
  has_char p (a +:+ b) = (has_char p a || has_char p b)%bool.
Proof.
  induction a as [|c a IH]; [reflexivity|].
  rewrite append_cons. cbn [has_char]. now rewrite IH, orb_assoc.
Qed.

Lemma split_fields_lack_sep (sep : ascii) (s : string) :
  Forall (fun f => has_char (fun c => Ascii.eqb c sep) f = false) (split sep s).
Proof.
  unfold split. induction s as [|c s IH]; [repeat constructor|].
  cbn [split_fields]. destruct (split_fields sep s) as [x xs].
  inversion IH as [|? ? Hx Hxs]; subst.
  destruct (Ascii.eqb c sep) eqn:E.
  - constructor; [reflexivity | now constructor].
  - constructor; [|exact Hxs]. cbn [has_char]. now rewrite E, Hx.
Qed.

Lemma has_char_trimStart (p : ascii -> bool) (s : string) :
  has_char p s = false -> has_char p (trimStart s) = false.
Proof.
  induction s as [|c s IH]; [reflexivity|]. cbn [trimStart].
  destruct (is_space c); [|auto]. cbn [has_char]. intros H.
  apply orb_false_iff in H as [_ H]. auto.
Qed.

Lemma has_char_trimEnd (p : ascii -> bool) (s : string) :
  has_char p s = false -> has_char p (trimEnd s) = false.
Proof.
  induction s as [|c s IH]; [reflexivity|]. cbn [has_char trimEnd].
  intros H. apply orb_false_iff in H as [Hc Hs]. specialize (IH Hs).
  destruct (trimEnd s).
  - destruct (is_space c); [reflexivity|]. cbn [has_char]. now rewrite Hc.
  - cbn [has_char] in *. now rewrite Hc, IH.
Qed.

Lemma Forall_slice_1_m1 {A} (P : A -> Prop) (l : list A) :
  Forall P l -> Forall P (slice_1_m1 l).
Proof.
  intros H. unfold slice_1_m1. destruct l as [|a l]; [constructor|].
  inversion H as [|? ? _ Hl]; subst. cbn [tl]. clear H.
  induction Hl as [|x l Hx Hl IH]; [constructor|].
  cbn [removelast]. destruct l; [constructor|]. constructor; auto.
Qed.

Lemma trimEnd_snoc_space (s : string) : trimEnd (s +:+ " ") = trimEnd s.
Proof.
  induction s as [|c s IH]; [reflexivity|].
  rewrite append_cons. cbn [trimEnd]. now rewrite IH.
Qed.

(** A trimmed cell between two spaces trims back to itself. *)
Lemma trim_pad (cell : string) : trim cell = cell -> trim (" " +:+ cell +:+ " ") = cell.
Proof.
  intros H. destruct (trim_fixed cell H) as [Hs _].
  assert (Hstart : trimStart cell = cell).
  { destruct cell as [|x cell]; [reflexivity|].
    cbn [starts_with_space] in Hs. cbn [trimStart]. now rewrite Hs. }
  assert (Hend : trimEnd cell = cell).
  { unfold trim in H. now rewrite Hstart in H. }
  unfold trim. change (" " +:+ cell +:+ " ") with (String " " (cell +:+ " ")).
  cbn [trimStart]. change (is_space " ") with true. cbv iota.
  destruct cell as [|x cell]; [reflexivity|].
  rewrite append_cons. cbn [trimStart].
  cbn [starts_with_space] in Hs. rewrite Hs.
  rewrite <- append_cons, trimEnd_snoc_space. exact Hend.
Qed.

Lemma split_render_cells (cells : list string) :
  Forall (fun c => has_char is_pipe c = false) cells ->
  split "|" (render_cells cells) = map (fun c => " " +:+ c +:+ " ") cells ++ [""].
Proof.
  induction 1 as [|c cells Hc _ IH]; [reflexivity|].
  cbn [render_cells map app].
  replace (" " +:+ c +:+ " |" +:+ render_cells cells)
    with ((" " +:+ c +:+ " ") +:+ String "|" (render_cells cells)).
  - rewrite split_app, IH, split_no_sep; [reflexivity|].
    rewrite !has_char_app. unfold is_pipe in Hc. now rewrite Hc.
  - rewrite !append_assoc. reflexivity.
Qed.

End TableRows.

(** X1.  A row written as a pipe followed by every cell between two spaces
    and a pipe reads back as its cells, when the cells are trimmed and hold
    no pipe. *)
Theorem parseTableRow_render_row (cells : list string) :
  Forall (fun c => trim c = c /\ has_char is_pipe c = false) cells ->
  parseTableRow (render_row cells) = cells.
Proof.
  intros H. unfold parseTableRow, render_row.
  change ("|" +:+ render_cells cells) with ("" +:+ String "|" (render_cells cells)).
  rewrite split_app, split_render_cells.
  2:{ eapply Forall_impl; [exact H|]. now intros c [_ Hc]. }
  change (split "|" "") with [""]. unfold slice_1_m1. cbn [app tl].
  rewrite removelast_last.
  induction H as [|c cells [Hc _] _ IH]; [reflexivity|].
  cbn [map]. now rewrite IH, trim_pad.
Qed.

Lemma parseTableRow_render_row_witness :
  parseTableRow (render_row ["username"; ""; "a b"]) = ["username"; ""; "a b"].
Proof.
  apply parseTableRow_render_row. repeat constructor.
Defined.

(** X2.  What follows the last pipe of a row is not a cell: it is dropped,
    so a row that lacks its closing pipe loses its last cell. *)
Theorem parseTableRow_drops_after_last_pipe (row junk : string) :
  has_char is_pipe junk = false ->
  parseTableRow (row +:+ String "|" junk) = parseTableRow (row +:+ "|").
Proof.
  intros H. unfold parseTableRow.
  change (row +:+ "|") with (row +:+ String "|" "").
  rewrite !split_app, (split_no_sep "|" junk H).
  change (split "|" "") with [""].
  f_equal. apply slice_1_m1_snoc, split_nonempty.
Qed.

Lemma parseTableRow_drops_after_last_pipe_witness :
  parseTableRow "| a | b" = parseTableRow "| a |".
Proof.
  exact (parseTableRow_drops_after_last_pipe "| a " " b" eq_refl).
Defined.

(** X3.  Every cell that [parseTableRow] returns is trimmed and holds no
    pipe. *)
Theorem parseTableRow_cells (line : string) :
  Forall (fun c => trim c = c /\ has_char is_pipe c = false) (parseTableRow line).
Proof.
  unfold parseTableRow. apply Forall_fmap.
  apply Forall_slice_1_m1.
  eapply Forall_impl; [apply (split_fields_lack_sep "|" line)|].
  intros c Hc. cbn. split; [apply trim_idem|].
  unfold trim. now apply has_char_trimEnd, has_char_trimStart.
Qed.

(** X4.  The cells of a data row beyond the last header are ignored. *)
Theorem make_row_ignores_extra_cells (hs cells extra : list string) :
  length hs <= length cells ->
  make_row hs (cells ++ extra) = make_row hs cells.
Proof.
  intros H. unfold make_row.
  assert (Hgen : forall hs i row,
             i + length hs <= length cells ->
             zip_headers i hs (cells ++ extra) row = zip_headers i hs cells row).
  { clear. intros hs. induction hs as [|h hs IH]; intros i row H; [reflexivity|].
    cbn [zip_headers length] in *. rewrite IH by lia.
    unfold cell_or_empty. rewrite lookup_app_l by lia. reflexivity. }
  apply Hgen. lia.
Qed.

Lemma make_row_ignores_extra_cells_witness :
  make_row ["a"; "b"] (["1"; "2"] ++ ["3"; "4"]) = [("a", "1"); ("b", "2")].
Proof.
  exact (make_row_ignores_extra_cells ["a"; "b"] ["1"; "2"] ["3"; "4"]
           (le_n 2)).
Defined.

(** ** The lines of a file *)

Section FileLines.

Lemma split_join (lines : list string) :
  lines <> [] ->
  Forall (fun l => has_char is_newline l = false) lines ->
  split (ascii_of_nat 10) (join newline lines) = lines.
Proof.
  intros Hne H. induction H as [|l lines Hl Hrest IH]; [contradiction|].
  destruct lines as [|l' lines].
  - cbn [join]. now apply split_no_sep.
  - assert (E : join newline (l :: l' :: lines)
                = l +:+ String (ascii_of_nat 10) (join newline (l' :: lines)))
      by reflexivity.
    rewrite E, split_app, IH by discriminate.
    now rewrite (split_no_sep _ l Hl).
Qed.

Lemma process_blank (c : Context) :
  inDocString c = false -> process_line c "" = Ok c.
Proof. intros H. rewrite process_line_unrolled, H. reflexivity. Qed.

(** A line that is no fence leaves the doc-string flag alone. *)
Lemma process_line_doc_flag (c c' : Context) (line : string) :
  startsWith line fence = false ->
  process_line c line = Ok c' -> inDocString c' = inDocString c.
Proof.
  intros Hf. rewrite process_line_unrolled, Hf.
  assert (Hpush : push_collector line c = Ok c' -> inDocString c' = inDocString c).
  { unfold push_collector. cbv zeta.
    destruct (store c !! currentStepCollector c); [|discriminate].
    now intros [= <-]. }
  destruct (inDocString c) eqn:Hdoc; [exact Hpush|].
  repeat match goal with
    | |- (if ?b then _ else _) = _ -> _ =>
        destruct b; [intros [= <-]; exact Hdoc|]
    end.
  destruct (startsWith line "|").
  { unfold on_table_row. destruct (Nat.eqb _ _); [intros [= <-]; exact Hdoc|].
    destruct (currentScenario c) as [i|]; [|intros [= <-]; exact Hdoc].
    destruct (scenarios (feature c) !! i) as [[s|o]|]; [| |discriminate];
      intros [= <-]; exact Hdoc. }
  destruct (isStepLine line); [exact Hpush|].
  destruct (truthy line && mode_is_none (mode c))%bool; intros [= <-]; exact Hdoc.
Qed.

Lemma run_doc_flag (lines : list string) (c c' : Context) :
  fence_free lines -> run c lines = Ok c' -> inDocString c' = inDocString c.
Proof.
  revert c. induction lines as [|l lines IH]; intros c Hf Hrun.
  - now injection Hrun as <-.
  - inversion Hf as [|? ? Hl Hrest]; subst. cbn [run] in Hrun.
    destruct (process_line c l) as [c1|] eqn:E; [|discriminate].
    cbn [bind] in Hrun. rewrite (IH c1 Hrest Hrun).
    now apply (process_line_doc_flag c c1 l).
Qed.

Lemma run_skip_blank (lines : list string) (c : Context) :
  inDocString c = false -> fence_free lines ->
  run c (filter (fun l => l <> "") lines) = run c lines.
Proof.
  revert c. induction lines as [|l lines IH]; intros c Hdoc Hf; [reflexivity|].
  inversion Hf as [|? ? Hl Hrest]; subst. rewrite filter_cons.
  destruct (decide (l <> "")) as [Hne|He].
  - cbn [run]. destruct (process_line c l) as [c1|] eqn:E; [|reflexivity].
    cbn [bind]. apply IH; [|exact Hrest].
    rewrite (process_line_doc_flag c c1 l Hl E). exact Hdoc.
  - assert (l = "") as -> by (destruct (decide (l = "")); [assumption | contradiction]).
    cbn [run]. rewrite (process_blank c Hdoc). cbn [bind]. now apply IH.
Qed.

End FileLines.

(** X5.  [parseFeature] on lines joined by line breaks is the parse of
    these lines, when no line holds a line break. *)
Theorem parseFeature_join (lines : list string) :
  Forall (fun l => has_char is_newline l = false) lines ->
  parseFeature (join newline lines) = parseLines lines.
Proof.
  intros H. unfold parseFeature. destruct lines as [|l lines].
  - vm_compute. reflexivity.
  - now rewrite split_join.
Qed.

Lemma parseFeature_join_witness :
  parseFeature (join newline ["Feature: f"; "  Scenario: s"; "    Given a"])
  = parseLines ["Feature: f"; "  Scenario: s"; "    Given a"].
Proof. apply parseFeature_join. repeat constructor. Defined.

(** X6.  In an input without doc-string fence, lines that are blank once
    trimmed have no effect on the feature that is returned. *)
Theorem blank_lines_are_ignored (raw : list string) :
  fence_free (map trim raw) ->
  parseLines (filter (fun r => trim r <> "") raw) = parseLines raw.
Proof.
  intros Hf. unfold parseLines.
  assert (E : map trim (filter (fun r => trim r <> "") raw)
              = filter (fun l => l <> "") (map trim raw)).
  { clear. induction raw as [|r raw IH]; [reflexivity|].
    cbn [map]. rewrite !filter_cons.
    destruct (decide (trim r <> "")); cbn [map]; now rewrite IH. }
  rewrite E, run_skip_blank; [reflexivity | reflexivity | exact Hf].
Qed.

Lemma blank_lines_are_ignored_witness :
  parseLines (filter (fun r => trim r <> "") ["Feature: f"; "   "; ""; "Scenario: s"])
  = parseLines ["Feature: f"; "   "; ""; "Scenario: s"].
Proof. apply blank_lines_are_ignored. repeat constructor. Defined.

(** ** Inputs without doc string: the lines by kind *)

Ltac starts_eval :=
  repeat match goal with
    | |- context [startsWith ?l ?p] =>
        let b := eval cbv in (startsWith l p) in
        match b with
        | true => change (startsWith l p) with true
        | false => change (startsWith l p) with false
        end
    end;
  cbv iota.

Section LinesByKind.

(** One line, outside a doc string, by its kind. *)
Lemma process_plain (c : Context) (line : string) :
  startsWith line fence = false -> inDocString c = false ->
  process_line c line =
    match classify line with
    | KTag => Ok (set_pendingTags (map trim (split_ws line)) c)
    | KFeature => Ok (on_Feature line c)
    | KBackground => Ok (on_Background line c)
    | KOutline => Ok (on_ScenarioOutline line c)
    | KScenario => Ok (on_Scenario line c)
    | KExamples => Ok (on_Examples line c)
    | KRule => Ok (on_Rule line c)
    | KTable => on_table_row line c
    | KStep => push_collector line c
    | KText =>
        if mode_is_none (mode c) then
          Ok (set_feature
                (set_description (description (feature c) ++ [line]) (feature c)) c)
        else Ok c
    | KBlank => Ok c
    end.
Proof.
  intros Hf Hdoc. rewrite process_line_unrolled, Hf, Hdoc. unfold classify.
  repeat match goal with
    | |- (if ?b then _ else _) = _ => destruct b; [reflexivity|]
    end.
  destruct (truthy line); reflexivity.
Qed.

Lemma classify_step (line : string) :
  isStepLine line = true <-> classify line = KStep.
Proof.
  split.
  - intros H. unfold classify. rewrite H.
    destruct (isStepLine_inv _ H) as (kw & rest & Hin & ->).
    cbn in Hin. destruct Hin as [<-|[<-|[<-|[<-|[<-|[]]]]]];
      starts_eval; reflexivity.
  - unfold classify.
    repeat match goal with
      | |- (if ?b then _ else _) = _ -> _ => destruct b eqn:?; [discriminate|]
      end.
    destruct (isStepLine line); [reflexivity|].
    destruct (truthy line); discriminate.
Qed.

Lemma startsWith_self (p rest : string) : startsWith (p +:+ rest) p = true.
Proof.
  unfold startsWith. induction p as [|c p IH]; [now destruct rest|].
  rewrite append_cons. cbn [String.prefix].
  destruct (ascii_dec c c); [exact IH | contradiction].
Qed.

Lemma classify_Outline (line : string) :
  startsWith line "Scenario Outline:" = true <-> classify line = KOutline.
Proof.
  split.
  - intros H. destruct (startsWith_app _ _ H) as [rest ->].
    unfold classify. rewrite (startsWith_self "Scenario Outline:" rest).
    starts_eval. reflexivity.
  - unfold classify.
    destruct (startsWith line "@"); [discriminate|].
    destruct (startsWith line "Feature:"); [discriminate|].
    destruct (startsWith line "Background:"); [discriminate|].
    destruct (startsWith line "Scenario Outline:"); [reflexivity|].
    repeat match goal with
      | |- (if ?b then _ else _) = _ -> _ => destruct b; [discriminate|]
      end.
    destruct (truthy line); discriminate.
Qed.

Lemma classify_Scenario (line : string) :
  startsWith line "Scenario:" = true <-> classify line = KScenario.
Proof.
  split.
  - intros H. destruct (startsWith_app _ _ H) as [rest ->].
    unfold classify. rewrite (startsWith_self "Scenario:" rest).
    starts_eval. reflexivity.
  - unfold classify.
    destruct (startsWith line "@"); [discriminate|].
    destruct (startsWith line "Feature:"); [discriminate|].
    destruct (startsWith line "Background:"); [discriminate|].
    destruct (startsWith line "Scenario Outline:"); [discriminate|].
    destruct (startsWith line "Scenario:"); [reflexivity|].
    repeat match goal with
      | |- (if ?b then _ else _) = _ -> _ => destruct b; [discriminate|]
      end.
    destruct (truthy line); discriminate.
Qed.

Lemma classify_Background (line : string) :
  startsWith line "Background:" = true <-> classify line = KBackground.
Proof.
  split.
  - intros H. destruct (startsWith_app _ _ H) as [rest ->].
    unfold classify. rewrite (startsWith_self "Background:" rest).
    starts_eval. reflexivity.
  - unfold classify.
    destruct (startsWith line "@"); [discriminate|].
    destruct (startsWith line "Feature:"); [discriminate|].
    destruct (startsWith line "Background:"); [reflexivity|].
    repeat match goal with
      | |- (if ?b then _ else _) = _ -> _ => destruct b; [discriminate|]
      end.
    destruct (truthy line); discriminate.
Qed.

Lemma classify_Feature (line : string) :
  startsWith line "Feature:" = true <-> classify line = KFeature.
Proof.
  split.
  - intros H. destruct (startsWith_app _ _ H) as [rest ->].
    unfold classify. rewrite (startsWith_self "Feature:" rest).
    starts_eval. reflexivity.
  - unfold classify.
    destruct (startsWith line "@"); [discriminate|].
    destruct (startsWith line "Feature:"); [reflexivity|].
    repeat match goal with
      | |- (if ?b then _ else _) = _ -> _ => destruct b; [discriminate|]
      end.
    destruct (truthy line); discriminate.
Qed.

Lemma declared_entity_classify (line : string) :
  declared_entity line =
    match classify line with
    | KOutline => Some (trim (slice 17 line), true)
    | KScenario => Some (trim (slice 9 line), false)
    | _ => None
    end.
Proof.
  unfold declared_entity.
  destruct (startsWith line "Scenario Outline:") eqn:E1.
  { apply classify_Outline in E1. now rewrite E1. }
  destruct (startsWith line "Scenario:") eqn:E2.
  { apply classify_Scenario in E2. now rewrite E2. }
  destruct (classify line) eqn:E; try reflexivity.
  - apply classify_Outline in E. congruence.
  - apply classify_Scenario in E. congruence.
Qed.

End LinesByKind.

Section KindsOfLines.

Ltac kind_back :=
  unfold classify;
  repeat match goal with
    | |- (if ?b then _ else _) = _ -> _ =>
        destruct b eqn:?; [first [discriminate | intros _; reflexivity]|]
    end;
  destruct (truthy _); discriminate.

Lemma classify_Rule (line : string) :
  startsWith line "Rule:" = true <-> classify line = KRule.
Proof.
  split.
  - intros H. destruct (startsWith_app _ _ H) as [rest ->].
    unfold classify. rewrite (startsWith_self "Rule:" rest).
    starts_eval. reflexivity.
  - kind_back.
Qed.

Lemma classify_Examples (line : string) :
  startsWith line "Examples:" = true <-> classify line = KExamples.
Proof.
  split.
  - intros H. destruct (startsWith_app _ _ H) as [rest ->].
    unfold classify. rewrite (startsWith_self "Examples:" rest).
    starts_eval. reflexivity.
  - kind_back.
Qed.

Lemma classify_Table (line : string) :
  startsWith line "|" = true <-> classify line = KTable.
Proof.
  split.
  - intros H. destruct (startsWith_app _ _ H) as [rest ->].
    unfold classify. rewrite (startsWith_self "|" rest).
    starts_eval. reflexivity.
  - kind_back.
Qed.

Lemma classify_Tag (line : string) :
  startsWith line "@" = true <-> classify line = KTag.
Proof.
  split.
  - intros H. unfold classify. now rewrite H.
  - kind_back.
Qed.

Lemma opens_collector_classify (line : string) :
  opens_collector line =
    match classify line with
    | KBackground | KOutline | KScenario => true
    | _ => false
    end.
Proof.
  unfold opens_collector.
  destruct (startsWith line "Background:") eqn:B.
  { apply classify_Background in B. now rewrite B. }
  destruct (startsWith line "Scenario Outline:") eqn:O.
  { apply classify_Outline in O. now rewrite O. }
  destruct (startsWith line "Scenario:") eqn:S.
  { apply classify_Scenario in S. now rewrite S. }
  destruct (classify line) eqn:K; try reflexivity.
  - apply classify_Background in K. congruence.
  - apply classify_Outline in K. congruence.
  - apply classify_Scenario in K. congruence.
Qed.

Lemma changes_mode_classify (line : string) :
  changes_mode line =
    match classify line with
    | KBackground | KOutline | KScenario | KRule => true
    | _ => false
    end.
Proof.
  unfold changes_mode. rewrite opens_collector_classify.
  destruct (startsWith line "Rule:") eqn:R.
  { apply classify_Rule in R. now rewrite R. }
  destruct (classify line) eqn:K; try reflexivity.
  apply classify_Rule in K. congruence.
Qed.

End KindsOfLines.

Section FenceFree.

Lemma mapM_map {A B C} (f : A -> result B) (g : B -> C) (h : A -> C)
    (l : list A) (l' : list B) :
  (forall a b, f a = Ok b -> g b = h a) ->
  mapM f l = Ok l' -> map g l' = map h l.
Proof.
  intros Hfg. revert l'. induction l as [|a l IH]; intros l' H.
  - now injection H as <-.
  - cbn [mapM] in H. destruct (f a) as [b|] eqn:E; [|discriminate].
    cbn [bind] in H. destruct (mapM f l) as [bs|]; [|discriminate].
    cbn [bind] in H. injection H as <-. cbn [map].
    now rewrite (Hfg a b E), (IH bs).
Qed.

Lemma read_entity_head (st : list (list string)) (e : Entity nat)
    (e' : Entity (list string)) :
  read_entity st e = Ok e' -> entity_head e' = entity_head e.
Proof.
  unfold read_entity, read_steps. destruct e as [s|o].
  - destruct (st !! sc_steps s); [|discriminate]. now intros [= <-].
  - destruct (st !! so_steps o); [|discriminate]. now intros [= <-].
Qed.

Lemma read_feature_heads (c : Context) (f : FeatureModel (list string)) :
  read_feature c = Ok f ->
  map entity_head (scenarios f) = map entity_head (scenarios (feature c)).
Proof.
  unfold read_feature.
  destruct (read_background _ _); [|discriminate]. cbn [bind].
  destruct (mapM _ _) as [scs|] eqn:E; [|discriminate]. cbn [bind].
  intros [= <-]. cbn [scenarios].
  exact (mapM_map _ _ _ _ _ (read_entity_head (store c)) E).
Qed.

Lemma read_feature_name (c : Context) (f : FeatureModel (list string)) :
  read_feature c = Ok f -> name f = name (feature c).
Proof.
  unfold read_feature.
  destruct (read_background _ _); [|discriminate]. cbn [bind].
  destruct (mapM _ _); [|discriminate]. cbn [bind].
  now intros [= <-].
Qed.

Lemma heads_push_example (c : Context) (i : nat) (o : ScenarioOutlineModel nat)
    (row : obj string) :
  scenarios (feature c) !! i = Some (Outline o) ->
  map entity_head (scenarios (feature (push_example i o row c)))
  = map entity_head (scenarios (feature c)).
Proof.
  intros Hi. cbn. rewrite list_fmap_insert. apply list_insert_id.
  rewrite list_lookup_fmap, Hi. reflexivity.
Qed.

Lemma plain_heads (c c' : Context) (line : string) :
  startsWith line fence = false -> inDocString c = false ->
  process_line c line = Ok c' ->
  map entity_head (scenarios (feature c'))
  = map entity_head (scenarios (feature c)) ++ option_list (declared_entity line).
Proof.
  intros Hf Hdoc. rewrite (process_plain _ _ Hf Hdoc), declared_entity_classify.
  destruct (classify line); cbn [option_list]; rewrite ?app_nil_r;
    try (intros [= <-]; reflexivity).
  - intros [= <-]. cbn. now rewrite map_app.
  - intros [= <-]. cbn. now rewrite map_app.
  - unfold on_table_row. destruct (Nat.eqb _ _); [now intros [= <-]|].
    destruct (currentScenario c) as [i|]; [|now intros [= <-]].
    destruct (scenarios (feature c) !! i) as [[s|o]|] eqn:Hi; [| |discriminate].
    + now intros [= <-].
    + intros [= <-]. now apply heads_push_example.
  - unfold push_collector. cbv zeta.
    destruct (store c !! currentStepCollector c); [|discriminate].
    now intros [= <-].
  - destruct (mode_is_none (mode c)); now intros [= <-].
Qed.

Lemma run_heads (lines : list string) (c c' : Context) :
  fence_free lines -> inDocString c = false -> run c lines = Ok c' ->
  map entity_head (scenarios (feature c'))
  = map entity_head (scenarios (feature c)) ++ omap declared_entity lines.
Proof.
  revert c. induction lines as [|l lines IH]; intros c Hf Hdoc Hrun.
  - injection Hrun as <-. now rewrite app_nil_r.
  - inversion Hf as [|? ? Hl Hrest]; subst. cbn [run] in Hrun.
    destruct (process_line c l) as [c1|] eqn:E; [|discriminate].
    cbn [bind] in Hrun.
    assert (Hdoc1 : inDocString c1 = false)
      by (rewrite (process_line_doc_flag c c1 l Hl E); exact Hdoc).
    rewrite (IH c1 Hrest Hdoc1 Hrun), (plain_heads c c1 l Hl Hdoc E).
    rewrite <- app_assoc. f_equal.
    cbn [omap list_omap]. now destruct (declared_entity l).
Qed.

Lemma plain_name (c c' : Context) (line : string) :
  startsWith line fence = false -> inDocString c = false ->
  process_line c line = Ok c' ->
  name (feature c')
  = if startsWith line "Feature:" then trim (slice 8 line) else name (feature c).
Proof.
  intros Hf Hdoc. rewrite (process_plain _ _ Hf Hdoc).
  destruct (startsWith line "Feature:") eqn:F.
  { apply classify_Feature in F. rewrite F. now intros [= <-]. }
  destruct (classify line) eqn:K; try (intros [= <-]; reflexivity).
  - apply classify_Feature in K. congruence.
  - unfold on_table_row. destruct (Nat.eqb _ _); [now intros [= <-]|].
    destruct (currentScenario c) as [i|]; [|now intros [= <-]].
    destruct (scenarios (feature c) !! i) as [[s|o]|]; [| |discriminate];
      now intros [= <-].
  - unfold push_collector. cbv zeta.
    destruct (store c !! currentStepCollector c); [|discriminate].
    now intros [= <-].
  - destruct (mode_is_none (mode c)); now intros [= <-].
Qed.

Lemma run_name (lines : list string) (c c' : Context) :
  fence_free lines -> inDocString c = false -> run c lines = Ok c' ->
  name (feature c')
  = fold_left
      (fun acc line => if startsWith line "Feature:" then trim (slice 8 line) else acc)
      lines (name (feature c)).
Proof.
  revert c. induction lines as [|l lines IH]; intros c Hf Hdoc Hrun.
  - now injection Hrun as <-.
  - inversion Hf as [|? ? Hl Hrest]; subst. cbn [run] in Hrun.
    destruct (process_line c l) as [c1|] eqn:E; [|discriminate].
    cbn [bind] in Hrun.
    assert (Hdoc1 : inDocString c1 = false)
      by (rewrite (process_line_doc_flag c c1 l Hl E); exact Hdoc).
    rewrite (IH c1 Hrest Hdoc1 Hrun), (plain_name c c1 l Hl Hdoc E).
    reflexivity.
Qed.

End FenceFree.

(** X7.  In an input without doc-string fence, the scenarios of the feature
    are, in order, what the [Scenario:] and [Scenario Outline:] lines
    declare: the trimmed rest of the line as the name, and the class. *)
Theorem scenarios_follow_lines (raw : list string)
    (f : FeatureModel (list string)) :
  fence_free (map trim raw) -> parseLines raw = Ok f ->
  map entity_head (scenarios f) = omap declared_entity (map trim raw).
Proof.
  intros Hf. unfold parseLines.
  destruct (run initial (map trim raw)) as [c|] eqn:E; [|discriminate].
  cbn [bind]. intros H.
  rewrite (read_feature_heads c f H).
  now rewrite (run_heads _ initial c Hf eq_refl E).
Qed.

Lemma scenarios_follow_lines_witness :
  exists f,
    parseLines ["Feature: f"; " Scenario: a "; "Given x"; "Scenario Outline:b"]
    = Ok f /\
    map entity_head (scenarios f) = [("a", false); ("b", true)].
Proof.
  eexists. split; [vm_compute; reflexivity|].
  apply (scenarios_follow_lines
           ["Feature: f"; " Scenario: a "; "Given x"; "Scenario Outline:b"]);
    [repeat constructor | vm_compute; reflexivity].
Defined.

(** X8.  In an input without doc-string fence, the name of the feature is
    the trimmed rest of the last line that starts with [Feature:], and the
    empty string when there is none. *)
Theorem feature_name_is_last (raw : list string)
    (f : FeatureModel (list string)) :
  fence_free (map trim raw) -> parseLines raw = Ok f ->
  name f = declared_name (map trim raw).
Proof.
  intros Hf. unfold parseLines.
  destruct (run initial (map trim raw)) as [c|] eqn:E; [|discriminate].
  cbn [bind]. intros H.
  rewrite (read_feature_name c f H).
  exact (run_name _ initial c Hf eq_refl E).
Qed.

Lemma feature_name_is_last_witness :
  exists f,
    parseLines ["Feature: one"; "Scenario: a"; "Feature:  two "] = Ok f /\
    name f = "two".
Proof.
  eexists. split; [vm_compute; reflexivity|].
  apply (feature_name_is_last ["Feature: one"; "Scenario: a"; "Feature:  two "]);
    [repeat constructor | vm_compute; reflexivity].
Defined.

(** ** The description *)

Section Description.

Lemma plain_description_none (c c' : Context) (line : string) :
  startsWith line fence = false -> inDocString c = false ->
  mode c = mode_none -> changes_mode line = false ->
  process_line c line = Ok c' ->
  mode c' = mode_none /\
  description (feature c')
  = description (feature c) ++ (if is_text line then [line] else []).
Proof.
  intros Hf Hdoc Hmode. rewrite (process_plain _ _ Hf Hdoc), changes_mode_classify.
  unfold is_text.
  destruct (classify line); try discriminate; intros _; rewrite ?app_nil_r;
    try (intros [= <-]; split; [exact Hmode | reflexivity]).
  - unfold on_table_row. destruct (Nat.eqb _ _); [now intros [= <-]|].
    destruct (currentScenario c) as [i|]; [|now intros [= <-]].
    destruct (scenarios (feature c) !! i) as [[s|o]|]; [| |discriminate];
      now intros [= <-].
  - unfold push_collector. cbv zeta.
    destruct (store c !! currentStepCollector c); [|discriminate].
    now intros [= <-].
  - rewrite Hmode. cbn [mode_is_none]. now intros [= <-].
Qed.

Lemma plain_description_started (c c' : Context) (line : string) :
  startsWith line fence = false -> inDocString c = false ->
  mode c <> mode_none \/ changes_mode line = true ->
  process_line c line = Ok c' ->
  mode c' <> mode_none /\
  description (feature c')
  = description (feature c)
    ++ (if startsWith line "Rule:" then [rule_entry line] else []).
Proof.
  intros Hf Hdoc Hstarted. rewrite (process_plain _ _ Hf Hdoc).
  destruct (startsWith line "Rule:") eqn:R.
  { apply classify_Rule in R. rewrite R. intros [= <-]. now split. }
  rewrite changes_mode_classify in Hstarted.
  destruct (classify line) eqn:K;
    try (apply classify_Rule in K; congruence);
    rewrite ?app_nil_r;
    try (intros [= <-]; split; [discriminate | reflexivity]);
    destruct Hstarted as [Hmode|?]; try discriminate.
  - now intros [= <-].
  - now intros [= <-].
  - now intros [= <-].
  - unfold on_table_row. destruct (Nat.eqb _ _); [now intros [= <-]|].
    destruct (currentScenario c) as [i|]; [|now intros [= <-]].
    destruct (scenarios (feature c) !! i) as [[s|o]|]; [| |discriminate];
      now intros [= <-].
  - unfold push_collector. cbv zeta.
    destruct (store c !! currentStepCollector c); [|discriminate].
    now intros [= <-].
  - assert (M : mode_is_none (mode c) = false)
      by (destruct (mode c); [contradiction| | | |]; reflexivity).
    rewrite M. now intros [= <-].
  - now intros [= <-].
Qed.

Lemma run_description_none (lines : list string) (c c' : Context) :
  fence_free lines -> inDocString c = false -> mode c = mode_none ->
  Forall (fun l => changes_mode l = false) lines ->
  run c lines = Ok c' ->
  mode c' = mode_none /\ inDocString c' = false /\
  description (feature c')
  = description (feature c) ++ filter (fun l => is_text l = true) lines.
Proof.
  revert c. induction lines as [|l lines IH]; intros c Hf Hdoc Hmode Hpre Hrun.
  - injection Hrun as <-. now rewrite app_nil_r.
  - inversion Hf as [|? ? Hl Hrest]; subst.
    inversion Hpre as [|? ? Hc Hpre']; subst. cbn [run] in Hrun.
    destruct (process_line c l) as [c1|] eqn:E; [|discriminate].
    cbn [bind] in Hrun.
    assert (Hdoc1 : inDocString c1 = false)
      by (rewrite (process_line_doc_flag c c1 l Hl E); exact Hdoc).
    destruct (plain_description_none c c1 l Hl Hdoc Hmode Hc E) as [Hm1 Hd1].
    destruct (IH c1 Hrest Hdoc1 Hm1 Hpre' Hrun) as (Hm & Hd & Hdesc).
    repeat split; [exact Hm | exact Hd |].
    rewrite Hdesc, Hd1, <- app_assoc. f_equal. rewrite filter_cons.
    destruct (is_text l); [rewrite decide_True by reflexivity
                          | rewrite decide_False by discriminate]; reflexivity.
Qed.

Lemma run_description_started (lines : list string) (c c' : Context) :
  fence_free lines -> inDocString c = false ->
  match lines with
  | [] => True
  | l :: _ => mode c <> mode_none \/ changes_mode l = true
  end ->
  run c lines = Ok c' ->
  description (feature c')
  = description (feature c)
    ++ map rule_entry (filter (fun l => startsWith l "Rule:" = true) lines).
Proof.
  revert c. induction lines as [|l lines IH]; intros c Hf Hdoc Hstarted Hrun.
  - injection Hrun as <-. now rewrite app_nil_r.
  - inversion Hf as [|? ? Hl Hrest]; subst. cbn [run] in Hrun.
    destruct (process_line c l) as [c1|] eqn:E; [|discriminate].
    cbn [bind] in Hrun.
    assert (Hdoc1 : inDocString c1 = false)
      by (rewrite (process_line_doc_flag c c1 l Hl E); exact Hdoc).
    destruct (plain_description_started c c1 l Hl Hdoc Hstarted E) as [Hm1 Hd1].
    rewrite (IH c1 Hrest Hdoc1); [| destruct lines; [exact I | now left] | exact Hrun].
    rewrite Hd1, <- app_assoc. f_equal. rewrite filter_cons.
    destruct (startsWith l "Rule:"); [rewrite decide_True by reflexivity
                                     | rewrite decide_False by discriminate];
      reflexivity.
Qed.

End Description.

(** X9.  In an input without doc-string fence, the description is made of
    the free-text lines that come before the first [Background:],
    [Scenario:], [Scenario Outline:] or [Rule:] line, followed by one entry
    for each [Rule:] line from there on; free text after that line is
    dropped. *)
Theorem description_of_parse (raw pre post : list string)
    (f : FeatureModel (list string)) :
  fence_free (map trim raw) ->
  map trim raw = pre ++ post ->
  Forall (fun l => changes_mode l = false) pre ->
  match post with [] => True | l :: _ => changes_mode l = true end ->
  parseLines raw = Ok f ->
  description f
  = filter (fun l => is_text l = true) pre
    ++ map rule_entry (filter (fun l => startsWith l "Rule:" = true) post).
Proof.
  intros Hf Hsplit Hpre Hpost. unfold parseLines. rewrite Hsplit in *.
  rewrite run_app.
  destruct (run initial pre) as [c0|] eqn:E0; [|discriminate]. cbn [bind].
  destruct (run c0 post) as [c|] eqn:E; [|discriminate]. cbn [bind].
  intros H. rewrite (read_feature_description c f H).
  unfold fence_free in Hf. apply Forall_app in Hf as [Hf1 Hf2].
  destruct (run_description_none pre initial c0 Hf1 eq_refl eq_refl Hpre E0)
    as (Hm0 & Hd0 & Hdesc0).
  rewrite (run_description_started post c0 c Hf2 Hd0); [| |exact E].
  - now rewrite Hdesc0.
  - destruct post; [exact I | now right].
Qed.

Lemma description_of_parse_witness :
  exists f,
    parseLines ["Feature: f"; "As a user"; "Given a"; "Rule: r "; "more text";
                "Scenario: s"; "Rule: q"] = Ok f /\
    description f = ["As a user"; "Rule: r"; "Rule: q"].
Proof.
  eexists. split; [vm_compute; reflexivity|].
  apply (description_of_parse
           ["Feature: f"; "As a user"; "Given a"; "Rule: r "; "more text";
            "Scenario: s"; "Rule: q"]
           ["Feature: f"; "As a user"; "Given a"]
           ["Rule: r"; "more text"; "Scenario: s"; "Rule: q"]);
    [repeat constructor | reflexivity | repeat constructor | reflexivity
    | vm_compute; reflexivity].
Defined.

(** ** Where the steps come from *)

Lemma classic_fence (lines : list string) : fence_free lines \/ ~ fence_free lines.
Proof.
  unfold fence_free.
  destruct (decide (Forall (fun l => startsWith l fence = false) lines)); auto.
Qed.

Section StepsOrigin.

Variable P : string -> Prop.

Lemma push_collector_P (c c' : Context) (line : string) :
  P line -> Forall (Forall P) (store c) ->
  push_collector line c = Ok c' -> Forall (Forall P) (store c').
Proof.
  intros Hl Hst. unfold push_collector. cbv zeta.
  destruct (store c !! currentStepCollector c) as [steps|] eqn:Ha; [|discriminate].
  intros [= <-]. cbn. apply Forall_insert; [exact Hst|].
  apply Forall_app. split; [|now constructor].
  exact (Forall_lookup_1 _ _ _ _ Hst Ha).
Qed.

Lemma process_store_P (c c' : Context) (line : string) :
  P line \/
    (inDocString c = false /\ startsWith line fence = false /\
     isStepLine line = false) ->
  Forall (Forall P) (store c) ->
  process_line c line = Ok c' -> Forall (Forall P) (store c').
Proof.
  intros Hl Hst. rewrite process_line_unrolled.
  destruct (startsWith line fence) eqn:Hf.
  { destruct Hl as [Hl|(_ & ? & _)]; [|discriminate].
    apply push_collector_P; assumption. }
  destruct (inDocString c) eqn:Hdoc.
  { destruct Hl as [Hl|(? & _)]; [|discriminate].
    apply push_collector_P; assumption. }
  destruct (startsWith line "@"); [now intros [= <-]|].
  destruct (startsWith line "Feature:"); [now intros [= <-]|].
  destruct (startsWith line "Background:").
  { intros [= <-]. cbn. apply Forall_app. split; [exact Hst | repeat constructor]. }
  destruct (startsWith line "Scenario Outline:").
  { intros [= <-]. cbn. apply Forall_app. split; [exact Hst | repeat constructor]. }
  destruct (startsWith line "Scenario:").
  { intros [= <-]. cbn. apply Forall_app. split; [exact Hst | repeat constructor]. }
  destruct (startsWith line "Examples:"); [now intros [= <-]|].
  destruct (startsWith line "Rule:"); [now intros [= <-]|].
  destruct (startsWith line "|").
  { unfold on_table_row. destruct (Nat.eqb _ _); [now intros [= <-]|].
    destruct (currentScenario c) as [i|]; [|now intros [= <-]].
    destruct (scenarios (feature c) !! i) as [[s|o]|]; [| |discriminate];
      now intros [= <-]. }
  destruct (isStepLine line) eqn:Hs.
  { destruct Hl as [Hl|(_ & _ & ?)]; [|discriminate].
    apply push_collector_P; assumption. }
  destruct (truthy line && mode_is_none (mode c))%bool; now intros [= <-].
Qed.

Lemma run_store_P (lines : list string) (c c' : Context) :
  Forall P lines -> Forall (Forall P) (store c) ->
  run c lines = Ok c' -> Forall (Forall P) (store c').
Proof.
  revert c. induction lines as [|l lines IH]; intros c Hl Hst Hrun.
  - now injection Hrun as <-.
  - inversion Hl as [|? ? Hl1 Hl2]; subst. cbn [run] in Hrun.
    destruct (process_line c l) as [c1|] eqn:E; [|discriminate].
    cbn [bind] in Hrun. apply (IH c1 Hl2); [|exact Hrun].
    apply (process_store_P c c1 l); [now left | exact Hst | exact E].
Qed.

Lemma run_store_steps (lines : list string) (c c' : Context) :
  fence_free lines -> inDocString c = false ->
  Forall (fun l => isStepLine l = true -> P l) lines ->
  Forall (Forall P) (store c) ->
  run c lines = Ok c' -> Forall (Forall P) (store c').
Proof.
  revert c. induction lines as [|l lines IH]; intros c Hf Hdoc Hl Hst Hrun.
  - now injection Hrun as <-.
  - inversion Hf as [|? ? Hf1 Hf2]; subst.
    inversion Hl as [|? ? Hl1 Hl2]; subst. cbn [run] in Hrun.
    destruct (process_line c l) as [c1|] eqn:E; [|discriminate].
    cbn [bind] in Hrun. apply (IH c1 Hf2); [| exact Hl2 | | exact Hrun].
    + rewrite (process_line_doc_flag c c1 l Hf1 E). exact Hdoc.
    + apply (process_store_P c c1 l); [| exact Hst | exact E].
      destruct (isStepLine l) eqn:Hs; [left; now apply Hl1 | now right].
Qed.

Lemma read_feature_steps (c : Context) (f : FeatureModel (list string)) :
  Forall (Forall P) (store c) -> read_feature c = Ok f -> Forall P (all_steps f).
Proof.
  intros Hst. unfold read_feature.
  destruct (read_background _ _) as [bg|] eqn:Ebg; [|discriminate]. cbn [bind].
  destruct (mapM _ _) as [scs|] eqn:E; [|discriminate]. cbn [bind].
  intros [= <-]. unfold all_steps. cbn [background scenarios].
  apply Forall_app. split.
  - unfold read_background, read_steps in Ebg.
    destruct (background (feature c)) as [b|].
    + destruct (store c !! bg_steps b) as [steps|] eqn:Ha; [|discriminate].
      cbn [bind] in Ebg. injection Ebg as <-. cbn [bg_steps].
      exact (Forall_lookup_1 _ _ _ _ Hst Ha).
    + injection Ebg as <-. constructor.
  - apply Forall_concat, Forall_fmap, Forall_forall. intros e' He'.
    destruct (mapM_elem _ _ _ _ E He') as (e & _ & He).
    unfold read_entity, read_steps in He. cbn [compose].
    destruct e as [s|o].
    + destruct (store c !! sc_steps s) as [steps|] eqn:Ha; [|discriminate].
      cbn [bind] in He. injection He as <-. cbn.
      exact (Forall_lookup_1 _ _ _ _ Hst Ha).
    + destruct (store c !! so_steps o) as [steps|] eqn:Ha; [|discriminate].
      cbn [bind] in He. injection He as <-. cbn.
      exact (Forall_lookup_1 _ _ _ _ Hst Ha).
Qed.

End StepsOrigin.

(** X10.  Every step of the feature that is returned, of the background or
    of a scenario, is one of the trimmed lines of the input; in an input
    without doc-string fence it is a step line. *)
Theorem steps_come_from_lines (raw : list string)
    (f : FeatureModel (list string)) :
  parseLines raw = Ok f ->
  Forall (fun s => s ∈ map trim raw /\
                   (fence_free (map trim raw) -> isStepLine s = true))
         (all_steps f).
Proof.
  unfold parseLines.
  destruct (run initial (map trim raw)) as [c|] eqn:E; [|discriminate].
  cbn [bind]. intros H.
  assert (H0 : forall Q : string -> Prop, Forall (Forall Q) (store initial))
    by (intros Q; repeat constructor).
  apply Forall_and. split.
  - apply (read_feature_steps _ c f); [|exact H].
    apply (run_store_P _ (map trim raw) initial c); [|apply H0|exact E].
    apply Forall_forall. auto.
  - destruct (classic_fence (map trim raw)) as [Hf|Hn].
    + eapply Forall_impl;
        [| intros s Hs _; exact Hs].
      apply (read_feature_steps (fun s => isStepLine s = true) c f); [|exact H].
      apply (run_store_steps _ (map trim raw) initial c);
        [exact Hf | reflexivity | | apply H0 | exact E].
      apply Forall_forall. auto.
    + apply Forall_forall. intros s _ Hf. contradiction.
Qed.

Lemma steps_come_from_lines_witness :
  exists f,
    parseLines ["Background:"; " Given a"; "Scenario: s"; "When b"; "text"]
    = Ok f /\
    Forall (fun s =>
              s ∈ map trim ["Background:"; " Given a"; "Scenario: s"; "When b"; "text"]
              /\ (fence_free
                    (map trim ["Background:"; " Given a"; "Scenario: s"; "When b";
                               "text"]) ->
                  isStepLine s = true))
           (all_steps f).
Proof.
  eexists. split; [vm_compute; reflexivity|].
  apply (steps_come_from_lines
           ["Background:"; " Given a"; "Scenario: s"; "When b"; "text"]).
  vm_compute. reflexivity.
Defined.

(** ** The steps between two opening lines *)

Section Segments.

Lemma opening_no_fence (line : string) :
  opens_collector line = true -> startsWith line fence = false.
Proof.
  unfold opens_collector. intros H.
  apply orb_true_iff in H as [H|H]; [apply orb_true_iff in H as [H|H]|];
    destruct (startsWith_app _ _ H) as [rest ->]; reflexivity.
Qed.

Lemma process_Background (c : Context) (line : string) :
  inDocString c = false -> startsWith line "Background:" = true ->
  process_line c line = Ok (on_Background line c).
Proof.
  intros Hdoc H. rewrite process_plain; [| |exact Hdoc].
  - apply classify_Background in H. now rewrite H.
  - apply opening_no_fence. unfold opens_collector. now rewrite H.
Qed.

(** An opening line gives the collector a fresh, empty array. *)
Lemma process_opening (c c' : Context) (line : string) :
  inDocString c = false -> opens_collector line = true ->
  process_line c line = Ok c' ->
  currentStepCollector c' = length (store c) /\
  store c' = store c ++ [[]] /\ inDocString c' = false.
Proof.
  intros Hdoc Hopen.
  rewrite (process_plain c line (opening_no_fence line Hopen) Hdoc).
  rewrite opens_collector_classify in Hopen.
  destruct (classify line); try discriminate; intros [= <-]; cbn; auto.
Qed.

Lemma not_step_line (line : string) :
  classify line <> KStep -> isStepLine line = false.
Proof.
  intros H. destruct (isStepLine line) eqn:E; [|reflexivity].
  apply classify_step in E. contradiction.
Qed.

(** A line that opens no collector: the collector stays, and its array
    takes the line when it is a step line. *)
Lemma plain_body (c c' : Context) (line : string) (arr : list string) :
  startsWith line fence = false -> inDocString c = false ->
  opens_collector line = false ->
  store c !! currentStepCollector c = Some arr ->
  process_line c line = Ok c' ->
  currentStepCollector c' = currentStepCollector c /\
  store c' !! currentStepCollector c = Some (arr ++ filter is_step [line]).
Proof.
  intros Hf Hdoc Hopen Ha. rewrite (process_plain _ _ Hf Hdoc).
  rewrite opens_collector_classify in Hopen.
  assert (Hno : classify line <> KStep -> filter is_step [line] = []).
  { intros H. rewrite filter_cons, decide_False; [reflexivity|].
    rewrite (not_step_line line H). discriminate. }
  destruct (classify line) eqn:K; try discriminate;
    try (rewrite Hno, app_nil_r by discriminate).
  - now intros [= <-].
  - now intros [= <-].
  - now intros [= <-].
  - now intros [= <-].
  - unfold on_table_row. destruct (Nat.eqb _ _); [now intros [= <-]|].
    destruct (currentScenario c) as [i|]; [|now intros [= <-]].
    destruct (scenarios (feature c) !! i) as [[s|o]|]; [| |discriminate];
      now intros [= <-].
  - apply classify_step in K.
    rewrite filter_cons, decide_True, filter_nil by exact K.
    unfold push_collector. cbv zeta. rewrite Ha. intros [= <-]. cbn.
    split; [reflexivity|].
    now rewrite list_lookup_insert_eq by (now apply lookup_lt_Some in Ha).
  - destruct (mode_is_none (mode c)); now intros [= <-].
  - now intros [= <-].
Qed.

Lemma run_body (body : list string) (c c' : Context) (arr : list string) :
  fence_free body -> inDocString c = false ->
  Forall (fun l => opens_collector l = false) body ->
  store c !! currentStepCollector c = Some arr ->
  run c body = Ok c' ->
  currentStepCollector c' = currentStepCollector c /\
  inDocString c' = false /\
  store c' !! currentStepCollector c = Some (arr ++ filter is_step body).
Proof.
  revert c arr. induction body as [|l body IH]; intros c arr Hf Hdoc Hb Ha Hrun.
  - injection Hrun as <-. now rewrite app_nil_r.
  - inversion Hf as [|? ? Hf1 Hf2]; subst.
    inversion Hb as [|? ? Hb1 Hb2]; subst. cbn [run] in Hrun.
    destruct (process_line c l) as [c1|] eqn:E; [|discriminate].
    cbn [bind] in Hrun.
    assert (Hdoc1 : inDocString c1 = false)
      by (rewrite (process_line_doc_flag c c1 l Hf1 E); exact Hdoc).
    destruct (plain_body c c1 l arr Hf1 Hdoc Hb1 Ha E) as [Hc1 Ha1].
    rewrite <- Hc1 in Ha1.
    destruct (IH c1 _ Hf2 Hdoc1 Hb2 Ha1 Hrun) as (Hc & Hd & Hs).
    rewrite Hc1 in Hc, Hs. repeat split; [exact Hc | exact Hd |].
    rewrite Hs, <- app_assoc. f_equal.
    change (l :: body) with ([l] ++ body). now rewrite filter_app.
Qed.

(** An array that the collector has left is not written again. *)
Lemma step_frozen (c c' : Context) (line : string) (a : nat) :
  step c line c' ->
  a < length (store c) -> a <> currentStepCollector c ->
  store c' !! a = store c !! a /\
  a < length (store c') /\ a <> currentStepCollector c'.
Proof.
  intros Hstep Hlt Hne.
  destruct Hstep; cbn; auto;
    try (rewrite length_app; cbn; split; [now apply lookup_app_l | lia]).
  rewrite length_insert. split; [|auto].
  now apply list_lookup_insert_ne.
Qed.

Lemma run_frozen (lines : list string) (c c' : Context) (a : nat) :
  run c lines = Ok c' ->
  a < length (store c) -> a <> currentStepCollector c ->
  store c' !! a = store c !! a.
Proof.
  revert c. induction lines as [|l lines IH]; intros c Hrun Hlt Hne.
  - now injection Hrun as <-.
  - cbn [run] in Hrun. destruct (process_line c l) as [c1|] eqn:E; [|discriminate].
    cbn [bind] in Hrun. apply process_line_step in E.
    destruct (step_frozen c c1 l a E Hlt Hne) as (Hs & Hlt1 & Hne1).
    rewrite (IH c1 Hrun Hlt1 Hne1). exact Hs.
Qed.

(** The array that an opening line allocates holds, at the end, the step
    lines up to the next opening line. *)
Lemma segment_steps (c0 c1 c3 : Context) (line : string)
    (body post : list string) :
  inDocString c0 = false -> opens_collector line = true ->
  process_line c0 line = Ok c1 ->
  fence_free body -> Forall (fun l => opens_collector l = false) body ->
  match post with [] => True | l :: _ => opens_collector l = true end ->
  run c1 (body ++ post) = Ok c3 ->
  store c3 !! length (store c0) = Some (filter is_step body).
Proof.
  intros Hdoc Hopen E1 Hf Hb Hpost Hrun.
  destruct (process_opening c0 c1 line Hdoc Hopen E1) as (Hc1 & Hs1 & Hd1).
  rewrite run_app in Hrun.
  destruct (run c1 body) as [c2|] eqn:E2; [|discriminate]. cbn [bind] in Hrun.
  assert (Ha1 : store c1 !! currentStepCollector c1 = Some []).
  { rewrite Hc1, Hs1. now apply list_lookup_middle. }
  destruct (run_body body c1 c2 [] Hf Hd1 Hb Ha1 E2) as (Hc2 & Hd2 & Ha2).
  rewrite Hc1 in Hc2, Ha2. cbn [app] in Ha2.
  destruct post as [|n post].
  - injection Hrun as <-. exact Ha2.
  - cbn [run] in Hrun. destruct (process_line c2 n) as [c2'|] eqn:En; [|discriminate].
    cbn [bind] in Hrun.
    destruct (process_opening c2 c2' n Hd2 Hpost En) as (Hcn & Hsn & _).
    pose proof (lookup_lt_Some _ _ _ Ha2) as Hlt.
    rewrite (run_frozen post c2' c3 _ Hrun).
    + rewrite Hsn. rewrite lookup_app_l by exact Hlt. exact Ha2.
    + rewrite Hsn, length_app. lia.
    + rewrite Hcn. lia.
Qed.

Lemma step_keeps_background (c c' : Context) (line : string) :
  step c line c' -> startsWith line "Background:" = false ->
  background (feature c') = background (feature c).
Proof.
  intros Hstep Hb. destruct Hstep; cbn; try reflexivity. congruence.
Qed.

Lemma run_keeps_background (lines : list string) (c c' : Context) :
  run c lines = Ok c' ->
  Forall (fun l => startsWith l "Background:" = false) lines ->
  background (feature c') = background (feature c).
Proof.
  revert c. induction lines as [|l lines IH]; intros c Hrun Hb.
  - now injection Hrun as <-.
  - inversion Hb as [|? ? Hb1 Hb2]; subst. cbn [run] in Hrun.
    destruct (process_line c l) as [c1|] eqn:E; [|discriminate].
    cbn [bind] in Hrun. apply process_line_step in E.
    rewrite (IH c1 Hrun Hb2). now apply (step_keeps_background c c1 l).
Qed.

Lemma declared_entity_opens (line : string) (h : string * bool) :
  declared_entity line = Some h -> opens_collector line = true.
Proof.
  unfold declared_entity, opens_collector.
  destruct (startsWith line "Scenario Outline:");
    [intros _; now rewrite orb_true_r|].
  destruct (startsWith line "Scenario:"); [intros _; now rewrite orb_true_r|].
  discriminate.
Qed.

(** What a scenario line appends. *)
Lemma process_declared (c c' : Context) (line : string) (h : string * bool) :
  inDocString c = false -> declared_entity line = Some h ->
  process_line c line = Ok c' ->
  exists e, scenarios (feature c') = scenarios (feature c) ++ [e] /\
            entity_head e = h /\ entity_steps e = length (store c) /\
            entity_tags e = pendingTags c.
Proof.
  intros Hdoc. unfold declared_entity.
  destruct (startsWith line "Scenario Outline:") eqn:O.
  { intros [= <-]. rewrite (process_ScenarioOutline c line Hdoc O).
    intros [= <-]. eexists. cbn. repeat split. }
  destruct (startsWith line "Scenario:") eqn:S; [|discriminate].
  intros [= <-]. rewrite (process_Scenario c line Hdoc S).
  intros [= <-]. eexists. cbn. repeat split.
Qed.

End Segments.

(** X11.  The steps of a scenario or an outline are the step lines between
    its line and the next line that starts with [Background:], [Scenario:]
    or [Scenario Outline:], when no doc string starts before that line;
    what follows does not matter.  The entity stands at the rank of its
    line among the scenario lines. *)
Theorem scenario_steps (raw pre body post : list string) (line : string)
    (h : string * bool) (f : FeatureModel (list string)) :
  map trim raw = pre ++ line :: body ++ post ->
  fence_free pre -> fence_free body ->
  declared_entity line = Some h ->
  Forall (fun l => opens_collector l = false) body ->
  match post with [] => True | l :: _ => opens_collector l = true end ->
  parseLines raw = Ok f ->
  exists e,
    scenarios f !! length (omap declared_entity pre) = Some e /\
    entity_head e = h /\
    entity_steps e = filter is_step body.
Proof.
  intros Hsplit Hf1 Hf2 Hh Hb Hpost. unfold parseLines. rewrite Hsplit.
  rewrite run_app.
  destruct (run initial pre) as [c0|] eqn:E0; [|discriminate]. cbn [bind run].
  destruct (process_line c0 line) as [c1|] eqn:E1; [|discriminate]. cbn [bind].
  destruct (run c1 (body ++ post)) as [c3|] eqn:E3; [|discriminate]. cbn [bind].
  intros H.
  assert (Hd0 : inDocString c0 = false)
    by (now rewrite (run_doc_flag pre initial c0 Hf1 E0)).
  destruct (process_declared c0 c1 line h Hd0 Hh E1) as (e1 & Hs1 & Hh1 & Ha1 & _).
  assert (Hi1 : scenarios (feature c1) !! length (omap declared_entity pre) = Some e1).
  { rewrite Hs1. apply list_lookup_middle.
    rewrite <- (length_map entity_head (scenarios (feature c0))).
    now rewrite (run_heads pre initial c0 Hf1 eq_refl E0). }
  destruct (run_keeps_entities _ c1 c3 _ e1 E3 Hi1) as (e3 & Hi3 & Hn & Ht & Ho & Hst).
  destruct (read_feature_entity c3 f _ e3 H Hi3)
    as (e' & Hi' & Hn' & Ht' & Ho' & _ & Hsteps).
  exists e'. split; [exact Hi'|]. split.
  - unfold entity_head. rewrite Hn', Ho', <- Hn, <- Ho. exact Hh1.
  - pose proof (segment_steps c0 c1 c3 line body post Hd0
                  (declared_entity_opens line h Hh) E1 Hf2 Hb Hpost E3) as Hseg.
    rewrite <- Hst, Ha1 in Hsteps. congruence.
Qed.

Lemma scenario_steps_witness :
  exists f,
    parseLines ["Feature: f"; "Scenario: a"; "Given x"; "Scenario: b"; "note";
                "When y"; "| t |"; "Then z"; "Background:"; "Given w"] = Ok f /\
    exists e,
      scenarios f !! 1 = Some e /\ entity_head e = ("b", false) /\
      entity_steps e = ["When y"; "Then z"].
Proof.
  eexists. split; [vm_compute; reflexivity|].
  apply (scenario_steps
           ["Feature: f"; "Scenario: a"; "Given x"; "Scenario: b"; "note";
            "When y"; "| t |"; "Then z"; "Background:"; "Given w"]
           ["Feature: f"; "Scenario: a"; "Given x"]
           ["note"; "When y"; "| t |"; "Then z"]
           ["Background:"; "Given w"]
           "Scenario: b");
    [reflexivity | repeat constructor | repeat constructor | reflexivity
    | repeat constructor | reflexivity | vm_compute; reflexivity].
Defined.

(** X12.  When no doc-string fence occurs before the first line after the
    last [Background:] line that starts with [Scenario:],
    [Scenario Outline:] or [Background:], the steps of the background are
    the step lines between the last [Background:] line and that line. *)
Theorem background_steps (raw pre body post : list string) (line : string)
    (f : FeatureModel (list string)) :
  map trim raw = pre ++ line :: body ++ post ->
  fence_free pre -> fence_free body ->
  startsWith line "Background:" = true ->
  Forall (fun l => opens_collector l = false) body ->
  match post with [] => True | l :: _ => opens_collector l = true end ->
  Forall (fun l => startsWith l "Background:" = false) post ->
  parseLines raw = Ok f ->
  background f = Some {| bg_steps := filter is_step body |}.
Proof.
  intros Hsplit Hf1 Hf2 Hbg Hb Hpost Hlast. unfold parseLines. rewrite Hsplit.
  rewrite run_app.
  destruct (run initial pre) as [c0|] eqn:E0; [|discriminate]. cbn [bind run].
  destruct (process_line c0 line) as [c1|] eqn:E1; [|discriminate]. cbn [bind].
  destruct (run c1 (body ++ post)) as [c3|] eqn:E3; [|discriminate]. cbn [bind].
  intros H.
  assert (Hd0 : inDocString c0 = false)
    by (now rewrite (run_doc_flag pre initial c0 Hf1 E0)).
  assert (Hopen : opens_collector line = true)
    by (unfold opens_collector; now rewrite Hbg).
  pose proof (segment_steps c0 c1 c3 line body post Hd0 Hopen E1 Hf2 Hb Hpost E3)
    as Hseg.
  assert (Hbg3 : background (feature c3) = Some {| bg_steps := length (store c0) |}).
  { rewrite (run_keeps_background (body ++ post) c1 c3 E3).
    - rewrite (process_Background c0 line Hd0 Hbg) in E1.
      injection E1 as <-. reflexivity.
    - apply Forall_app. split; [|exact Hlast].
      eapply Forall_impl; [exact Hb|]. intros l Hl. cbv beta in Hl.
      unfold opens_collector in Hl.
      destruct (startsWith l "Background:"); [discriminate | reflexivity]. }
  revert H. unfold read_feature, read_background, read_steps.
  rewrite Hbg3. cbn [bg_steps]. rewrite Hseg. cbn [bind].
  destruct (mapM _ _); [|discriminate]. cbn [bind].
  now intros [= <-].
Qed.

Lemma background_steps_witness :
  exists f,
    parseLines ["Background:"; "Given old"; "Background: again"; "Given a";
                "text"; "And b"; "Scenario: s"; "Given c"] = Ok f /\
    background f = Some {| bg_steps := ["Given a"; "And b"] |}.
Proof.
  eexists. split; [vm_compute; reflexivity|].
  apply (background_steps
           ["Background:"; "Given old"; "Background: again"; "Given a";
            "text"; "And b"; "Scenario: s"; "Given c"]
           ["Background:"; "Given old"]
           ["Given a"; "text"; "And b"]
           ["Scenario: s"; "Given c"]
           "Background: again");
    [reflexivity | repeat constructor | repeat constructor | reflexivity
    | repeat constructor | reflexivity | repeat constructor
    | vm_compute; reflexivity].
Defined.

(** ** Tags and the next scenario *)

Section PendingTags.




End PendingTags.



(** ** A longer input only adds *)

Section AppendOnly.

Lemma step_store_grows (c c' : Context) (line : string) (a : nat)
    (arr : list string) :
  step c line c' -> store c !! a = Some arr ->
  exists arr', store c' !! a = Some arr' /\ arr `prefix_of` arr'.
Proof.
  intros Hstep Ha.
  destruct Hstep; cbn;
    try (exists arr; split; [exact Ha | reflexivity]);
    try (exists arr; split; [now apply lookup_app_l_Some | reflexivity]).
  destruct (decide (a = currentStepCollector c)) as [->|Hne].
  - rewrite list_lookup_insert_eq by (now apply lookup_lt_Some in Ha).
    eexists. split; [reflexivity|].
    assert (steps = arr) as -> by congruence. now apply prefix_app_r.
  - rewrite list_lookup_insert_ne by congruence.
    exists arr. split; [exact Ha | reflexivity].
Qed.

Lemma run_store_grows (lines : list string) (c c' : Context) (a : nat)
    (arr : list string) :
  run c lines = Ok c' -> store c !! a = Some arr ->
  exists arr', store c' !! a = Some arr' /\ arr `prefix_of` arr'.
Proof.
  revert c arr. induction lines as [|l lines IH]; intros c arr Hrun Ha.
  - injection Hrun as <-. exists arr. split; [exact Ha | reflexivity].
  - cbn [run] in Hrun. destruct (process_line c l) as [c1|] eqn:E; [|discriminate].
    cbn [bind] in Hrun. apply process_line_step in E.
    destruct (step_store_grows c c1 l a arr E Ha) as (arr1 & Ha1 & P1).
    destruct (IH c1 arr1 Hrun Ha1) as (arr2 & Ha2 & P2).
    exists arr2. split; [exact Ha2 | now transitivity arr1].
Qed.

Lemma step_description_grows (c c' : Context) (line : string) :
  step c line c' ->
  description (feature c) `prefix_of` description (feature c').
Proof.
  intros Hstep. destruct Hstep; cbn; try reflexivity; now apply prefix_app_r.
Qed.

Lemma run_description_grows (lines : list string) (c c' : Context) :
  run c lines = Ok c' ->
  description (feature c) `prefix_of` description (feature c').
Proof.
  revert c. induction lines as [|l lines IH]; intros c Hrun.
  - now injection Hrun as <-.
  - cbn [run] in Hrun. destruct (process_line c l) as [c1|] eqn:E; [|discriminate].
    cbn [bind] in Hrun. apply process_line_step in E.
    transitivity (description (feature c1));
      [now apply (step_description_grows c c1 l) | now apply IH].
Qed.

Lemma step_examples_grow (c c' : Context) (line : string) (i : nat)
    (e : Entity nat) :
  step c line c' -> scenarios (feature c) !! i = Some e ->
  exists e', scenarios (feature c') !! i = Some e' /\ same_entity e e' /\
             entity_examples e `prefix_of` entity_examples e'.
Proof.
  intros Hstep Hi.
  destruct Hstep; cbn;
    try (exists e; split; [exact Hi | split; [apply same_entity_refl | reflexivity]]);
    try (exists e; split; [now apply lookup_app_l_Some
                          | split; [apply same_entity_refl | reflexivity]]).
  destruct (decide (i0 = i)) as [->|Hne].
  - rewrite list_lookup_insert_eq by (now apply lookup_lt_Some in Hi).
    eexists. split; [reflexivity|].
    assert (e = Outline o) as -> by congruence.
    split; [repeat split | now apply prefix_app_r].
  - rewrite list_lookup_insert_ne by exact Hne.
    exists e. split; [exact Hi | split; [apply same_entity_refl | reflexivity]].
Qed.

Lemma run_examples_grow (lines : list string) (c c' : Context) (i : nat)
    (e : Entity nat) :
  run c lines = Ok c' -> scenarios (feature c) !! i = Some e ->
  exists e', scenarios (feature c') !! i = Some e' /\ same_entity e e' /\
             entity_examples e `prefix_of` entity_examples e'.
Proof.
  revert c e. induction lines as [|l lines IH]; intros c e Hrun Hi.
  - injection Hrun as <-.
    exists e. split; [exact Hi | split; [apply same_entity_refl | reflexivity]].
  - cbn [run] in Hrun. destruct (process_line c l) as [c1|] eqn:E; [|discriminate].
    cbn [bind] in Hrun. apply process_line_step in E.
    destruct (step_examples_grow c c1 l i e E Hi) as (e1 & Hi1 & S1 & P1).
    destruct (IH c1 e1 Hrun Hi1) as (e2 & Hi2 & S2 & P2).
    exists e2. split; [exact Hi2|].
    split; [eapply same_entity_trans; eauto | now transitivity (entity_examples e1)].
Qed.

Lemma mapM_lookup_inv {A B} (f : A -> result B) (l : list A) (l' : list B)
    (i : nat) (b : B) :
  mapM f l = Ok l' -> l' !! i = Some b ->
  exists a, l !! i = Some a /\ f a = Ok b.
Proof.
  revert l' i. induction l as [|x l IH]; intros l' i H Hi.
  - injection H as <-. discriminate.
  - cbn [mapM] in H.
    destruct (f x) as [y|] eqn:Efx; [|discriminate]. cbn [bind] in H.
    destruct (mapM f l) as [ys|] eqn:E; [|discriminate]. cbn [bind] in H.
    injection H as <-. destruct i as [|i].
    + injection Hi as <-. exists x. now split.
    + exact (IH ys i eq_refl Hi).
Qed.

Lemma read_feature_entity_inv (c : Context) (f : FeatureModel (list string))
    (i : nat) (e' : Entity (list string)) :
  read_feature c = Ok f -> scenarios f !! i = Some e' ->
  exists e, scenarios (feature c) !! i = Some e /\
            entity_name e' = entity_name e /\
            entity_tags e' = entity_tags e /\
            is_outline e' = is_outline e /\
            entity_examples e' = entity_examples e /\
            store c !! entity_steps e = Some (entity_steps e').
Proof.
  intros H Hi'.
  assert (He : exists e, scenarios (feature c) !! i = Some e).
  { revert H Hi'. unfold read_feature.
    destruct (read_background _ _); [|discriminate]. cbn [bind].
    destruct (mapM _ _) as [scs|] eqn:E; [|discriminate]. cbn [bind].
    intros [= <-] Hi'. cbn [scenarios] in Hi'.
    destruct (mapM_lookup_inv _ _ _ _ _ E Hi') as (e & He & _). now exists e. }
  destruct He as [e He]. exists e. split; [exact He|].
  destruct (read_feature_entity c f i e H He) as (e'' & Hi'' & Hrest).
  assert (e'' = e') as -> by congruence. exact Hrest.
Qed.

End AppendOnly.

(** X14.  More lines at the end of the input only add to the result: the
    description of the shorter input is the head of the description of
    the longer one, and every scenario of the shorter input is found at
    the same rank with the same name, class and tags, its steps and its
    example rows at the head of the longer ones. *)
Theorem parse_only_appends (raw more : list string)
    (f f' : FeatureModel (list string)) :
  parseLines raw = Ok f -> parseLines (raw ++ more) = Ok f' ->
  description f `prefix_of` description f' /\
  forall i e, scenarios f !! i = Some e ->
    exists e', scenarios f' !! i = Some e' /\ extends_entity e e'.
Proof.
  unfold parseLines. rewrite map_app, run_app.
  destruct (run initial (map trim raw)) as [c|] eqn:E; [|discriminate].
  cbn [bind]. intros H.
  destruct (run c (map trim more)) as [c'|] eqn:E'; [|discriminate].
  cbn [bind]. intros H'. split.
  - rewrite (read_feature_description c f H), (read_feature_description c' f' H').
    exact (run_description_grows _ c c' E').
  - intros i e Hi.
    destruct (read_feature_entity_inv c f i e H Hi)
      as (e0 & Hi0 & Hn0 & Ht0 & Ho0 & Hx0 & Hs0).
    destruct (run_examples_grow _ c c' i e0 E' Hi0)
      as (e1 & Hi1 & (Hn1 & Ht1 & Ho1 & Hs1) & Px).
    destruct (read_feature_entity c' f' i e1 H' Hi1)
      as (e' & Hi' & Hn' & Ht' & Ho' & Hx' & Hs').
    destruct (run_store_grows _ c c' _ _ E' Hs0) as (arr & Harr & Ps).
    exists e'. split; [exact Hi'|]. unfold extends_entity, entity_head.
    repeat split.
    + congruence.
    + congruence.
    + rewrite <- Hs1 in Hs'. assert (arr = entity_steps e') as <- by congruence.
      exact Ps.
    + rewrite Hx0, Hx'. exact Px.
Qed.

Lemma parse_only_appends_witness :
  exists f f',
    parseLines ["Scenario Outline: o"; "Given <a>"; "| a |"] = Ok f /\
    parseLines (["Scenario Outline: o"; "Given <a>"; "| a |"]
                ++ ["| 1 |"; "Then b"; "text"]) = Ok f' /\
    description f `prefix_of` description f' /\
    forall i e, scenarios f !! i = Some e ->
      exists e', scenarios f' !! i = Some e' /\ extends_entity e e'.
Proof.
  eexists. eexists.
  split; [vm_compute; reflexivity|]. split; [vm_compute; reflexivity|].
  apply (parse_only_appends ["Scenario Outline: o"; "Given <a>"; "| a |"]
                            ["| 1 |"; "Then b"; "text"]);
    vm_compute; reflexivity.
Defined.

(** ** The table of an outline *)

Section ExamplesTable.

Lemma table_no_fence (line : string) :
  startsWith line "|" = true -> startsWith line fence = false.
Proof. intros H. destruct (startsWith_app _ _ H) as [rest ->]. reflexivity. Qed.

Lemma process_Examples (c : Context) (line : string) :
  inDocString c = false -> startsWith line "Examples:" = true ->
  process_line c line = Ok (set_headers [] c).
Proof.
  intros Hdoc H. rewrite process_plain; [| |exact Hdoc].
  - apply classify_Examples in H. now rewrite H.
  - destruct (startsWith_app _ _ H) as [rest ->]. reflexivity.
Qed.

Lemma step_keeps_current (c c' : Context) (line : string) :
  step c line c' -> declared_entity line = None ->
  currentScenario c' = currentScenario c.
Proof.
  intros Hstep Hdecl. unfold declared_entity in Hdecl.
  destruct Hstep; cbn; try reflexivity.
  - destruct (startsWith line "Scenario Outline:"); discriminate.
  - destruct (startsWith line "Scenario Outline:"); [discriminate|].
    destruct (startsWith line "Scenario:"); discriminate.
Qed.

(** Outside a doc string, only a table row changes an entity that the
    feature already has. *)
Lemma plain_no_table (c c' : Context) (line : string) :
  startsWith line fence = false -> inDocString c = false ->
  startsWith line "|" = false ->
  process_line c line = Ok c' ->
  scenarios (feature c) `prefix_of` scenarios (feature c').
Proof.
  intros Hf Hdoc Ht. rewrite (process_plain _ _ Hf Hdoc).
  destruct (classify line) eqn:K; try (now intros [= <-]).
  - intros [= <-]. cbn. now apply prefix_app_r.
  - intros [= <-]. cbn. now apply prefix_app_r.
  - apply classify_Table in K. congruence.
  - unfold push_collector. cbv zeta.
    destruct (store c !! currentStepCollector c); [|discriminate].
    now intros [= <-].
  - destruct (mode_is_none (mode c)); now intros [= <-].
Qed.

Lemma run_no_table (lines : list string) (c c' : Context) :
  fence_free lines -> inDocString c = false ->
  Forall (fun l => startsWith l "|" = false) lines ->
  run c lines = Ok c' ->
  inDocString c' = false /\
  scenarios (feature c) `prefix_of` scenarios (feature c').
Proof.
  revert c. induction lines as [|l lines IH]; intros c Hf Hdoc Ht Hrun.
  - injection Hrun as <-. now split.
  - inversion Hf as [|? ? Hf1 Hf2]; subst.
    inversion Ht as [|? ? Ht1 Ht2]; subst. cbn [run] in Hrun.
    destruct (process_line c l) as [c1|] eqn:E; [|discriminate].
    cbn [bind] in Hrun.
    assert (Hdoc1 : inDocString c1 = false)
      by (rewrite (process_line_doc_flag c c1 l Hf1 E); exact Hdoc).
    destruct (IH c1 Hf2 Hdoc1 Ht2 Hrun) as [Hd Hp].
    split; [exact Hd|].
    transitivity (scenarios (feature c1)); [|exact Hp].
    exact (plain_no_table c c1 l Hf1 Hdoc Ht1 E).
Qed.

Lemma run_keeps_current (lines : list string) (c c' : Context) :
  run c lines = Ok c' ->
  Forall (fun l => declared_entity l = None) lines ->
  currentScenario c' = currentScenario c.
Proof.
  revert c. induction lines as [|l lines IH]; intros c Hrun Hl.
  - now injection Hrun as <-.
  - inversion Hl as [|? ? Hl1 Hl2]; subst. cbn [run] in Hrun.
    destruct (process_line c l) as [c1|] eqn:E; [|discriminate].
    cbn [bind] in Hrun. apply process_line_step in E.
    rewrite (IH c1 Hrun Hl2). now apply (step_keeps_current c c1 l).
Qed.

(** Data rows, one after the other, under an outline. *)
Lemma run_rows (rows : list string) (c : Context) (i : nat)
    (o : ScenarioOutlineModel nat) :
  inDocString c = false -> headers c <> [] ->
  currentScenario c = Some i ->
  scenarios (feature c) !! i = Some (Outline o) ->
  Forall (fun r => startsWith r "|" = true) rows ->
  exists c' o',
    run c rows = Ok c' /\ inDocString c' = false /\
    scenarios (feature c') !! i = Some (Outline o') /\
    so_examples o'
    = so_examples o
      ++ map (fun r => make_row (headers c) (parseTableRow r)) rows.
Proof.
  revert c o. induction rows as [|r rows IH]; intros c o Hdoc Hh Hcur Hi Hrows.
  - exists c, o. rewrite app_nil_r. auto.
  - inversion Hrows as [|? ? Hr Hrows']; subst. cbn [run].
    rewrite (process_table_row c r Hdoc Hr). unfold on_table_row.
    destruct (headers c) as [|h0 hs] eqn:Eh; [contradiction|].
    cbn [length Nat.eqb]. rewrite Hcur, Hi. cbn [bind].
    set (c1 := push_example i o (make_row (h0 :: hs) (parseTableRow r)) c).
    destruct (IH c1 {| so_name := so_name o; so_steps := so_steps o;
                       so_examples := so_examples o
                                        ++ [make_row (h0 :: hs) (parseTableRow r)];
                       so_tags := so_tags o |})
      as (c' & o' & Hrun & Hd & Hi' & Hx).
    + exact Hdoc.
    + subst c1. cbn. now rewrite Eh.
    + exact Hcur.
    + subst c1. cbn.
      now rewrite list_lookup_insert_eq by (now apply lookup_lt_Some in Hi).
    + exact Hrows'.
    + exists c', o'. repeat split; [exact Hrun | exact Hd | exact Hi' |].
      rewrite Hx. cbn [so_examples]. rewrite <- app_assoc. f_equal.
      subst c1. cbn. now rewrite Eh.
Qed.

(** Once a later scenario is the current one, the example rows of an
    entity are not touched again. *)
Lemma step_examples_frozen (c c' : Context) (line : string) (i j : nat)
    (e : Entity nat) :
  step c line c' ->
  currentScenario c = Some j -> i < j ->
  scenarios (feature c) !! i = Some e ->
  exists e' j',
    scenarios (feature c') !! i = Some e' /\
    entity_examples e' = entity_examples e /\
    currentScenario c' = Some j' /\ i < j'.
Proof.
  intros Hstep Hcur Hlt Hi.
  pose proof (lookup_lt_Some _ _ _ Hi) as Hlen.
  destruct Hstep; cbn; try solve [exists e, j; auto].
  - exists e. eexists. repeat split; [now apply lookup_app_l_Some | lia].
  - exists e. eexists. repeat split; [now apply lookup_app_l_Some | lia].
  - exists e, j. assert (i0 = j) as -> by congruence.
    rewrite list_lookup_insert_ne by lia. auto.
Qed.

Lemma run_examples_frozen (lines : list string) (c c' : Context) (i j : nat)
    (e : Entity nat) :
  run c lines = Ok c' ->
  currentScenario c = Some j -> i < j ->
  scenarios (feature c) !! i = Some e ->
  exists e', scenarios (feature c') !! i = Some e' /\
             entity_examples e' = entity_examples e.
Proof.
  revert c e j. induction lines as [|l lines IH]; intros c e j Hrun Hcur Hlt Hi.
  - injection Hrun as <-. now exists e.
  - cbn [run] in Hrun. destruct (process_line c l) as [c1|] eqn:E; [|discriminate].
    cbn [bind] in Hrun. apply process_line_step in E.
    destruct (step_examples_frozen c c1 l i j e E Hcur Hlt Hi)
      as (e1 & j1 & Hi1 & Hx1 & Hcur1 & Hlt1).
    destruct (IH c1 e1 j1 Hrun Hcur1 Hlt1 Hi1) as (e2 & Hi2 & Hx2).
    exists e2. split; [exact Hi2 | congruence].
Qed.

Lemma process_declared_current (c c' : Context) (line : string) :
  inDocString c = false -> declared_entity line <> None ->
  process_line c line = Ok c' ->
  currentScenario c' = Some (length (scenarios (feature c))) /\
  scenarios (feature c) `prefix_of` scenarios (feature c').
Proof.
  intros Hdoc. unfold declared_entity.
  destruct (startsWith line "Scenario Outline:") eqn:O.
  { intros _. rewrite (process_ScenarioOutline c line Hdoc O).
    intros [= <-]. cbn. split; [reflexivity | now apply prefix_app_r]. }
  destruct (startsWith line "Scenario:") eqn:S; [|contradiction].
  intros _. rewrite (process_Scenario c line Hdoc S).
  intros [= <-]. cbn. split; [reflexivity | now apply prefix_app_r].
Qed.

End ExamplesTable.

(** X15.  An outline line, then lines among which there is no table row,
    no scenario line and no doc-string fence, then an [Examples:] line, a
    header row with a cell and data rows: when no fence occurs before the
    outline line, and after the data rows neither a table row nor a fence
    comes before the next scenario line, the example rows of the outline
    are the data rows, in order, each zipped with the header row. *)
Theorem examples_table (raw pre body rows gap post : list string)
    (line ex hl : string) (f : FeatureModel (list string)) :
  map trim raw = pre ++ line :: body ++ ex :: hl :: rows ++ gap ++ post ->
  fence_free pre -> fence_free body -> fence_free gap ->
  startsWith line "Scenario Outline:" = true ->
  Forall (fun l => declared_entity l = None /\ startsWith l "|" = false) body ->
  startsWith ex "Examples:" = true ->
  startsWith hl "|" = true -> parseTableRow hl <> [] ->
  Forall (fun r => startsWith r "|" = true) rows ->
  Forall (fun l => startsWith l "|" = false) gap ->
  match post with [] => True | l :: _ => declared_entity l <> None end ->
  parseLines raw = Ok f ->
  exists e,
    scenarios f !! length (omap declared_entity pre) = Some e /\
    is_outline e = true /\
    entity_examples e
    = map (fun r => make_row (parseTableRow hl) (parseTableRow r)) rows.
Proof.
  intros Hsplit Hf1 Hf2 Hf3 Hline Hbody Hex Hhl Hne Hrows Hgap Hpost.
  unfold parseLines. rewrite Hsplit, run_app.
  destruct (run initial pre) as [c0|] eqn:E0; [|discriminate]. cbn [bind run].
  assert (Hd0 : inDocString c0 = false)
    by (now rewrite (run_doc_flag pre initial c0 Hf1 E0)).
  rewrite (process_ScenarioOutline c0 line Hd0 Hline). cbn [bind].
  set (c1 := on_ScenarioOutline line c0).
  set (i := length (omap declared_entity pre)).
  assert (Hlen : length (scenarios (feature c0)) = i).
  { rewrite <- (length_map entity_head (scenarios (feature c0))).
    now rewrite (run_heads pre initial c0 Hf1 eq_refl E0). }
  rewrite run_app.
  destruct (run c1 body) as [c2|] eqn:E2; [|discriminate]. cbn [bind run].
  assert (Hd2 : inDocString c2 = false)
    by (rewrite (run_doc_flag body c1 c2 Hf2 E2); exact Hd0).
  assert (Hcur2 : currentScenario c2 = Some i).
  { rewrite (run_keeps_current body c1 c2 E2).
    - subst c1. cbn. now rewrite Hlen.
    - eapply Forall_impl; [exact Hbody|]. now intros l [? _]. }
  destruct (run_no_table body c1 c2 Hf2 Hd0) as [_ Hp2];
    [eapply Forall_impl; [exact Hbody|]; now intros l [_ ?] | exact E2 |].
  assert (Hi2 : exists o, scenarios (feature c2) !! i = Some (Outline o) /\
                          so_examples o = []).
  { eexists. split.
    - eapply prefix_lookup_Some; [|exact Hp2].
      subst c1. cbn. now apply list_lookup_middle.
    - reflexivity. }
  destruct Hi2 as (o2 & Hi2 & Hx2).
  rewrite (process_Examples c2 ex Hd2 Hex). cbn [bind].
  rewrite (process_table_row (set_headers [] c2) hl Hd2 Hhl).
  unfold on_table_row at 1. cbn [headers set_headers length Nat.eqb bind].
  set (c4 := set_headers (parseTableRow hl) (set_headers [] c2)).
  rewrite run_app.
  destruct (run_rows rows c4 i o2 Hd2 Hne Hcur2 Hi2 Hrows)
    as (c5 & o5 & E5 & Hd5 & Hi5 & Hx5).
  rewrite E5. cbn [bind]. rewrite Hx2 in Hx5. cbn [app] in Hx5.
  rewrite run_app.
  destruct (run c5 gap) as [c6|] eqn:E6; [|discriminate]. cbn [bind].
  destruct (run_no_table gap c5 c6 Hf3 Hd5 Hgap E6) as [Hd6 Hp6].
  pose proof (prefix_lookup_Some _ _ _ _ Hi5 Hp6) as Hi6.
  destruct (run c6 post) as [c7|] eqn:E7; [|discriminate]. cbn [bind].
  intros H.
  assert (Hi7 : exists e7, scenarios (feature c7) !! i = Some e7 /\
                           is_outline e7 = true /\
                           entity_examples e7 = so_examples o5).
  { destruct post as [|n post].
    - injection E7 as <-. exists (Outline o5). auto.
    - cbn [run] in E7.
      destruct (process_line c6 n) as [c6'|] eqn:En; [|discriminate].
      cbn [bind] in E7.
      destruct (process_declared_current c6 c6' n Hd6 Hpost En) as [Hcur Hp].
      pose proof (prefix_lookup_Some _ _ _ _ Hi6 Hp) as Hi6'.
      destruct (run_examples_frozen post c6' c7 i _ _ E7 Hcur
                  (lookup_lt_Some _ _ _ Hi6) Hi6') as (e7 & Hi7 & Hx7).
      destruct (run_keeps_entities _ c6' c7 _ _ E7 Hi6')
        as (e7' & Hi7' & _ & _ & Ho & _).
      assert (e7' = e7) as -> by congruence.
      exists e7. repeat split; [exact Hi7 | now rewrite <- Ho | exact Hx7]. }
  destruct Hi7 as (e7 & Hi7 & Ho7 & Hx7).
  destruct (read_feature_entity c7 f i e7 H Hi7)
    as (e' & Hi' & _ & _ & Ho' & Hx' & _).
  exists e'. repeat split; [exact Hi' | congruence |].
  rewrite Hx', Hx7, Hx5. reflexivity.
Qed.

Lemma examples_table_witness :
  exists f,
    parseLines ["Scenario Outline: o"; "Given <a> and <b>"; "Examples:";
                "| a | b |"; "| 1 | 2 |"; "| 3 |"; ""; "Scenario: s"; "| x |"]
    = Ok f /\
    exists e,
      scenarios f !! 0 = Some e /\ is_outline e = true /\
      entity_examples e
      = [ [("a", "1"); ("b", "2")]; [("a", "3"); ("b", "")] ].
Proof.
  eexists. split; [vm_compute; reflexivity|].
  apply (examples_table
           ["Scenario Outline: o"; "Given <a> and <b>"; "Examples:";
            "| a | b |"; "| 1 | 2 |"; "| 3 |"; ""; "Scenario: s"; "| x |"]
           [] ["Given <a> and <b>"] ["| 1 | 2 |"; "| 3 |"] [""]
           ["Scenario: s"; "| x |"]
           "Scenario Outline: o" "Examples:" "| a | b |");
    [reflexivity | repeat constructor | repeat constructor | repeat constructor
    | reflexivity | repeat constructor | reflexivity | reflexivity
    | discriminate | repeat constructor | repeat constructor | discriminate
    | vm_compute; reflexivity].
Defined.

(** ** Tables without outline *)

Section TablesWithoutOutline.

Lemma wf_set_headers (h : list string) (c : Context) :
  wf c -> wf (set_headers h c).
Proof. intros [H1 H2 H3 H4]. now constructor. Qed.

(** Outside a doc string, the buffered header row has no effect on a line
    that is no table row, except that an [Examples:] line empties it. *)
Lemma process_line_headers (c : Context) (h : list string) (line : string) :
  startsWith line fence = false -> inDocString c = false ->
  startsWith line "|" = false ->
  process_line (set_headers h c) line
  = (c' <- process_line c line ;;
     Ok (set_headers (if startsWith line "Examples:" then [] else h) c')).
Proof.
  intros Hf Hdoc Ht.
  rewrite (process_plain (set_headers h c) line Hf Hdoc),
    (process_plain c line Hf Hdoc).
  destruct (startsWith line "Examples:") eqn:He.
  { apply classify_Examples in He. now rewrite He. }
  destruct (classify line) eqn:K; try reflexivity.
  - apply classify_Examples in K. congruence.
  - apply classify_Table in K. congruence.
  - unfold push_collector. cbv zeta.
    change (store (set_headers h c)) with (store c).
    change (currentStepCollector (set_headers h c)) with (currentStepCollector c).
    destruct (store c !! currentStepCollector c); reflexivity.
  - change (mode (set_headers h c)) with (mode c).
    destruct (mode_is_none (mode c)); reflexivity.
Qed.

Lemma table_row_without_outline (c : Context) (line : string) :
  wf c ->
  Forall (fun e => is_outline e = false) (scenarios (feature c)) ->
  exists h', on_table_row line c = Ok (set_headers h' c).
Proof.
  intros Hwf Hno. unfold on_table_row.
  assert (Hid : c = set_headers (headers c) c) by now destruct c.
  destruct (Nat.eqb _ _); [now eexists|].
  destruct (currentScenario c) as [i|] eqn:Hcur;
    [|exists (headers c); now rewrite <- Hid].
  destruct (scenarios (feature c) !! i) as [[s|o]|] eqn:Hi.
  - exists (headers c). now rewrite <- Hid.
  - pose proof (Forall_lookup_1 _ _ _ _ Hno Hi) as Ho. discriminate.
  - apply lookup_ge_None in Hi. pose proof (wf_current c Hwf i Hcur). lia.
Qed.

Lemma run_drop_tables (lines : list string) (c : Context) (h : list string) :
  fence_free lines -> inDocString c = false -> wf c ->
  Forall (fun l => startsWith l "Scenario Outline:" = false) lines ->
  Forall (fun e => is_outline e = false) (scenarios (feature c)) ->
  exists h',
    run (set_headers h c) lines
    = (c' <- run c (filter (fun l => startsWith l "|" = false) lines) ;;
       Ok (set_headers h' c')).
Proof.
  revert c h. induction lines as [|l lines IH]; intros c h Hf Hdoc Hwf Hl Hno.
  - exists h. reflexivity.
  - inversion Hf as [|? ? Hf1 Hf2]; subst.
    inversion Hl as [|? ? Hl1 Hl2]; subst.
    rewrite filter_cons. cbn [run].
    destruct (startsWith l "|") eqn:Ht.
    + rewrite decide_False by discriminate.
      rewrite (process_table_row (set_headers h c) l Hdoc Ht).
      destruct (table_row_without_outline (set_headers h c) l
                  (wf_set_headers h c Hwf) Hno) as [h1 ->].
      cbn [bind]. exact (IH c h1 Hf2 Hdoc Hwf Hl2 Hno).
    + rewrite decide_True by reflexivity. cbn [run].
      rewrite (process_line_headers c h l Hf1 Hdoc Ht).
      destruct (process_line_ok c l Hwf) as (c1 & E & Hwf1).
      rewrite E. cbn [bind].
      apply IH; [exact Hf2 | | exact Hwf1 | exact Hl2 |].
      * rewrite (process_line_doc_flag c c1 l Hf1 E). exact Hdoc.
      * pose proof (plain_heads c c1 l Hf1 Hdoc E) as Hh.
        unfold declared_entity in Hh. rewrite Hl1 in Hh.
        assert (Hm : Forall (fun p : string * bool => p.2 = false)
                            (map entity_head (scenarios (feature c1)))).
        { rewrite Hh. apply Forall_app. split.
          - apply Forall_fmap. exact Hno.
          - destruct (startsWith l "Scenario:"); repeat constructor. }
        apply Forall_fmap in Hm. exact Hm.
Qed.

End TablesWithoutOutline.

(** X16.  Without any [Scenario Outline:] line, table rows are dropped: in
    an input without doc-string fence, removing the lines that start with
    a pipe once trimmed gives the same feature. *)
Theorem tables_without_outline_are_dropped (raw : list string) :
  fence_free (map trim raw) ->
  Forall (fun l => startsWith l "Scenario Outline:" = false) (map trim raw) ->
  parseLines (filter (fun r => startsWith (trim r) "|" = false) raw)
  = parseLines raw.
Proof.
  intros Hf Hno. unfold parseLines.
  assert (E : map trim (filter (fun r => startsWith (trim r) "|" = false) raw)
              = filter (fun l => startsWith l "|" = false) (map trim raw)).
  { clear. induction raw as [|r raw IH]; [reflexivity|].
    cbn [map]. rewrite !filter_cons.
    destruct (decide (startsWith (trim r) "|" = false)); cbn [map]; now rewrite IH. }
  rewrite E.
  destruct (run_drop_tables (map trim raw) initial [] Hf eq_refl wf_initial Hno)
    as [h' Hrun]; [constructor|].
  change (set_headers [] initial) with initial in Hrun. rewrite Hrun.
  destruct (run initial (filter _ (map trim raw))) as [c|]; reflexivity.
Qed.

Lemma tables_without_outline_are_dropped_witness :
  parseLines (filter (fun r => startsWith (trim r) "|" = false)
                     ["Scenario: s"; "Given the users"; " | name | age |";
                      "| bob | 42 |"; "Then done"])
  = parseLines ["Scenario: s"; "Given the users"; " | name | age |";
                "| bob | 42 |"; "Then done"].
Proof.
  apply tables_without_outline_are_dropped; repeat constructor.
Defined.

(** ** The variables of a step, in order *)

Section ExtractedInOrder.

Lemma store_each_fresh (prefix : string) (val : string -> value)
    (l : list string) (index : nat) (variables : obj value) :
  (forall s, prefix +:+ s <> "__proto__") ->
  (forall s, array_index (prefix +:+ s) = None) ->
  (forall j, j < length l -> prefix +:+ of_nat (index + j + 1) ∉ keys variables) ->
  store_each prefix val index l variables
  = variables ++ numbered prefix val index l.
Proof.
  intros Hproto Hidx. revert index variables.
  induction l as [|x l IH]; intros index variables Hfresh.
  - cbn. now rewrite app_nil_r.
  - cbn [store_each numbered].
    rewrite set_fresh; [| apply Hproto | apply Hidx |].
    + rewrite IH; [now rewrite <- app_assoc|].
      intros j Hj. unfold keys. rewrite fmap_app, elem_of_app. intros [H|H].
      * apply (Hfresh (S j)); [cbn; lia|].
        replace (index + S j + 1) with (S index + j + 1) by lia. exact H.
      * change ([(prefix +:+ of_nat (index + 1), val x)].*1)
          with [prefix +:+ of_nat (index + 1)] in H.
        apply list_elem_of_singleton in H.
        apply append_inj, of_nat_inj in H. lia.
    + specialize (Hfresh 0). rewrite Nat.add_0_r in Hfresh.
      apply Hfresh. cbn. lia.
Qed.

Lemma keys_numbered (prefix : string) (val : string -> value) (index : nat)
    (l : list string) (k : string) :
  k ∈ keys (numbered prefix val index l) -> exists s, k = prefix +:+ s.
Proof.
  revert index. induction l as [|x l IH]; intros index H; [inversion H|].
  cbn in H. apply elem_of_cons in H as [->|H]; [now eexists|].
  exact (IH (S index) H).
Qed.

Lemma numbered_elem (prefix : string) (val : string -> value) (index : nat)
    (l : list string) (k : string) (v : value) :
  (k, v) ∈ numbered prefix val index l -> exists x, x ∈ l /\ v = val x.
Proof.
  revert index. induction l as [|x l IH]; intros index H; [inversion H|].
  cbn [numbered] in H. apply elem_of_cons in H as [[= -> ->]|H].
  - exists x. split; [constructor | reflexivity].
  - destruct (IH (S index) H) as (y & Hy & ->).
    exists y. split; [now constructor | reflexivity].
Qed.

Lemma get_elem {V} (k : string) (v : V) (o : obj V) :
  get k o = Some v -> (k, v) ∈ o.
Proof.
  induction o as [|[k' v'] o IH]; [discriminate|]. cbn [get].
  destruct (String.eqb_spec k k') as [->|Hne].
  - intros [= ->]. constructor.
  - intros H. constructor. now apply IH.
Qed.

Lemma extracted_closed_form (step : string) :
  extractVariablesFromStep step
  = numbered "key" (fun m => VString (remove_dquotes m)) 0 (scan_quoted 0 step)
    ++ numbered "num" (fun num => VNumber (Number num)) 0 (scan_number 0 None step).
Proof.
  rewrite extractVariablesFromStep_stores.
  rewrite (store_each_fresh "key" _ (scan_quoted 0 step) 0 []);
    [| discriminate | reflexivity | intros j _ H; inversion H].
  cbn [app].
  rewrite store_each_fresh; [reflexivity | discriminate | reflexivity |].
  intros j _ H. apply keys_numbered in H as [s H]. discriminate.
Qed.

Lemma remove_dquotes_clean (s : string) :
  has_char is_dquote (remove_dquotes s) = false.
Proof.
  induction s as [|c s IH]; [reflexivity|]. cbn [remove_dquotes].
  destruct (Ascii.eqb c dquote) eqn:E; [exact IH|].
  cbn [has_char]. unfold is_dquote at 1. now rewrite E.
Qed.

Lemma match_quoted_at_body (s m : string) :
  match_quoted_at s = Some m -> remove_dquotes m <> "".
Proof.
  unfold match_quoted_at. destruct s as [|c rest]; [discriminate|].
  destruct (Ascii.eqb c dquote); [|discriminate].
  pose proof (remove_dquotes_span rest) as Hbody.
  destruct (span not_dquote rest) as [body after]. cbn [fst] in Hbody.
  destruct body as [|b body]; [discriminate|].
  destruct after as [|a after]; [discriminate|].
  intros [= <-]. cbn [remove_dquotes]. rewrite Ascii.eqb_refl.
  rewrite remove_dquotes_app, Hbody. discriminate.
Qed.

Lemma scan_quoted_bodies (s : string) (skip : nat) :
  Forall (fun m => remove_dquotes m <> "") (scan_quoted skip s).
Proof.
  revert skip. induction s as [|c s IH]; intros skip; [constructor|].
  cbn [scan_quoted]. destruct skip as [|k]; [|apply IH].
  destruct (match_quoted_at (String c s)) as [m|] eqn:E; [|apply IH].
  constructor; [exact (match_quoted_at_body _ _ E) | apply IH].
Qed.

Lemma no_quote_span (s : string) :
  has_char is_dquote s = false -> snd (span not_dquote s) = "".
Proof.
  induction s as [|c s IH]; [reflexivity|]. cbn [has_char span].
  intros H. apply orb_false_iff in H as [Hc Hs].
  assert (Hn : not_dquote c = true)
    by (unfold not_dquote; unfold is_dquote in Hc; now rewrite Hc).
  rewrite Hn. specialize (IH Hs). now destruct (span not_dquote s).
Qed.

Lemma scan_number_no_digit (s : string) (skip : nat) (before : option ascii) :
  has_char is_digit s = false -> scan_number skip before s = [].
Proof.
  revert skip before. induction s as [|c s IH]; intros skip before H; [reflexivity|].
  cbn [has_char] in H. apply orb_false_iff in H as [Hc Hs].
  cbn [scan_number]. destruct skip as [|k]; [|now apply IH].
  assert (E : match_number_at before (String c s) = None).
  { unfold match_number_at. destruct (boundary _ _); [|reflexivity].
    cbn [span]. now rewrite Hc. }
  rewrite E. now apply IH.
Qed.

End ExtractedInOrder.

(** X17.  The properties of the object that [extractVariablesFromStep]
    returns are, in the order of their enumeration, [key1], [key2], ...
    for the quoted matches, then [num1], [num2], ... for the number
    matches, each with the value of its match. *)
Theorem extracted_in_order (step : string) :
  extractVariablesFromStep step
  = numbered "key" (fun m => VString (remove_dquotes m)) 0
             (scan quoted_pattern 0 None step)
    ++ numbered "num" (fun num => VNumber (Number num)) 0
                (scan number_pattern 0 None step).
Proof.
  rewrite scan_quoted_pattern, scan_number_pattern.
  apply extracted_closed_form.
Qed.

(** X18.  No value that [extractVariablesFromStep] returns is degenerate: a
    string value is not empty and holds no double quote, and a number
    value is not [NaN]. *)
Theorem extracted_values (step k : string) (v : value) :
  get k (extractVariablesFromStep step) = Some v ->
  match v with
  | VString s => s <> "" /\ has_char is_dquote s = false
  | VNumber n => n <> NaN
  end.
Proof.
  intros H. apply get_elem in H. rewrite extracted_closed_form in H.
  apply elem_of_app in H as [H|H];
    apply numbered_elem in H as (m & Hm & ->).
  - split; [|apply remove_dquotes_clean].
    exact (proj1 (Forall_forall _ _) (scan_quoted_bodies step 0) m Hm).
  - exact (proj1 (Forall_forall _ _) (scan_number_Number step 0 None) m Hm).
Qed.

Lemma extracted_values_witness :
  "b c" <> "" /\ has_char is_dquote "b c" = false.
Proof.
  exact (extracted_values
           ("When " +:+ quoted "a" +:+ " meets " +:+ quoted "b c" +:+ " 3 times")
           "key2" (VString "b c") eq_refl).
Defined.

(** X19.  A step without double quote and without digit has no variable:
    the object is empty. *)
Theorem no_quote_no_digit_no_variable (step : string) :
  has_char is_dquote step = false -> has_char is_digit step = false ->
  extractVariablesFromStep step = [].
Proof.
  intros Hq Hd. rewrite extracted_closed_form.
  rewrite (scan_quoted_no_quote step 0 (no_quote_span step Hq)).
  now rewrite (scan_number_no_digit step 0 None Hd).
Qed.

Lemma no_quote_no_digit_no_variable_witness :
  extractVariablesFromStep "When the user submits the login form" = [].
Proof. apply no_quote_no_digit_no_variable; reflexivity. Defined.

(** ** The test cases of the output *)

Section TestCases.

Variable NumberToString : Q -> string.

Lemma filter_none {A} (P : A -> Prop) `{!forall x, Decision (P x)} (l : list A) :
  Forall (fun x => ~ P x) l -> filter P l = [].
Proof.
  induction 1 as [|x l Hx _ IH]; [reflexivity|].
  now rewrite filter_cons, decide_False.
Qed.

Lemma comment_no_title (steps : list string) :
  filter (fun l => is_title_line l = true) (map comment steps) = [].
Proof.
  apply filter_none, Forall_fmap, Forall_forall. intros s _. discriminate.
Qed.

Lemma title_line_is_title (t : string) : is_title_line (title_line t) = true.
Proof. apply (startsWith_self "  it('"). Qed.

Lemma titles_emit_scenario (e : Entity (list string)) :
  filter (fun l => is_title_line l = true) (emit_scenario NumberToString [] e)
  = [title_line (scenario_title e)].
Proof.
  destruct e as [s|o]; unfold emit_scenario, scenario_title;
    cbn [app is_outline entity_name entity_steps].
  - change ("  it('" +:+ sc_name s +:+ "', async () => {")
      with (title_line (sc_name s)).
    rewrite filter_cons, decide_True by apply title_line_is_title.
    f_equal. rewrite !filter_app, comment_no_title. reflexivity.
  - change ("  it('" +:+ ("Scenario Outline: " +:+ so_name o) +:+ "', async () => {")
      with (title_line ("Scenario Outline: " +:+ so_name o)).
    rewrite filter_cons, decide_True by apply title_line_is_title.
    f_equal. rewrite !filter_app, comment_no_title. cbn [app].
    rewrite (filter_none _ (map _ _)); [reflexivity|].
    apply Forall_fmap, Forall_fmap, Forall_forall. intros r _. discriminate.
Qed.

Lemma titles_scenario_cases (scs : list (Entity (list string))) :
  filter (fun l => is_title_line l = true) (scenario_cases NumberToString scs)
  = map (fun e => title_line (scenario_title e)) scs.
Proof.
  unfold scenario_cases. induction scs as [|e scs IH]; [reflexivity|].
  cbn [map concat]. rewrite filter_app, titles_emit_scenario, IH. reflexivity.
Qed.

Lemma titles_emit_background (f : FeatureModel (list string)) :
  filter (fun l => is_title_line l = true) (emit_background NumberToString f [])
  = map title_line (background_title f).
Proof.
  unfold emit_background, background_title.
  destruct (background f) as [bg|]; [|reflexivity].
  destruct (Nat.ltb 0 (length (bg_steps bg))); [|reflexivity].
  cbn [app map].
  change ("  it('Background: " +:+ first_step (bg_steps bg) +:+ "', async () => {")
    with (title_line ("Background: " +:+ first_step (bg_steps bg))).
  rewrite filter_cons, decide_True by apply title_line_is_title.
  f_equal. rewrite !filter_app, comment_no_title. reflexivity.
Qed.

Lemma titles_generate_lines (f : FeatureModel (list string)) :
  filter (fun l => is_title_line l = true) (generate_lines NumberToString f)
  = map title_line (background_title f ++ map scenario_title (scenarios f)).
Proof.
  rewrite generate_lines_shape, !filter_app.
  rewrite titles_emit_background, titles_scenario_cases.
  rewrite map_app, map_map. cbn. now rewrite app_nil_r.
Qed.

(** X20.  The output has one test case for the background, when it has
    steps, and then one for each scenario, in the order of the feature:
    the lines that open a test case are exactly their title lines. *)
Theorem test_cases_in_order (f : FeatureModel (list string)) :
  filter (fun l => is_title_line l = true) (generate_lines NumberToString f)
  = map title_line (background_title f ++ map scenario_title (scenarios f)).
Proof. apply titles_generate_lines. Qed.

Lemma elem_concat {A} (x : A) (l : list A) (ls : list (list A)) :
  x ∈ l -> l ∈ ls -> x ∈ concat ls.
Proof.
  intros Hx. induction ls as [|l' ls IH]; intros Hl; [inversion Hl|].
  cbn [concat]. apply elem_of_app.
  apply elem_of_cons in Hl as [<-|Hl]; [now left | right; now apply IH].
Qed.

Lemma comment_in_case (e : Entity (list string)) (s : string) :
  s ∈ entity_steps e -> comment s ∈ emit_scenario NumberToString [] e.
Proof.
  intros Hs. destruct e as [sc|o]; unfold emit_scenario; cbn [app];
    constructor; rewrite <- !app_assoc;
    apply elem_of_app; left; now apply list_elem_of_fmap_2.
Qed.

(** X21.  Every step of the feature, of the background or of a scenario,
    is found in the output as a comment line. *)
Theorem every_step_is_commented (f : FeatureModel (list string)) :
  Forall (fun s => comment s ∈ generate_lines NumberToString f) (all_steps f).
Proof.
  rewrite generate_lines_shape. unfold all_steps.
  apply Forall_app. split.
  - apply Forall_forall. intros s Hs.
    apply elem_of_app. right. apply elem_of_app. left.
    unfold emit_background. destruct (background f) as [bg|]; [|inversion Hs].
    destruct (bg_steps bg) as [|s0 steps] eqn:E; [inversion Hs|].
    cbn [length Nat.ltb Nat.leb app]. constructor.
    rewrite <- !app_assoc. apply elem_of_app. left.
    now apply list_elem_of_fmap_2.
  - apply Forall_concat, Forall_fmap, Forall_forall. intros e He.
    apply Forall_forall. intros s Hs. cbn [compose] in Hs.
    apply elem_of_app. right. apply elem_of_app. right. apply elem_of_app. left.
    unfold scenario_cases.
    apply (elem_concat _ (emit_scenario NumberToString [] e));
      [now apply comment_in_case | now apply list_elem_of_fmap_2].
Qed.

(** X22.  From the lines of a file without doc-string fence to the array
    of lines of the generator: the entries of the array that start with
    the opening of a test case are the title line of the background,
    when it has steps, and then one title line for each [Scenario:] or
    [Scenario Outline:] line, in the order of the lines, with the title
    that the line declares. *)
Theorem one_test_per_scenario_line (raw : list string)
    (f : FeatureModel (list string)) :
  fence_free (map trim raw) -> parseLines raw = Ok f ->
  filter (fun l => is_title_line l = true) (generate_lines NumberToString f)
  = map title_line
        (background_title f
         ++ map declared_title (omap declared_entity (map trim raw))).
Proof.
  intros Hf. unfold parseLines.
  destruct (run initial (map trim raw)) as [c|] eqn:E; [|discriminate].
  cbn [bind]. intros H.
  assert (Hh : omap declared_entity (map trim raw)
               = map entity_head (scenarios f)).
  { rewrite (read_feature_heads c f H).
    now rewrite (run_heads _ initial c Hf eq_refl E). }
  rewrite titles_generate_lines, Hh, map_map. reflexivity.
Qed.

End TestCases.

Lemma one_test_per_scenario_line_witness :
  exists f,
    parseLines ["Feature: f"; "Background:"; "Given 1"; "Scenario: a"; "When x";
                "Scenario Outline: b"; "Then y"] = Ok f /\
    filter (fun l => is_title_line l = true) (generate_lines (fun _ : Q => "1") f)
    = [ "  it('Background: Given 1', async () => {";
        "  it('a', async () => {";
        "  it('Scenario Outline: b', async () => {" ].
Proof.
  eexists. split; [vm_compute; reflexivity|].
  apply (one_test_per_scenario_line (fun _ : Q => "1")
           ["Feature: f"; "Background:"; "Given 1"; "Scenario: a"; "When x";
            "Scenario Outline: b"; "Then y"]);
    [repeat constructor | vm_compute; reflexivity].
Defined.

(** ** Names and steps are trimmed *)

Section Trimmed.

Lemma step_names_trimmed (c c' : Context) (line : string) :
  step c line c' ->
  trim (name (feature c)) = name (feature c) /\
  Forall (fun e => trim (entity_name e) = entity_name e) (scenarios (feature c)) ->
  trim (name (feature c')) = name (feature c') /\
  Forall (fun e => trim (entity_name e) = entity_name e) (scenarios (feature c')).
Proof.
  intros Hstep [Hn Hs]. destruct Hstep; cbn; try (split; assumption).
  - split; [apply trim_idem | exact Hs].
  - split; [exact Hn|]. apply Forall_app. split; [exact Hs|].
    repeat constructor. apply trim_idem.
  - split; [exact Hn|]. apply Forall_app. split; [exact Hs|].
    repeat constructor. apply trim_idem.
  - split; [exact Hn|]. apply Forall_insert; [exact Hs|].
    match goal with
    | Hi : scenarios (feature c) !! _ = Some (Outline _) |- _ =>
        exact (Forall_lookup_1 _ _ _ _ Hs Hi)
    end.
Qed.

Lemma run_names_trimmed (lines : list string) (c c' : Context) :
  run c lines = Ok c' ->
  trim (name (feature c)) = name (feature c) /\
  Forall (fun e => trim (entity_name e) = entity_name e) (scenarios (feature c)) ->
  trim (name (feature c')) = name (feature c') /\
  Forall (fun e => trim (entity_name e) = entity_name e) (scenarios (feature c')).
Proof.
  revert c. induction lines as [|l lines IH]; intros c Hrun H.
  - now injection Hrun as <-.
  - cbn [run] in Hrun. destruct (process_line c l) as [c1|] eqn:E; [|discriminate].
    cbn [bind] in Hrun. apply process_line_step in E.
    exact (IH c1 Hrun (step_names_trimmed c c1 l E H)).
Qed.

End Trimmed.

(** X23.  Whatever the input, the name of the feature, the name of every
    scenario and every step that is returned carry no white space at
    either end. *)
Theorem names_and_steps_are_trimmed (raw : list string)
    (f : FeatureModel (list string)) :
  parseLines raw = Ok f ->
  trim (name f) = name f /\
  Forall (fun e => trim (entity_name e) = entity_name e) (scenarios f) /\
  Forall (fun s => trim s = s) (all_steps f).
Proof.
  unfold parseLines.
  destruct (run initial (map trim raw)) as [c|] eqn:E; [|discriminate].
  cbn [bind]. intros H.
  destruct (run_names_trimmed _ initial c E) as [Hn Hs];
    [split; [reflexivity | constructor]|].
  split; [now rewrite (read_feature_name c f H)|]. split.
  - assert (Hh : Forall (fun h : string * bool => trim h.1 = h.1)
                        (map entity_head (scenarios f))).
    { rewrite (read_feature_heads c f H). apply Forall_fmap. exact Hs. }
    apply Forall_fmap in Hh. exact Hh.
  - apply (read_feature_steps _ c f); [|exact H].
    apply (run_store_P _ (map trim raw) initial c); [| |exact E].
    + apply Forall_fmap, Forall_forall. intros r _. apply trim_idem.
    + repeat constructor.
Qed.

Lemma names_and_steps_are_trimmed_witness :
  exists f,
    parseLines ["  Feature:   f  "; " Scenario:  s "; "   Given a   "] = Ok f /\
    trim (name f) = name f /\
    Forall (fun e => trim (entity_name e) = entity_name e) (scenarios f) /\
    Forall (fun s => trim s = s) (all_steps f).
Proof.
  eexists. split; [vm_compute; reflexivity|].
  apply (names_and_steps_are_trimmed
           ["  Feature:   f  "; " Scenario:  s "; "   Given a   "]).
  vm_compute. reflexivity.
Defined.

(** ** A doc string that is not closed *)

Section Unclosed.


End Unclosed.



(** ** Doc strings only give steps *)

Section DocStringsOnlyGiveSteps.

Lemma sim_doc_line (c1 c2 c1' : Context) (line : string) :
  same_but_store c1 c2 ->
  startsWith line fence = true \/ inDocString c1 = true ->
  process_line c1 line = Ok c1' ->
  same_but_store c1' c2 /\
  inDocString c1'
  = if startsWith line fence then negb (inDocString c1) else inDocString c1.
Proof.
  intros (R1 & R2 & R3 & R4 & R5 & R6 & R7) Hdoc.
  rewrite process_line_unrolled. unfold push_collector. cbv zeta.
  destruct (startsWith line fence).
  - cbn [store currentStepCollector set_inDocString].
    destruct (store c1 !! currentStepCollector c1); [|discriminate].
    intros [= <-]. unfold same_but_store. cbn. rewrite length_insert. auto 10.
  - destruct Hdoc as [?|Hdoc]; [discriminate|]. rewrite Hdoc.
    destruct (store c1 !! currentStepCollector c1); [|discriminate].
    intros [= <-]. unfold same_but_store. cbn. rewrite length_insert. auto 10.
Qed.

Lemma sim_plain_line (c1 c2 c1' : Context) (line : string) :
  same_but_store c1 c2 ->
  inDocString c1 = false -> inDocString c2 = false ->
  startsWith line fence = false ->
  process_line c1 line = Ok c1' ->
  exists c2', process_line c2 line = Ok c2' /\ same_but_store c1' c2' /\
              inDocString c1' = false /\ inDocString c2' = false.
Proof.
  intros HR Hd1 Hd2 Hf.
  rewrite (process_plain c1 line Hf Hd1), (process_plain c2 line Hf Hd2).
  destruct c1 as [st1 f1 cur1 col1 m1 h1 p1 d1].
  destruct c2 as [st2 f2 cur2 col2 m2 h2 p2 d2].
  unfold same_but_store in *. cbn in HR, Hd1, Hd2.
  destruct HR as (-> & -> & -> & -> & -> & -> & Hlen). subst d1 d2.
  destruct (classify line);
    try (intros [= <-]; eexists; split; [reflexivity|];
         cbn; rewrite ?length_app, ?Hlen; auto 10).
  - unfold on_table_row. cbn.
    destruct (Nat.eqb (length h2) 0);
      [intros [= <-]; eexists; split; [reflexivity|]; cbn; auto 10|].
    destruct cur2 as [i|];
      [|intros [= <-]; eexists; split; [reflexivity|]; cbn; auto 10].
    destruct (scenarios f2 !! i) as [[s|o]|]; [| |discriminate];
      intros [= <-]; eexists; (split; [reflexivity|]); cbn; auto 10.
  - unfold push_collector. cbn.
    destruct (st1 !! col2) as [a1|] eqn:E1; [|discriminate].
    destruct (st2 !! col2) as [a2|] eqn:E2.
    + intros [= <-]. eexists. split; [reflexivity|]. cbn.
      rewrite !length_insert. auto 10.
    + apply lookup_lt_Some in E1. apply lookup_ge_None in E2. lia.
  - cbn. destruct (mode_is_none m2);
      intros [= <-]; eexists; (split; [reflexivity|]); cbn; auto 10.
Qed.

Lemma run_outside_doc_strings (lines : list string) (c1 c2 c1' : Context) :
  Forall (fun l => trim l = l) lines ->
  same_but_store c1 c2 -> inDocString c2 = false ->
  run c1 lines = Ok c1' ->
  exists c2',
    run c2 (outside_doc_strings (inDocString c1) lines) = Ok c2' /\
    same_but_store c1' c2'.
Proof.
  revert c1 c2. induction lines as [|l lines IH]; intros c1 c2 Ht HR Hd2 Hrun.
  - injection Hrun as <-. now exists c2.
  - inversion Ht as [|? ? Hl Ht']; subst. cbn [run] in Hrun.
    destruct (process_line c1 l) as [c1a|] eqn:E; [|discriminate].
    cbn [bind] in Hrun. cbn [outside_doc_strings]. rewrite Hl.
    destruct (startsWith l fence) eqn:Hf.
    + destruct (sim_doc_line c1 c2 c1a l HR (or_introl Hf) E) as [HR' Hd'].
      rewrite Hf in Hd'. rewrite <- Hd'. now apply IH.
    + destruct (inDocString c1) eqn:Hd1.
      * destruct (sim_doc_line c1 c2 c1a l HR (or_intror Hd1) E) as [HR' Hd'].
        rewrite Hf, Hd1 in Hd'. rewrite <- Hd'. now apply IH.
      * destruct (sim_plain_line c1 c2 c1a l HR Hd1 Hd2 Hf E)
          as (c2a & E2 & HR' & Hd1' & Hd2').
        cbn [run]. rewrite E2. cbn [bind]. rewrite <- Hd1'. now apply IH.
Qed.

Lemma outside_doc_strings_trim (inside : bool) (raw : list string) :
  map trim (outside_doc_strings inside raw)
  = outside_doc_strings inside (map trim raw).
Proof.
  revert inside. induction raw as [|r raw IH]; intros inside; [reflexivity|].
  cbn [map outside_doc_strings]. rewrite trim_idem.
  destruct (startsWith (trim r) fence); [apply IH|].
  destruct inside; [apply IH|]. cbn [map]. now rewrite IH.
Qed.

Lemma outside_doc_strings_fence_free (inside : bool) (raw : list string) :
  fence_free (map trim (outside_doc_strings inside raw)).
Proof.
  unfold fence_free. revert inside.
  induction raw as [|r raw IH]; intros inside; [constructor|].
  cbn [outside_doc_strings].
  destruct (startsWith (trim r) fence) eqn:Hf; [apply IH|].
  destruct inside; [apply IH|]. cbn [map]. constructor; [exact Hf | apply IH].
Qed.

Lemma read_entity_tags (st : list (list string)) (e : Entity nat)
    (e' : Entity (list string)) :
  read_entity st e = Ok e' ->
  entity_tags e' = entity_tags e /\ entity_examples e' = entity_examples e.
Proof.
  unfold read_entity, read_steps. destruct e as [s|o].
  - destruct (st !! sc_steps s); [|discriminate]. now intros [= <-].
  - destruct (st !! so_steps o); [|discriminate]. now intros [= <-].
Qed.

Lemma read_feature_tags (c : Context) (f : FeatureModel (list string)) :
  read_feature c = Ok f ->
  map entity_tags (scenarios f) = map entity_tags (scenarios (feature c)) /\
  map entity_examples (scenarios f) = map entity_examples (scenarios (feature c)).
Proof.
  unfold read_feature.
  destruct (read_background _ _); [|discriminate]. cbn [bind].
  destruct (mapM _ _) as [scs|] eqn:E; [|discriminate]. cbn [bind].
  intros [= <-]. cbn [scenarios]. split.
  - apply (mapM_map _ _ _ _ _ (fun a b H => proj1 (read_entity_tags _ a b H)) E).
  - apply (mapM_map _ _ _ _ _ (fun a b H => proj2 (read_entity_tags _ a b H)) E).
Qed.

End DocStringsOnlyGiveSteps.

(** X25.  Doc strings only give steps: the input without its doc strings,
    fences included, has no fence left and gives a feature with the same
    name, the same description, and the same scenarios as to name, class,
    tags and example rows. *)
Theorem doc_strings_only_give_steps (raw : list string)
    (f : FeatureModel (list string)) :
  parseLines raw = Ok f ->
  fence_free (map trim (outside_doc_strings false raw)) /\
  exists f',
    parseLines (outside_doc_strings false raw) = Ok f' /\ same_outline f f'.
Proof.
  intros H. split; [apply outside_doc_strings_fence_free|].
  destruct (parseLines_total (outside_doc_strings false raw)) as [f' H'].
  exists f'. split; [exact H'|].
  revert H H'. unfold parseLines. rewrite outside_doc_strings_trim.
  destruct (run initial (map trim raw)) as [c1|] eqn:E1; [|discriminate].
  cbn [bind]. intros H.
  destruct (run_outside_doc_strings (map trim raw) initial initial c1)
    as (c2 & E2 & R1 & _); [| repeat split | reflexivity | exact E1 |].
  { apply Forall_fmap, Forall_forall. intros r _. apply trim_idem. }
  change (inDocString initial) with false in E2. rewrite E2. cbn [bind].
  intros H'. unfold same_outline.
  rewrite (read_feature_name c1 f H), (read_feature_name c2 f' H').
  rewrite (read_feature_description c1 f H), (read_feature_description c2 f' H').
  rewrite (read_feature_heads c1 f H), (read_feature_heads c2 f' H').
  destruct (read_feature_tags c1 f H) as [-> ->].
  destruct (read_feature_tags c2 f' H') as [-> ->].
  now rewrite R1.
Qed.

Lemma doc_strings_only_give_steps_witness :
  exists f,
    parseLines ["Feature: f"; "Scenario: a"; "Given a text"; fence;
                "Scenario: hidden"; fence; "@t"; "Scenario: b"] = Ok f /\
    fence_free
      (map trim
           (outside_doc_strings false
              ["Feature: f"; "Scenario: a"; "Given a text"; fence;
               "Scenario: hidden"; fence; "@t"; "Scenario: b"])) /\
    exists f',
      parseLines
        (outside_doc_strings false
           ["Feature: f"; "Scenario: a"; "Given a text"; fence;
            "Scenario: hidden"; fence; "@t"; "Scenario: b"]) = Ok f' /\
      same_outline f f'.
Proof.
  eexists. split; [vm_compute; reflexivity|].
  apply (doc_strings_only_give_steps
           ["Feature: f"; "Scenario: a"; "Given a text"; fence;
            "Scenario: hidden"; fence; "@t"; "Scenario: b"]).
  vm_compute. reflexivity.
Defined.

(** * C3, amended: the rows of a table and its header row *)

Section TableHeader.

Lemma no_header_after_nil : no_header_after [].
Proof. exists [], []. repeat split; [now left | constructor]. Qed.

Lemma no_header_after_snoc (seen : list string) (line : string) :
  no_header_after seen ->
  (startsWith line "|" = true -> parseTableRow line = []) ->
  no_header_after (seen ++ [line]).
Proof.
  intros (b & s & -> & Hb & Hs) Hl. exists b, (s ++ [line]).
  rewrite app_assoc. split; [reflexivity|]. split; [exact Hb|].
  apply Forall_app. split; [exact Hs | now constructor].
Qed.

Lemma no_header_after_Examples (seen : list string) (line : string) :
  startsWith line "Examples:" = true -> no_header_after (seen ++ [line]).
Proof.
  intros H. exists (seen ++ [line]), []. rewrite app_nil_r.
  split; [reflexivity|]. split; [right; now exists seen, line | constructor].
Qed.

Lemma row_of_table_snoc (seen : list string) (line : string) (row : obj string) :
  row_of_table seen row -> row_of_table (seen ++ [line]) row.
Proof.
  intros (b & hl & m & cl & a & -> & H).
  exists b, hl, m, cl, (a ++ [line]). split; [|exact H].
  rewrite <- app_assoc. f_equal. cbn [app]. f_equal.
  rewrite <- app_assoc. reflexivity.
Qed.

Lemma header_in_force_snoc (seen : list string) (line : string)
    (h : list string) :
  header_in_force seen h ->
  startsWith line "Examples:" = false ->
  (h = [] -> startsWith line "|" = true -> parseTableRow line = []) ->
  header_in_force (seen ++ [line]) h.
Proof.
  intros [[-> Hno]|(b & hl & m & -> & Hno & Hp & Hne & Hm & ->)] He Hl.
  - left. split; [reflexivity|]. apply no_header_after_snoc; auto.
  - right. exists b, hl, (m ++ [line]).
    split; [now rewrite <- app_assoc|].
    repeat (split; [assumption|]). split; [|reflexivity].
    apply Forall_app. split; [exact Hm | now constructor].
Qed.

(** A line that leaves the buffer alone and adds no row. *)
Lemma table_inv_same (seen : list string) (c c' : Context) (line : string) :
  table_inv seen c ->
  startsWith line "Examples:" = false ->
  (headers c = [] -> startsWith line "|" = true -> parseTableRow line = []) ->
  headers c' = headers c ->
  (forall e row, e ∈ scenarios (feature c') -> row ∈ entity_examples e ->
     exists e0, e0 ∈ scenarios (feature c) /\ row ∈ entity_examples e0) ->
  table_inv (seen ++ [line]) c'.
Proof.
  intros [Hb Hr] He Hl Hh Hrows. split.
  - rewrite Hh. now apply header_in_force_snoc.
  - intros e row Hin Hrow. destruct (Hrows e row Hin Hrow) as (e0 & H0 & H1).
    apply row_of_table_snoc. eauto.
Qed.

Lemma table_inv_initial : table_inv [] initial.
Proof.
  split.
  - left. split; [reflexivity | apply no_header_after_nil].
  - intros e row H. inversion H.
Qed.

(** One line outside a doc string keeps the invariant. *)
Lemma plain_table_inv (seen : list string) (c c' : Context) (line : string) :
  startsWith line fence = false -> inDocString c = false ->
  process_line c line = Ok c' ->
  table_inv seen c -> table_inv (seen ++ [line]) c'.
Proof.
  intros Hf Hdoc. rewrite (process_plain _ _ Hf Hdoc).
  assert (Hp : classify line <> KTable -> startsWith line "|" = true ->
               parseTableRow line = []).
  { intros Hk H. apply classify_Table in H. contradiction. }
  assert (He : classify line <> KExamples -> startsWith line "Examples:" = false).
  { intros Hk. destruct (startsWith line "Examples:") eqn:E; [|reflexivity].
    apply classify_Examples in E. contradiction. }
  assert (Hsame : forall c0 : Context,
            scenarios (feature c0) = scenarios (feature c) ->
            forall e row, e ∈ scenarios (feature c0) -> row ∈ entity_examples e ->
              exists e0, e0 ∈ scenarios (feature c) /\ row ∈ entity_examples e0).
  { intros c0 -> e row H1 H2. now exists e. }
  assert (Hnew : forall (c0 : Context) (e1 : Entity nat),
            scenarios (feature c0) = scenarios (feature c) ++ [e1] ->
            entity_examples e1 = [] ->
            forall e row, e ∈ scenarios (feature c0) -> row ∈ entity_examples e ->
              exists e0, e0 ∈ scenarios (feature c) /\ row ∈ entity_examples e0).
  { intros c0 e1 -> Hx e row H1 H2.
    apply elem_of_app in H1 as [H1|H1]; [now exists e|].
    apply list_elem_of_singleton in H1 as ->. rewrite Hx in H2. inversion H2. }
  destruct (classify line) eqn:K.
  - intros [= <-] Hinv.
    apply (table_inv_same seen c); auto; try discriminate. now apply Hsame.
  - intros [= <-] Hinv.
    apply (table_inv_same seen c); auto; try discriminate. now apply Hsame.
  - intros [= <-] Hinv.
    apply (table_inv_same seen c); auto; try discriminate. now apply Hsame.
  - intros [= <-] Hinv.
    apply (table_inv_same seen c); auto; try discriminate.
    now apply (Hnew _ (Outline {| so_name := trim (slice 17 line);
                                  so_steps := length (store c);
                                  so_examples := [];
                                  so_tags := pendingTags c |})).
  - intros [= <-] Hinv.
    apply (table_inv_same seen c); auto; try discriminate.
    now apply (Hnew _ (Scenario {| sc_name := trim (slice 9 line);
                                   sc_steps := length (store c);
                                   sc_tags := pendingTags c |})).
  - intros [= <-] [Hb Hr]. apply classify_Examples in K. split.
    + left. split; [reflexivity | now apply no_header_after_Examples].
    + intros e row H1 H2. apply row_of_table_snoc. eauto.
  - intros [= <-] Hinv.
    apply (table_inv_same seen c); auto; try discriminate. now apply Hsame.
  - pose proof (proj2 (classify_Table line) K) as Hbar.
    specialize (He ltac:(discriminate)).
    unfold on_table_row. destruct (headers c) as [|h0 hs] eqn:Eh.
    + cbn [length Nat.eqb]. intros [= <-] [Hb Hr]. split.
      * cbn [headers set_headers]. rewrite Eh in Hb.
        destruct Hb as [[_ Hno]|(b & hl & m & _ & _ & _ & Hne & _ & Hh)];
          [|congruence].
        destruct (parseTableRow line) as [|x xs] eqn:Ecells.
        -- left. split; [reflexivity|]. now apply no_header_after_snoc.
        -- right. exists seen, line, []. rewrite Ecells.
           repeat split; [exact Hno | exact Hbar | discriminate | constructor].
      * intros e row H1 H2. apply row_of_table_snoc. eauto.
    + cbn [length Nat.eqb].
      destruct (currentScenario c) as [i|].
      * destruct (scenarios (feature c) !! i) as [[s|o]|] eqn:Hi; [| |discriminate].
        -- intros [= <-] Hinv.
           apply (table_inv_same seen c); auto; [rewrite Eh; discriminate|].
           now apply Hsame.
        -- intros [= <-] [Hb Hr]. split.
           ++ change (headers (push_example i o (make_row (h0 :: hs)
                                                  (parseTableRow line)) c))
                with (headers c).
              apply header_in_force_snoc; [exact Hb | exact He |].
              rewrite Eh. discriminate.
           ++ intros e row H1 H2.
              cbn [feature scenarios push_example set_feature set_scenarios] in H1.
              apply elem_of_insert_inv in H1 as [->|H1];
                [|apply row_of_table_snoc; eauto].
              cbn [entity_examples so_examples] in H2.
              apply elem_of_app in H2 as [H2|H2].
              ** apply row_of_table_snoc. apply (Hr (Outline o)); [|exact H2].
                 eapply list_elem_of_lookup_2; eassumption.
              ** apply list_elem_of_singleton in H2 as ->.
                 rewrite Eh in Hb.
                 destruct Hb as [[? _]|(b & hl & m & -> & Hno & Hp' & Hne & Hm & Hh)];
                   [discriminate|].
                 exists b, hl, m, line, []. rewrite Hh.
                 split; [now rewrite <- app_assoc|]. auto 10.
      * intros [= <-] Hinv.
        apply (table_inv_same seen c); auto; [rewrite Eh; discriminate|].
        now apply Hsame.
  - unfold push_collector. cbv zeta.
    destruct (store c !! currentStepCollector c); [|discriminate].
    intros [= <-] Hinv.
    apply (table_inv_same seen c); auto; try discriminate. now apply Hsame.
  - destruct (mode_is_none (mode c)); intros [= <-] Hinv;
      apply (table_inv_same seen c); auto; try discriminate; now apply Hsame.
  - intros [= <-] Hinv.
    apply (table_inv_same seen c); auto; try discriminate. now apply Hsame.
Qed.

Lemma run_table_inv (lines seen : list string) (c c' : Context) :
  fence_free lines -> inDocString c = false ->
  run c lines = Ok c' -> table_inv seen c -> table_inv (seen ++ lines) c'.
Proof.
  revert seen c. induction lines as [|l lines IH]; intros seen c Hf Hdoc Hrun Hinv.
  - injection Hrun as <-. now rewrite app_nil_r.
  - inversion Hf as [|? ? Hf1 Hf2]; subst. cbn [run] in Hrun.
    destruct (process_line c l) as [c1|] eqn:E; [|discriminate].
    cbn [bind] in Hrun.
    replace (seen ++ l :: lines) with ((seen ++ [l]) ++ lines)
      by now rewrite <- app_assoc.
    apply (IH _ c1); [exact Hf2 | | exact Hrun |].
    + rewrite (process_line_doc_flag c c1 l Hf1 E). exact Hdoc.
    + exact (plain_table_inv seen c c1 l Hf1 Hdoc E Hinv).
Qed.

End TableHeader.

(** C3, amended.  Every example row of every outline of the returned
    feature is a row of a table, zipped with the header row of that table.
    Among the lines outside the doc strings, the header row is the first
    table row with a cell since the start of the input or since an
    [Examples:] line; the data row comes after it, and no [Examples:] line
    lies between the two.  The set of keys of the row is the set of header
    names, [__proto__] left out; the keys come in header order when the
    header names are pairwise different and none is an array index or
    [__proto__]; the value of a header name (at its last column when the
    name is repeated) is the cell of that column, and the empty string
    when the row has no cell there. *)
Theorem example_rows_follow_header (raw : list string)
    (f : FeatureModel (list string)) (o : ScenarioOutlineModel (list string))
    (row : obj string) :
  parseLines raw = Ok f -> Outline o ∈ scenarios f -> row ∈ so_examples o ->
  exists before header_line between cells_line after,
    map trim (outside_doc_strings false raw)
    = before ++ header_line :: between ++ cells_line :: after /\
    no_header_after before /\
    startsWith header_line "|" = true /\ parseTableRow header_line <> [] /\
    Forall (fun l => startsWith l "Examples:" = false) between /\
    startsWith cells_line "|" = true /\
    row = make_row (parseTableRow header_line) (parseTableRow cells_line) /\
    (forall k, k ∈ keys row <->
               k ∈ parseTableRow header_line /\ k <> "__proto__") /\
    (NoDup (parseTableRow header_line) ->
     Forall (fun h => array_index h = None /\ h <> "__proto__")
            (parseTableRow header_line) ->
     keys row = parseTableRow header_line) /\
    (forall i h,
        parseTableRow header_line !! i = Some h -> h <> "__proto__" ->
        h ∉ drop (S i) (parseTableRow header_line) ->
        get h row = Some (cell_or_empty (parseTableRow cells_line) i) /\
        (length (parseTableRow cells_line) <= i -> get h row = Some "")).
Proof.
  unfold parseLines. intros Hparse Ho Hrow.
  destruct (run initial (map trim raw)) as [c1|] eqn:E1; [|discriminate].
  cbn [bind] in Hparse.
  destruct (read_feature_outline c1 f o Hparse Ho) as (e & He & Hex).
  destruct (run_outside_doc_strings (map trim raw) initial initial c1)
    as (c2 & E2 & R1 & _); [| repeat split | reflexivity | exact E1 |].
  { apply Forall_fmap, Forall_forall. intros r _. apply trim_idem. }
  change (inDocString initial) with false in E2.
  rewrite <- outside_doc_strings_trim in E2.
  pose proof (run_table_inv _ [] initial c2
                (outside_doc_strings_fence_free false raw) eq_refl E2
                table_inv_initial) as [_ Hrows].
  cbn [app] in Hrows. rewrite <- R1 in Hrows. rewrite <- Hex in Hrow.
  destruct (Hrows e row He Hrow)
    as (b & hl & m & cl & a & H1 & H2 & H3 & H4 & H5 & H6 & ->).
  exists b, hl, m, cl, a.
  repeat (split; [assumption|]). split; [reflexivity|].
  unfold make_row. split; [|split].
  - intros k. rewrite keys_zip_headers. cbn. rewrite elem_of_nil. tauto.
  - intros Hnd Hall. rewrite zip_headers_in_order; auto.
    intros h _ Hh. inversion Hh.
  - intros i h Hi Hp Hlast.
    rewrite (get_zip_headers _ _ 0 i _ h Hi Hp Hlast). cbn [Nat.add].
    split; [reflexivity|]. intros Hlen. unfold cell_or_empty.
    now rewrite lookup_ge_None_2.
Qed.

Lemma example_rows_follow_header_witness :
  exists before header_line between cells_line after,
    map trim
        (outside_doc_strings false
           ["Scenario Outline: o"; "Examples:"; "| a |"; "| 1 |";
            "Examples:"; "| b | c |"; "| 2 |"])
    = before ++ header_line :: between ++ cells_line :: after /\
    no_header_after before /\
    Forall (fun l => startsWith l "Examples:" = false) between /\
    [("b", "2"); ("c", "")]
    = make_row (parseTableRow header_line) (parseTableRow cells_line).
Proof.
  destruct (example_rows_follow_header
              ["Scenario Outline: o"; "Examples:"; "| a |"; "| 1 |";
               "Examples:"; "| b | c |"; "| 2 |"]
              {| name := ""; description := []; background := None;
                 scenarios :=
                   [Outline {| so_name := "o"; so_steps := [];
                               so_examples :=
                                 [[("a", "1")]; [("b", "2"); ("c", "")]];
                               so_tags := [] |}] |}
              {| so_name := "o"; so_steps := [];
                 so_examples := [[("a", "1")]; [("b", "2"); ("c", "")]];
                 so_tags := [] |}
              [("b", "2"); ("c", "")])
    as (b & hl & m & cl & a & H1 & H2 & _ & _ & H3 & _ & H4 & _).
  - vm_compute. reflexivity.
  - left.
  - right. left.
  - exists b, hl, m, cl, a. auto.
Defined.
